(** * Address Search Toolbar: the search dialogs, verified

    A shallow embedding of the two dialogs of the plugin,
    [AddressSearchDialog.py] (module [Dialog]) and
    [AddressSearchToolbar.py] (module [Toolbar]): the filter expressions
    they build from the free word and the refinement, the checks of
    [run_search] before a query reaches the host, the file search, and
    the state of the dialogs: [clear_all], the layer and field boxes, the
    settings of the toolbar dialog and what stays true while it is open.

    Python strings are sequences of Unicode code points; every operation
    below works on code points, as [str] does in Python 3.  The host
    (layers, query engine, file system) and the Unicode database of the
    runtime enter as data: [Host], [FileSystem], [UnicodeTables]. *)

From Stdlib Require Import Strings.String Strings.Ascii.
From Stdlib Require Import List NArith ZArith Bool Lia Sorted Permutation.
Import ListNotations.

Set Implicit Arguments.

(* ================================================================== *)
(** * Part I: definitions                                               *)
(* ================================================================== *)

(** ** Python strings *)

Definition char := N.
Definition str := list char.

(** A literal of the source.  The literals written with [lit] are ASCII,
    so the bytes of the Rocq string are the code points. *)
Definition lit (s : string) : str := map N_of_ascii (list_ascii_of_string s).

Definition quote : char := 39%N.      (* ' *)
Definition dquote : char := 34%N.     (* the double quote *)
Definition backslash : char := 92%N.
Definition percent : char := 37%N.
Definition underscore : char := 95%N.
Definition dot : char := 46%N.
Definition plus_sign : char := 43%N.
Definition minus_sign : char := 45%N.

Definition char_eqb (a b : char) : bool := N.eqb a b.

Fixpoint str_eqb (a b : str) : bool :=
  match a, b with
  | [], [] => true
  | x :: a', y :: b' => char_eqb x y && str_eqb a' b'
  | _, _ => false
  end.

(** [s.replace(old, new)] for a one-character [old]: every occurrence is
    replaced, left to right. *)
Definition replace (old : char) (new : str) (s : str) : str :=
  flat_map (fun c => if char_eqb c old then new else [c]) s.

(** [sep.join(parts)] *)
Fixpoint join (sep : str) (parts : list str) : str :=
  match parts with
  | [] => []
  | [p] => p
  | p :: rest => p ++ sep ++ join sep rest
  end.

(** [str.isspace] of one character: the code points whose bidirectional
    class is WS, B or S, or whose category is Zs. *)
Definition isspace (c : char) : bool :=
  ((9 <=? c) && (c <=? 13) || (28 <=? c) && (c <=? 32)
   || (c =? 133) || (c =? 160) || (c =? 5760)
   || (8192 <=? c) && (c <=? 8202)
   || (c =? 8232) || (c =? 8233) || (c =? 8239) || (c =? 8287)
   || (c =? 12288))%N.

Fixpoint lstrip_by (drop : char -> bool) (s : str) : str :=
  match s with
  | c :: t => if drop c then lstrip_by drop t else s
  | [] => []
  end.

Definition rstrip_by (drop : char -> bool) (s : str) : str :=
  rev (lstrip_by drop (rev s)).

(** [s.strip()] *)
Definition strip (s : str) : str := rstrip_by isspace (lstrip_by isspace s).

(** [s.lstrip(".")] *)
Definition lstrip_dots (s : str) : str := lstrip_by (char_eqb dot) s.

Fixpoint startswith (t s : str) : bool :=
  match t, s with
  | [], _ => true
  | x :: t', y :: s' => char_eqb x y && startswith t' s'
  | _ :: _, [] => false
  end.

(** [t in s] for strings: [t] occurs in [s] as a contiguous run. *)
Fixpoint contains (t s : str) : bool :=
  startswith t s ||
  match s with
  | [] => false
  | _ :: s' => contains t s'
  end.

(** How often [c] occurs in [s]: [s.count(c)] *)
Definition occurrences (c : char) (s : str) : nat :=
  length (filter (char_eqb c) s).

(** The reading of a quoted literal of the expression grammar, from just
    after its opening quote: two quotes in a row stand for one quote of
    the text, a single quote closes the literal.  The result is the text
    and what follows the literal; [None] when the literal never closes. *)
Fixpoint read_literal (s : str) : option (str * str) :=
  match s with
  | [] => None
  | a :: rest =>
      if char_eqb a quote then
        match rest with
        | b :: t =>
            if char_eqb b quote then
              match read_literal t with
              | Some (txt, r) => Some (quote :: txt, r)
              | None => None
              end
            else Some ([], rest)
        | [] => Some ([], [])
        end
      else
        match read_literal rest with
        | Some (txt, r) => Some (a :: txt, r)
        | None => None
        end
  end.

(** Truthiness of a value that is [None] or a string: [None] and the
    empty string are false. *)
Definition truthy (v : option str) : bool :=
  match v with
  | Some (_ :: _) => true
  | _ => false
  end.

(** [a or b] on such values. *)
Definition py_or (a b : option str) : option str :=
  if truthy a then a else b.

(** What the Python runtime takes from its Unicode database.  The code
    only depends on it outside ASCII. *)
Class UnicodeTables := {
  (** category Nd: the characters [\d] matches beside 0-9 *)
  unicode_decimal : char -> bool;
  (** [str.lower] on a string with a non-ASCII character *)
  unicode_lower : str -> str
}.

Definition is_ascii (c : char) : bool := (c <? 128)%N.

Definition ascii_lower (c : char) : char :=
  if ((65 <=? c) && (c <=? 90))%N then (c + 32)%N else c.

(** [s.lower()] *)
Definition lower {U : UnicodeTables} (s : str) : str :=
  if forallb is_ascii s then map ascii_lower s else unicode_lower s.

(** ** Regular expressions, as far as [re.fullmatch] is used *)

Module Re.

Inductive pattern : Type :=
| Fail                                (* no string; arises from derivatives only *)
| Empty                               (* the empty string *)
| Class (cls : char -> bool)          (* one character of a class *)
| Seq (p q : pattern)
| Alt (p q : pattern)
| Star (p : pattern).

(** [p?] and [p+] *)
Definition Opt (p : pattern) : pattern := Alt p Empty.
Definition Plus (p : pattern) : pattern := Seq p (Star p).


Fixpoint nullable (p : pattern) : bool :=
  match p with
  | Fail => false
  | Empty => true
  | Class _ => false
  | Seq p q => nullable p && nullable q
  | Alt p q => nullable p || nullable q
  | Star _ => true
  end.

(** What is left of [p] after the character [c]. *)
Fixpoint after (c : char) (p : pattern) : pattern :=
  match p with
  | Fail => Fail
  | Empty => Fail
  | Class cls => if cls c then Empty else Fail
  | Seq p q =>
      if nullable p then Alt (Seq (after c p) q) (after c q)
      else Seq (after c p) q
  | Alt p q => Alt (after c p) (after c q)
  | Star p => Seq (after c p) (Star p)
  end.

(** [re.fullmatch(p, s) is not None] *)
Fixpoint fullmatch (p : pattern) (s : str) : bool :=
  match s with
  | [] => nullable p
  | c :: t => fullmatch (after c p) t
  end.

End Re.

(** ** The utilities of AddressSearchToolbar.py *)

Section Numbers.
Context {U : UnicodeTables}.

(** [\d] of a [str] pattern: 0-9 and the other decimal digits of Unicode. *)
Definition is_digit (c : char) : bool :=
  if is_ascii c then ((48 <=? c) && (c <=? 57))%N else unicode_decimal c.

Definition is_sign (c : char) : bool := char_eqb c plus_sign || char_eqb c minus_sign.

(** The pattern [[+-]?\d+(\.\d+)?] *)
Definition number_pattern : Re.pattern :=
  Re.Seq (Re.Opt (Re.Class is_sign))
    (Re.Seq (Re.Plus (Re.Class is_digit))
       (Re.Opt (Re.Seq (Re.Class (char_eqb dot)) (Re.Plus (Re.Class is_digit))))).

(** [_is_number(s)]: [s or ""] is [s] for a string. *)
Definition _is_number (s : str) : bool := Re.fullmatch number_pattern s.



End Numbers.

(** Tables that know no character outside ASCII: enough to run the code
    on ASCII input, where the tables are not consulted. *)
Definition ascii_tables : UnicodeTables :=
  {| unicode_decimal := fun _ => false; unicode_lower := fun s => s |}.

(** Tables that know the full-width digits U+FF10 to U+FF19 as decimal
    digits, as the Unicode database does. *)
Definition fullwidth_tables : UnicodeTables :=
  {| unicode_decimal := fun c => ((65296 <=? c) && (c <=? 65305))%N;
     unicode_lower := fun s => s |}.

(** ** The host application, as far as the dialogs use it *)

(** [f.type()]: the QVariant type of a field. *)
Inductive QVariantType : Type :=
| QV_String | QV_Int | QV_LongLong | QV_Double | QV_Bool | QV_Date | QV_Other.

Definition is_QV_String (t : QVariantType) : bool :=
  match t with QV_String => true | _ => false end.

(** A field of a layer: [f.name()], [f.type()] and [f.typeName()]. *)
Record Field : Type := {
  f_name : str;
  f_type : QVariantType;
  f_typeName : str
}.

Inductive LayerKind : Type := VectorLayer | RasterLayer | OtherLayer.

(** A map layer of the project.  [l_type] is what [layer.type()] returns,
    [None] when the call raises. *)
Record MapLayer : Type := {
  l_id : str;
  l_name : str;
  l_type : option LayerKind;
  l_fields : list Field
}.

(** [isinstance(layer, QgsVectorLayer)] *)
Definition is_vector (l : MapLayer) : bool :=
  match l_type l with Some VectorLayer => true | _ => false end.

(** The query engine of the host: [QgsExpression(e).hasParserError()]
    with its error string, and the ids of the features
    [layer.getFeatures(QgsFeatureRequest(e))] yields, or the exception it
    raises. *)
Inductive QueryResult : Type :=
| Features (ids : list Z)
| Raises (detail : str).

Record Host : Type := {
  parserError : str -> option str;
  getFeatures : MapLayer -> str -> QueryResult
}.

(** What a run of a search does to the host, in order.  [M] is the type
    of the messages of the dialog. *)
Inductive Event (M : Type) : Type :=
| PushWarning (m : M)
| PushCritical (m : M)
| PushInfo (m : M)
| PushSuccess (hits : nat)
| GetFeatures (expr : str)        (* the query is executed *)
| RemoveSelection (layer_id : str)
| SelectByIds (ids : list Z)
| ZoomToSelected
| FillResultsTable (ids : list Z)  (* _fill_results_table(layer, feats) *)
| SaveState                       (* _save_state() *)
| ClearTreeCurrentIndex           (* layerTreeView().setCurrentIndex(QModelIndex()) *)
| SetActiveLayerNone              (* iface.setActiveLayer(None) *)
| Uncaught (detail : str).        (* an exception leaves the handler *)

Arguments PushSuccess {M}.
Arguments GetFeatures {M}.
Arguments RemoveSelection {M}.
Arguments SelectByIds {M}.
Arguments ZoomToSelected {M}.
Arguments FillResultsTable {M}.
Arguments SaveState {M}.
Arguments ClearTreeCurrentIndex {M}.
Arguments SetActiveLayerNone {M}.
Arguments Uncaught {M}.

Definition is_query {M : Type} (e : Event M) : bool :=
  match e with GetFeatures _ => true | _ => false end.

(** A run executes a query when [getFeatures] is among its calls. *)
Definition executes_query {M : Type} (run : list (Event M)) : bool :=
  existsb is_query run.

Definition is_message {M : Type} (e : Event M) : bool :=
  match e with
  | PushWarning _ | PushCritical _ | PushInfo _ | PushSuccess _ => true
  | _ => false
  end.

Definition changes_selection {M : Type} (e : Event M) : bool :=
  match e with
  | RemoveSelection _ | SelectByIds _ | ZoomToSelected => true
  | _ => false
  end.

(** A run tells the user one thing: one entry on the message bar. *)
Definition one_message {M : Type} (run : list (Event M)) : Prop :=
  length (filter is_message run) = 1%nat.

(** A run either leaves the layer alone (no query, no change of its
    selection), or begins with its only query, made with an expression
    the parser accepted. *)
Definition query_first {M : Type} (h : Host) (run : list (Event M)) : Prop :=
  (executes_query run = false /\ existsb changes_selection run = false) \/
  (exists e rest,
     run = GetFeatures e :: rest /\ parserError h e = None /\
     executes_query rest = false).

(** A combo box: its items and the current index, -1 for none. *)
Record QComboBox : Type := {
  items : list str;
  currentIndex : Z
}.

Definition currentText (cb : QComboBox) : str :=
  if (currentIndex cb <? 0)%Z then []
  else nth (Z.to_nat (currentIndex cb)) (items cb) [].

Definition setCurrentIndex (i : Z) (cb : QComboBox) : QComboBox :=
  {| items := items cb;
     currentIndex :=
       if ((0 <=? i) && (i <? Z.of_nat (length (items cb))))%Z then i else (-1)%Z |}.

Definition combo_clear (cb : QComboBox) : QComboBox :=
  {| items := []; currentIndex := (-1)%Z |}.

(** [addItem]: the first item of an empty box becomes the current one. *)
Definition addItem (s : str) (cb : QComboBox) : QComboBox :=
  {| items := items cb ++ [s];
     currentIndex := match items cb with [] => 0%Z | _ => currentIndex cb end |}.

Fixpoint find_from (i : Z) (s : str) (l : list str) : Z :=
  match l with
  | [] => (-1)%Z
  | x :: l' => if str_eqb x s then i else find_from (i + 1)%Z s l'
  end.

(** [findText]: the index of the first item equal to [s], or -1. *)
Definition findText (s : str) (cb : QComboBox) : Z := find_from 0%Z s (items cb).

(** The value an f-string prints for a string or [None]. *)
Definition format_value (v : option str) : str :=
  match v with
  | Some s => s
  | None => lit "None"
  end.

Definition nonempty {A : Type} (l : list A) : bool :=
  match l with [] => false | _ :: _ => true end.

(** ** AddressSearchDialog.py *)

Module Dialog.

(** The labels of [join_combo] and [match_combo], as [_build_ui] adds
    them: "かつ", "または" and "含む", "完全一致", "前方一致". *)
Definition label_and : str := [12363; 12388]%N.
Definition label_or : str := [12414; 12383; 12399]%N.
Definition label_contains : str := [21547; 12416]%N.
Definition label_exact : str := [23436; 20840; 19968; 33268]%N.
Definition label_prefix : str := [21069; 26041; 19968; 33268]%N.

Definition join_items : list str := [label_and; label_or].
Definition match_items : list str := [label_contains; label_exact; label_prefix].

(** The input widgets of the dialog. *)
Record Widgets : Type := {
  freeword_edit : str;
  refine_enable : bool;
  refine_edit : str;
  match_combo : QComboBox;
  join_combo : QComboBox
}.

(** The widgets as [_build_ui] leaves them. *)
Definition built_widgets : Widgets :=
  {| freeword_edit := [];
     refine_enable := false;
     refine_edit := [];
     match_combo := {| items := match_items; currentIndex := 0 |};
     join_combo := {| items := join_items; currentIndex := 0 |} |}.

(** The messages [run_search] shows:
    - [NoLayer]: "レイヤが未選択です。対象レイヤをクリックして選択してください。"
    - [NotVector]: "ベクタレイヤを選択してください。"
    - [UnknownLayerType]: "レイヤ種別を判定できません。ベクタレイヤを選択してください。"
    - [NoCriteria]: "フリーワード、または絞り込み文字を入力してください。"
    - [NoStringFields]: "文字列フィールドが見つかりません。"
    - [NoExpression]: "検索式を作れませんでした。入力内容を確認してください。"
    - [ParserError e]: "式エラー: e"
    - [NoHits]: "該当する地物がありません。" *)
Inductive Message : Type :=
| NoLayer | NotVector | UnknownLayerType | NoCriteria | NoStringFields
| NoExpression | ParserError (detail : str) | NoHits.

(** [_escape_like]: ['] becomes [''] *)
Definition _escape_like (s : str) : str := replace quote [quote; quote] s.

(** [lower("name") LIKE lower('%text%')] *)
Definition contains_clause (text name : str) : str :=
  lit "lower(" ++ [dquote] ++ name ++ [dquote] ++ lit ") LIKE lower('%" ++ text ++ lit "%')".

(** [lower("name") = lower('text')] *)
Definition exact_clause (text name : str) : str :=
  lit "lower(" ++ [dquote] ++ name ++ [dquote] ++ lit ") = lower('" ++ text ++ lit "')".

(** [lower("name") LIKE lower('text%')] *)
Definition prefix_clause (text name : str) : str :=
  lit "lower(" ++ [dquote] ++ name ++ [dquote] ++ lit ") LIKE lower('" ++ text ++ lit "%')".

(** ["(" + " OR ".join(parts) + ")" if parts else None] *)
Definition or_group (parts : list str) : option str :=
  if nonempty parts then Some (lit "(" ++ join (lit " OR ") parts ++ lit ")")
  else None.

Definition _build_or_contains_expr (fields : list str) (text : str) : option str :=
  let text := _escape_like text in
  if negb (nonempty text) then None
  else or_group (map (contains_clause text) fields).

Definition _build_refine_expr (fields : list str) (text mode_label : str) : option str :=
  let text := _escape_like text in
  if negb (nonempty text) then None
  else
    let parts :=
      if str_eqb mode_label label_exact then map (exact_clause text) fields
      else if str_eqb mode_label label_prefix then map (prefix_clause text) fields
      else map (contains_clause text) fields in
    or_group parts.

Definition _combine_expr (a b : option str) (join_label : str) : option str :=
  if truthy a && truthy b then
    let op := if str_eqb join_label label_and then lit "AND" else lit "OR" in
    Some (lit "(" ++ format_value a ++ lit " " ++ op ++ lit " " ++ format_value b ++ lit ")")
  else py_or a b.

(** [str_fields]: the names of the fields whose type is [QVariant.String] *)
Definition str_fields (layer : MapLayer) : list str :=
  map f_name (filter (fun f => is_QV_String (f_type f)) (l_fields layer)).

(** The end of [run_search], from [QgsExpression(expr_text)] on. *)
Definition execute (h : Host) (layer : MapLayer) (expr_text : str) : list (Event Message) :=
  match parserError h expr_text with
  | Some detail => [PushCritical (ParserError detail)]
  | None =>
      match getFeatures h layer expr_text with
      | Raises detail => [GetFeatures expr_text; Uncaught detail]
      | Features ids =>
          if negb (nonempty ids) then
            [GetFeatures expr_text; RemoveSelection (l_id layer); PushInfo NoHits]
          else
            [GetFeatures expr_text; SelectByIds ids; ZoomToSelected;
             PushSuccess (length ids)]
      end
  end.

(** The values [run_search] computes between its checks and the query:
    [free_expr], [refine_expr] and [expr_text]. *)
Definition free_expr (fields : list str) (freeword : str) : option str :=
  if nonempty freeword then _build_or_contains_expr fields freeword else None.

Definition refine_expr (fields : list str) (refine_on : bool)
    (refine_text mode_label : str) : option str :=
  if refine_on && nonempty refine_text then
    _build_refine_expr fields refine_text mode_label
  else None.

Definition expr_text (layer : MapLayer) (w : Widgets) : option str :=
  let freeword := strip (freeword_edit w) in
  let refine_on := refine_enable w in
  let refine_text := if refine_on then strip (refine_edit w) else [] in
  let fields := str_fields layer in
  _combine_expr (free_expr fields freeword)
    (refine_expr fields refine_on refine_text (currentText (match_combo w)))
    (currentText (join_combo w)).

(** [run_search], given what [iface.activeLayer()] returns. *)
Definition run_search (h : Host) (active : option MapLayer) (w : Widgets)
  : list (Event Message) :=
  match active with
  | None => [PushWarning NoLayer]
  | Some layer =>
      match l_type layer with
      | None => [PushWarning UnknownLayerType]
      | Some RasterLayer | Some OtherLayer => [PushWarning NotVector]
      | Some VectorLayer =>
          let freeword := strip (freeword_edit w) in
          let refine_on := refine_enable w in
          let refine_text := if refine_on then strip (refine_edit w) else [] in
          if negb (nonempty freeword) && negb (refine_on && nonempty refine_text) then
            [PushWarning NoCriteria]
          else if negb (nonempty (str_fields layer)) then
            [PushWarning NoStringFields]
          else if negb (truthy (expr_text layer w)) then
            [PushWarning NoExpression]
          else execute h layer (format_value (expr_text layer w))
      end
  end.

(** *** The state of the dialog and [clear_all] *)

(** The text of [layer_info]: the line for no layer, or the line made of
    the name, kind, provider, extension and encoding of a layer. *)
Inductive LayerLabel : Type :=
| LabelUnselected
| LabelOf (layer_id : str).

(** The dialog: its input widgets, whether [refine_edit] and
    [match_combo] take input, and the info line. *)
Record Form : Type := {
  inputs : Widgets;
  refine_edit_enabled : bool;
  match_combo_enabled : bool;
  layer_info : LayerLabel
}.

(** The dialog and [iface.activeLayer()]. *)
Record Session : Type := {
  form : Form;
  active : option MapLayer
}.

(** What the host makes of [iface.setActiveLayer(None)]: the interface
    has no such method, the call raises, it returns and keeps the active
    layer, or it leaves no layer active. *)
Inductive SetActiveLayer : Type :=
| NoSuchMethod | CallRaises | KeepsLayer | ClearsLayer.

(** "条件をクリアしました（選択も解除しました）。" *)
Inductive ClearMessage : Type := ConditionsCleared.

Definition put_inputs (w : Widgets) (f : Form) : Form :=
  {| inputs := w;
     refine_edit_enabled := refine_edit_enabled f;
     match_combo_enabled := match_combo_enabled f;
     layer_info := layer_info f |}.

Definition _apply_refine_enabled (enabled : bool) (f : Form) : Form :=
  {| inputs := inputs f;
     refine_edit_enabled := enabled;
     match_combo_enabled := enabled;
     layer_info := layer_info f |}.

(** [refine_enable.setChecked(b)], with [toggled] connected to
    [_apply_refine_enabled] *)
Definition set_refine_enable (b : bool) (f : Form) : Form :=
  let w := inputs f in
  let f' :=
    put_inputs
      {| freeword_edit := freeword_edit w;
         refine_enable := b;
         refine_edit := refine_edit w;
         match_combo := match_combo w;
         join_combo := join_combo w |} f in
  if Bool.eqb b (refine_enable w) then f' else _apply_refine_enabled b f'.

Definition update_layer_info (layer : option MapLayer) (f : Form) : Form :=
  {| inputs := inputs f;
     refine_edit_enabled := refine_edit_enabled f;
     match_combo_enabled := match_combo_enabled f;
     layer_info :=
       match layer with
       | None => LabelUnselected
       | Some l => LabelOf (l_id l)
       end |}.

(** A step on the input widgets. *)
Definition on_inputs (g : Widgets -> Widgets) (f : Form) : Form :=
  put_inputs (g (inputs f)) f.

Definition clear_freeword_edit (w : Widgets) : Widgets :=
  {| freeword_edit := [];
     refine_enable := refine_enable w;
     refine_edit := refine_edit w;
     match_combo := match_combo w;
     join_combo := join_combo w |}.

Definition clear_refine_edit (w : Widgets) : Widgets :=
  {| freeword_edit := freeword_edit w;
     refine_enable := refine_enable w;
     refine_edit := [];
     match_combo := match_combo w;
     join_combo := join_combo w |}.

Definition reset_match_combo (w : Widgets) : Widgets :=
  {| freeword_edit := freeword_edit w;
     refine_enable := refine_enable w;
     refine_edit := refine_edit w;
     match_combo := setCurrentIndex 0 (match_combo w);
     join_combo := join_combo w |}.

Definition reset_join_combo (w : Widgets) : Widgets :=
  {| freeword_edit := freeword_edit w;
     refine_enable := refine_enable w;
     refine_edit := refine_edit w;
     match_combo := match_combo w;
     join_combo := setCurrentIndex 0 (join_combo w) |}.

(** [clear_all]: the session it leaves and its calls to the host.  A
    failure of [removeSelection] or [setActiveLayer] is passed over; a
    change of the active layer reaches [_on_layer_changed]. *)
Definition clear_all (host : SetActiveLayer) (s : Session)
  : Session * list (Event ClearMessage) :=
  let f := on_inputs clear_freeword_edit (form s) in
  let f := set_refine_enable false f in
  let f := on_inputs clear_refine_edit f in
  let f := on_inputs reset_match_combo f in
  let f := on_inputs reset_join_combo f in
  let unselect :=
    match active s with
    | Some layer => [RemoveSelection (l_id layer)]
    | None => []
    end in
  let deselect :=
    match host with
    | NoSuchMethod => []
    | _ => [SetActiveLayerNone]
    end in
  let active' :=
    match host with
    | ClearsLayer => None
    | _ => active s
    end in
  let f :=
    match host, active s with
    | ClearsLayer, Some _ => update_layer_info active' f
    | _, _ => f
    end in
  let f := update_layer_info active' f in
  ({| form := f; active := active' |},
   unselect ++ deselect ++ [PushInfo ConditionsCleared]).



End Dialog.

(** ** Control flow: a block that may leave the enclosing function *)

Inductive flow (R A : Type) : Type :=
| Return (r : R)        (* [return] out of the function, with what it did *)
| Next (a : A).         (* fall through with the value of the block *)

Arguments Return {R A}.
Arguments Next {R A}.

Definition and_then {R A : Type} (c : flow R A) (k : A -> R) : R :=
  match c with
  | Return r => r
  | Next a => k a
  end.

Notation "'let*' x := c 'in' k" := (and_then c (fun x => k))
  (at level 10, x name, c at level 100, k at level 200).

(** ** AddressSearchToolbar.py: the attribute search *)

Module Toolbar.

(** The messages of the dialog:
    - [NoLayer]: "レイヤが選択されていません"
    - [NoCriteria]: "フリーワードまたは機能拡張条件を入力してください"
    - [NoStringFields]: "文字列フィールドが見つかりません"
    - [GreaterNeedsNumber]: "「より大きい」は数値を入力してください"
    - [LessNeedsNumber]: "「より小さい」は数値を入力してください"
    - [NoExpression]: "有効な検索条件が作れませんでした"
    - [ParserError e]: "式エラー: e"
    - [NoHits]: "該当する地物がありません"
    - [SearchError e]: "検索中にエラー: e"
    - [Cleared]: "検索条件をクリアしました（レイヤ選択も解除、フォルダは保持）" *)
Inductive Message : Type :=
| NoLayer | NoCriteria | NoStringFields | GreaterNeedsNumber | LessNeedsNumber
| NoExpression | ParserError (detail : str) | NoHits | SearchError (detail : str)
| Cleared.

(** [_escape_like]: a backslash before every backslash, [%] and [_] *)
Definition _escape_like (s : str) : str :=
  replace underscore [backslash; underscore]
    (replace percent [backslash; percent]
       (replace backslash [backslash; backslash] s)).

(** [lower("name") LIKE lower('%text%')] *)
Definition like_clause (text name : str) : str :=
  lit "lower(" ++ [dquote] ++ name ++ [dquote] ++ lit ") LIKE lower('%" ++ text ++ lit "%')".

Section WithTables.
Context {U : UnicodeTables}.

(** [tn in ("string", "text", "varchar", "char", "nchar", "nvarchar")] *)
Definition string_type_names : list str :=
  [lit "string"; lit "text"; lit "varchar"; lit "char"; lit "nchar"; lit "nvarchar"].

Definition is_string_field (f : Field) : bool :=
  let tn := lower (f_typeName f) in
  existsb (str_eqb tn) string_type_names.

(** The loop over [layer.fields()] that fills [parts]. *)
Definition free_parts (fields : list Field) (free_esc : str) : list str :=
  fold_left
    (fun parts f =>
       if is_string_field f then parts ++ [like_clause free_esc (f_name f)]
       else parts)
    fields [].

(** The block of [run_search] that sets [expr_free]. *)
Definition expr_free (layer : MapLayer) (free : str)
  : flow (list (Event Message)) (option str) :=
  if nonempty free then
    let free_esc := _escape_like free in
    let parts := free_parts (l_fields layer) free_esc in
    if nonempty parts then
      Next (Some (lit "(" ++ join (lit " OR ") parts ++ lit ")"))
    else Return [PushWarning NoStringFields]
  else Next None.

(** The branches on [op_idx] that set [expr_filter], for the quoted field
    name [field_q]. *)
Definition typed_comparison (field_q : str) (op_idx : Z) (filt : str)
  : flow (list (Event Message)) str :=
  if (op_idx =? 0)%Z then
    if _is_number filt then
      Next (lit "(" ++ field_q ++ lit " = " ++ filt ++ lit ")")
    else
      let safe := replace quote [quote; quote] filt in
      Next (lit "(" ++ field_q ++ lit " = '" ++ safe ++ lit "')")
  else if (op_idx =? 1)%Z then
    if negb (_is_number filt) then Return [PushWarning GreaterNeedsNumber]
    else Next (lit "(" ++ field_q ++ lit " > " ++ filt ++ lit ")")
  else if (op_idx =? 2)%Z then
    if negb (_is_number filt) then Return [PushWarning LessNeedsNumber]
    else Next (lit "(" ++ field_q ++ lit " < " ++ filt ++ lit ")")
  else
    let filt_esc := _escape_like filt in
    Next (lit "(lower(" ++ field_q ++ lit ") LIKE lower('%" ++ filt_esc ++ lit "%'))").

(** The block of [run_search] that sets [expr_filter]. *)
Definition expr_filter (use_filter : bool) (filt field : str) (op_idx : Z)
  : flow (list (Event Message)) (option str) :=
  if use_filter && nonempty filt && nonempty field then
    let field_q := [dquote] ++ field ++ [dquote] in
    match typed_comparison field_q op_idx filt with
    | Return r => Return r
    | Next e => Next (Some e)
    end
  else Next None.

(** The block of [run_search] that sets [final_expr]. *)
Definition final_expr (expr_free expr_filter : option str) (logic_and : bool)
  : option str :=
  if truthy expr_free && truthy expr_filter then
    let joiner := if logic_and then lit " AND " else lit " OR " in
    Some (lit "(" ++ format_value expr_free ++ lit ")" ++ joiner
          ++ lit "(" ++ format_value expr_filter ++ lit ")")
  else py_or expr_free expr_filter.

(** The end of [run_search], from [QgsExpression(final_expr)] on.  The
    two returns inside the handler leave before [_save_state]. *)
Definition execute (h : Host) (layer : MapLayer) (expr_text : str)
  : list (Event Message) :=
  match parserError h expr_text with
  | Some detail => [PushCritical (ParserError detail)]
  | None =>
      match getFeatures h layer expr_text with
      | Raises detail =>
          [GetFeatures expr_text; PushCritical (SearchError detail); SaveState]
      | Features ids =>
          if negb (nonempty ids) then
            [GetFeatures expr_text; RemoveSelection (l_id layer);
             FillResultsTable []; PushInfo NoHits]
          else
            [GetFeatures expr_text; SelectByIds ids; ZoomToSelected;
             FillResultsTable ids; PushSuccess (length ids); SaveState]
      end
  end.

(** What [run_search] reads from the widgets. *)
Record SearchInput : Type := {
  in_free : str;           (* edit_free.text() *)
  in_logic : Z;            (* combo_logic.currentIndex() *)
  in_use_filter : bool;    (* chk_use_filter.isChecked() *)
  in_field : str;          (* combo_field.currentText() *)
  in_op : Z;               (* combo_op.currentIndex() *)
  in_filter : str          (* edit_filter.text() *)
}.

(** [run_search], given what [_get_selected_layer()] returns. *)
Definition run_search (h : Host) (selected : option MapLayer) (i : SearchInput)
  : list (Event Message) :=
  match selected with
  | None => [PushWarning NoLayer]
  | Some layer =>
      let free := strip (in_free i) in
      let logic_and := (in_logic i =? 0)%Z in
      let use_filter := in_use_filter i in
      let field := strip (in_field i) in
      let op_idx := in_op i in
      let filt := strip (in_filter i) in
      if negb (nonempty free) && negb (use_filter && nonempty filt) then
        [PushWarning NoCriteria]
      else
        let* e_free := expr_free layer free in
        let* e_filter := expr_filter use_filter filt field op_idx in
        let final := final_expr e_free e_filter logic_and in
        if negb (truthy final) then [PushWarning NoExpression]
        else execute h layer (format_value final)
  end.

End WithTables.

(** *** The file search *)

(** An entry [p] of [base_path.rglob("*")]: [p.name], [str(p)] and
    [p.is_file()]. *)
Record Entry : Type := {
  e_name : str;
  e_path : str;
  e_is_file : bool
}.

(** What the file system answers: [os.path.isdir(base)] and the entries
    of the walk, or the exception that ends it. *)
Inductive Walk : Type :=
| Walked (entries : list Entry)
| WalkError (detail : str).

Record FileSystem : Type := {
  isdir : str -> bool;
  rglob : str -> Walk
}.

(** The messages of the file search:
    - [NeedFolder]: "検索対象フォルダを指定してください（USBメモリも可）"
    - [FolderMissing]: "指定フォルダが存在しません"
    - [NeedKeyword]: "フリーワード（または絞り込み値）を入力してください" *)
Inductive FileMessage : Type := NeedFolder | FolderMissing | NeedKeyword.

(** How [run_file_search] ends: a message and nothing else, the report of
    an error of the walk, or the paths put into [list_files] with the
    count announced. *)
Inductive FileResult : Type :=
| Refused (m : FileMessage)
| Failed (detail : str)
| Listed (shown : list str) (count : nat).

(** [s.rfind(c)]: the index of the last [c], or -1 *)
Fixpoint rfind_from (i found : Z) (c : char) (s : str) : Z :=
  match s with
  | [] => found
  | x :: t => rfind_from (i + 1)%Z (if char_eqb x c then i else found) c t
  end.

Definition rfind (c : char) (s : str) : Z := rfind_from 0%Z (-1)%Z c s.

(** [p.suffix] of pathlib: the name from its last point on, unless the
    point is the first or the last character. *)
Definition suffix (name : str) : str :=
  let i := rfind dot name in
  if ((0 <? i) && (i <? Z.of_nat (length name) - 1))%Z
  then skipn (Z.to_nat i) name
  else [].

(** [s.split(sep)] for a one-character separator *)
Fixpoint split_on (sep : char) (s : str) : list str :=
  match s with
  | [] => [[]]
  | c :: t =>
      if char_eqb c sep then [] :: split_on sep t
      else
        match split_on sep t with
        | p :: ps => (c :: p) :: ps
        | [] => [[c]]
        end
  end.

(** [s in l] for a list of strings *)
Definition str_in (s : str) (l : list str) : bool := existsb (str_eqb s) l.

Definition comma : char := 44%N.

Section FileSearch.
Context {U : UnicodeTables}.

(** [_parse_exts], from the text of [edit_ext] *)
Definition _parse_exts (raw : str) : list str :=
  let parts :=
    map (fun p => lstrip_dots (lower (strip p)))
      (filter (fun p => nonempty (strip p)) (split_on comma raw)) in
  fold_left
    (fun out p => if nonempty p && negb (str_in p out) then out ++ [p] else out)
    parts [].

(** [p.suffix.lower().lstrip(".")] *)
Definition extension (p : Entry) : str := lstrip_dots (lower (suffix (e_name p))).

(** One turn of the loop over the entries: whether [p] is appended to
    [hits]. *)
Definition is_hit (exts tokens : list str) (logic_and : bool) (p : Entry) : bool :=
  if negb (e_is_file p) then false
  else if nonempty exts && negb (str_in (extension p) exts) then false
  else
    let name := e_name p in
    if (length tokens =? 1)%nat then contains (nth 0 tokens []) name
    else if logic_and then forallb (fun t => contains t name) tokens
    else existsb (fun t => contains t name) tokens.

(** The loop: [hits] after all entries. *)
Definition hits (exts tokens : list str) (logic_and : bool) (entries : list Entry)
  : list Entry :=
  fold_left
    (fun found p => if is_hit exts tokens logic_and p then found ++ [p] else found)
    entries [].

(** What [run_file_search] reads from the widgets. *)
Record FileInput : Type := {
  fi_folder : str;         (* edit_folder.text() *)
  fi_free : str;           (* edit_free.text() *)
  fi_use_filter : bool;    (* chk_use_filter.isChecked() *)
  fi_filter : str;         (* edit_filter.text() *)
  fi_logic : Z;            (* combo_logic.currentIndex() *)
  fi_ext : str             (* edit_ext.text() *)
}.

(** [tokens]: the free word, then the refinement text, each when present *)
Definition tokens_of (kw1 kw2 : str) : list str :=
  (if nonempty kw1 then [kw1] else []) ++ (if nonempty kw2 then [kw2] else []).

Definition run_file_search (fs : FileSystem) (i : FileInput) : FileResult :=
  let base := strip (fi_folder i) in
  if negb (nonempty base) then Refused NeedFolder
  else if negb (isdir fs base) then Refused FolderMissing
  else
    let kw1 := strip (fi_free i) in
    let kw2 := if fi_use_filter i then strip (fi_filter i) else [] in
    if negb (nonempty kw1) && negb (nonempty kw2) then Refused NeedKeyword
    else
      let tokens := tokens_of kw1 kw2 in
      let logic_and := (fi_logic i =? 0)%Z in
      let exts := _parse_exts (fi_ext i) in
      match rglob fs base with
      | WalkError detail => Failed detail
      | Walked entries =>
          let found := hits exts tokens logic_and entries in
          Listed (map e_path (firstn 500 found)) (length found)
      end.

End FileSearch.

(** *** The state of the dialog and [clear_all] *)

Inductive ArrowType : Type := RightArrow | DownArrow.

(** The text of [lbl_layer_info]: the line for no layer, or the line
    made of the name, kind, provider and encoding of a layer. *)
Inductive LayerInfo : Type :=
| InfoUnselected
| InfoOf (layer_id : str).

(** [tbl_results]: the header labels, one for each column, and the rows
    of cell texts. *)
Record Table : Type := {
  t_header : list str;
  t_rows : list (list str)
}.

(** [l] cut or filled up with [d] to [n] elements *)
Definition resize {A : Type} (n : nat) (d : A) (l : list A) : list A :=
  firstn n l ++ repeat d (n - length l).

Definition setRowCount (n : nat) (t : Table) : Table :=
  {| t_header := t_header t;
     t_rows := resize n (repeat [] (length (t_header t))) (t_rows t) |}.

Definition setColumnCount (n : nat) (t : Table) : Table :=
  {| t_header := resize n [] (t_header t);
     t_rows := map (resize n []) (t_rows t) |}.

(** The items of [combo_logic] and [combo_op], fixed by [_build_ui]:
    "かつ（AND）", "または（OR）" and "等しい（=）", "より大きい（>）",
    "より小さい（<）", "含む（contains）". *)
Definition logic_items : list str :=
  [[12363; 12388; 65288; 65; 78; 68; 65289]%N;
   [12414; 12383; 12399; 65288; 79; 82; 65289]%N].

Definition op_items : list str :=
  [[31561; 12375; 12356; 65288; 61; 65289]%N;
   [12424; 12426; 22823; 12365; 12356; 65288; 62; 65289]%N;
   [12424; 12426; 23567; 12373; 12356; 65288; 60; 65289]%N;
   [21547; 12416; 65288; 99; 111; 110; 116; 97; 105; 110; 115; 65289]%N].

(** The widgets of the dialog and [_last_layer_id]. *)
Record Dlg : Type := {
  edit_free : str;
  toggle_adv_checked : bool;
  toggle_adv_arrow : ArrowType;
  advanced_group_visible : bool;
  combo_logic : QComboBox;
  chk_use_filter : bool;
  combo_field : QComboBox;
  combo_op : QComboBox;
  edit_filter : str;
  combo_layer : QComboBox;
  lbl_layer_info : LayerInfo;
  tbl_results : Table;
  list_files : list str;
  edit_folder : str;
  edit_ext : str;
  _last_layer_id : option str
}.

(** The ten values [_save_state] writes under [SETTINGS_GROUP]. *)
Record Saved : Type := {
  s_free : str;
  s_adv_expanded : bool;
  s_logic : Z;
  s_use_filter : bool;
  s_field : str;
  s_op : Z;
  s_filter_text : str;
  s_folder : str;
  s_ext : str;
  s_layer_name : str
}.

(** The dialog, the settings store and the calls made to the host. *)
Record World : Type := {
  dlg : Dlg;
  settings : option Saved;
  calls : list (Event Message)
}.

(** Assignments to single widgets. *)
Definition put_edit_free (v : str) (d : Dlg) : Dlg :=
  Build_Dlg v (toggle_adv_checked d) (toggle_adv_arrow d) (advanced_group_visible d)
    (combo_logic d) (chk_use_filter d) (combo_field d) (combo_op d) (edit_filter d)
    (combo_layer d) (lbl_layer_info d) (tbl_results d) (list_files d)
    (edit_folder d) (edit_ext d) (_last_layer_id d).

Definition put_advanced (checked : bool) (arrow : ArrowType) (visible : bool)
    (d : Dlg) : Dlg :=
  Build_Dlg (edit_free d) checked arrow visible
    (combo_logic d) (chk_use_filter d) (combo_field d) (combo_op d) (edit_filter d)
    (combo_layer d) (lbl_layer_info d) (tbl_results d) (list_files d)
    (edit_folder d) (edit_ext d) (_last_layer_id d).

Definition put_combo_logic (v : QComboBox) (d : Dlg) : Dlg :=
  Build_Dlg (edit_free d) (toggle_adv_checked d) (toggle_adv_arrow d)
    (advanced_group_visible d)
    v (chk_use_filter d) (combo_field d) (combo_op d) (edit_filter d)
    (combo_layer d) (lbl_layer_info d) (tbl_results d) (list_files d)
    (edit_folder d) (edit_ext d) (_last_layer_id d).

Definition put_chk_use_filter (v : bool) (d : Dlg) : Dlg :=
  Build_Dlg (edit_free d) (toggle_adv_checked d) (toggle_adv_arrow d)
    (advanced_group_visible d)
    (combo_logic d) v (combo_field d) (combo_op d) (edit_filter d)
    (combo_layer d) (lbl_layer_info d) (tbl_results d) (list_files d)
    (edit_folder d) (edit_ext d) (_last_layer_id d).

Definition put_combo_field (v : QComboBox) (d : Dlg) : Dlg :=
  Build_Dlg (edit_free d) (toggle_adv_checked d) (toggle_adv_arrow d)
    (advanced_group_visible d)
    (combo_logic d) (chk_use_filter d) v (combo_op d) (edit_filter d)
    (combo_layer d) (lbl_layer_info d) (tbl_results d) (list_files d)
    (edit_folder d) (edit_ext d) (_last_layer_id d).

Definition put_combo_op (v : QComboBox) (d : Dlg) : Dlg :=
  Build_Dlg (edit_free d) (toggle_adv_checked d) (toggle_adv_arrow d)
    (advanced_group_visible d)
    (combo_logic d) (chk_use_filter d) (combo_field d) v (edit_filter d)
    (combo_layer d) (lbl_layer_info d) (tbl_results d) (list_files d)
    (edit_folder d) (edit_ext d) (_last_layer_id d).

Definition put_edit_filter (v : str) (d : Dlg) : Dlg :=
  Build_Dlg (edit_free d) (toggle_adv_checked d) (toggle_adv_arrow d)
    (advanced_group_visible d)
    (combo_logic d) (chk_use_filter d) (combo_field d) (combo_op d) v
    (combo_layer d) (lbl_layer_info d) (tbl_results d) (list_files d)
    (edit_folder d) (edit_ext d) (_last_layer_id d).

Definition put_combo_layer (v : QComboBox) (d : Dlg) : Dlg :=
  Build_Dlg (edit_free d) (toggle_adv_checked d) (toggle_adv_arrow d)
    (advanced_group_visible d)
    (combo_logic d) (chk_use_filter d) (combo_field d) (combo_op d) (edit_filter d)
    v (lbl_layer_info d) (tbl_results d) (list_files d)
    (edit_folder d) (edit_ext d) (_last_layer_id d).

Definition put_lbl_layer_info (v : LayerInfo) (d : Dlg) : Dlg :=
  Build_Dlg (edit_free d) (toggle_adv_checked d) (toggle_adv_arrow d)
    (advanced_group_visible d)
    (combo_logic d) (chk_use_filter d) (combo_field d) (combo_op d) (edit_filter d)
    (combo_layer d) v (tbl_results d) (list_files d)
    (edit_folder d) (edit_ext d) (_last_layer_id d).

Definition put_tbl_results (v : Table) (d : Dlg) : Dlg :=
  Build_Dlg (edit_free d) (toggle_adv_checked d) (toggle_adv_arrow d)
    (advanced_group_visible d)
    (combo_logic d) (chk_use_filter d) (combo_field d) (combo_op d) (edit_filter d)
    (combo_layer d) (lbl_layer_info d) v (list_files d)
    (edit_folder d) (edit_ext d) (_last_layer_id d).

Definition put_list_files (v : list str) (d : Dlg) : Dlg :=
  Build_Dlg (edit_free d) (toggle_adv_checked d) (toggle_adv_arrow d)
    (advanced_group_visible d)
    (combo_logic d) (chk_use_filter d) (combo_field d) (combo_op d) (edit_filter d)
    (combo_layer d) (lbl_layer_info d) (tbl_results d) v
    (edit_folder d) (edit_ext d) (_last_layer_id d).

Definition put_last_layer_id (v : option str) (d : Dlg) : Dlg :=
  Build_Dlg (edit_free d) (toggle_adv_checked d) (toggle_adv_arrow d)
    (advanced_group_visible d)
    (combo_logic d) (chk_use_filter d) (combo_field d) (combo_op d) (edit_filter d)
    (combo_layer d) (lbl_layer_info d) (tbl_results d) (list_files d)
    (edit_folder d) (edit_ext d) v.

(** A step on the widgets, and a call to the host, inside the world. *)
Definition on_dlg (f : Dlg -> Dlg) (w : World) : World :=
  {| dlg := f (dlg w); settings := settings w; calls := calls w |}.

Definition call (e : Event Message) (w : World) : World :=
  {| dlg := dlg w; settings := settings w; calls := calls w ++ [e] |}.

Definition snapshot (d : Dlg) : Saved :=
  {| s_free := edit_free d;
     s_adv_expanded := toggle_adv_checked d;
     s_logic := currentIndex (combo_logic d);
     s_use_filter := chk_use_filter d;
     s_field := currentText (combo_field d);
     s_op := currentIndex (combo_op d);
     s_filter_text := edit_filter d;
     s_folder := edit_folder d;
     s_ext := edit_ext d;
     s_layer_name := currentText (combo_layer d) |}.

Definition _save_state (w : World) : World :=
  {| dlg := dlg w; settings := Some (snapshot (dlg w)); calls := calls w |}.

(** A signal connected to [_save_state] fires when the value changed. *)
Definition signal (changed : bool) (w : World) : World :=
  if changed then _save_state w else w.

(** [edit_free.clear()], with [textChanged] *)
Definition clear_edit_free (w : World) : World :=
  signal (nonempty (edit_free (dlg w))) (on_dlg (put_edit_free []) w).

(** [edit_filter.clear()], with [textChanged] *)
Definition clear_edit_filter (w : World) : World :=
  signal (nonempty (edit_filter (dlg w))) (on_dlg (put_edit_filter []) w).

(** [combo_logic.setCurrentIndex(i)], with [currentIndexChanged] *)
Definition set_combo_logic (i : Z) (w : World) : World :=
  let after := setCurrentIndex i (combo_logic (dlg w)) in
  signal (negb (currentIndex after =? currentIndex (combo_logic (dlg w)))%Z)
    (on_dlg (put_combo_logic after) w).

(** [combo_op.setCurrentIndex(i)], with [currentIndexChanged] *)
Definition set_combo_op (i : Z) (w : World) : World :=
  let after := setCurrentIndex i (combo_op (dlg w)) in
  signal (negb (currentIndex after =? currentIndex (combo_op (dlg w)))%Z)
    (on_dlg (put_combo_op after) w).

(** [chk_use_filter.setChecked(b)], with [stateChanged] *)
Definition set_chk_use_filter (b : bool) (w : World) : World :=
  signal (negb (Bool.eqb b (chk_use_filter (dlg w))))
    (on_dlg (put_chk_use_filter b) w).

(** [combo_field.clear()] with its signal open *)
Definition clear_combo_field (w : World) : World :=
  signal (negb (currentIndex (combo_field (dlg w)) =? -1)%Z)
    (on_dlg (put_combo_field (combo_clear (combo_field (dlg w)))) w).

Definition _set_advanced_collapsed (collapsed : bool) (w : World) : World :=
  on_dlg
    (put_advanced (negb collapsed)
       (if collapsed then RightArrow else DownArrow) (negb collapsed))
    w.

(** [_get_selected_layer], over the layers of the project *)
Definition _get_selected_layer (project : list MapLayer) (d : Dlg)
  : option MapLayer :=
  let name := strip (currentText (combo_layer d)) in
  if negb (nonempty name) then None
  else find (fun lyr => is_vector lyr && str_eqb (l_name lyr) name) project.

(** [_get_layer_by_id] *)
Definition _get_layer_by_id (project : list MapLayer) (layer_id : option str)
  : option MapLayer :=
  if negb (truthy layer_id) then None
  else
    match find (fun lyr => str_eqb (l_id lyr) (format_value layer_id)) project with
    | Some lyr => if is_vector lyr then Some lyr else None
    | None => None
    end.

(** The field box filled again for [layer], its signals blocked: the
    field chosen before is chosen again when it is still there. *)
Definition refill_fields (layer : MapLayer) (cb : QComboBox) : QComboBox :=
  let keep := currentText cb in
  let filled :=
    fold_left (fun box f => addItem (f_name f) box) (l_fields layer)
      (combo_clear cb) in
  if nonempty keep then
    let idx := findText keep filled in
    if (0 <=? idx)%Z then setCurrentIndex idx filled else filled
  else filled.

Definition on_layer_changed (project : list MapLayer) (w : World) : World :=
  match _get_selected_layer project (dlg w) with
  | Some layer =>
      let w := on_dlg (put_last_layer_id (Some (l_id layer))) w in
      let w := on_dlg (put_combo_field (refill_fields layer (combo_field (dlg w)))) w in
      let w := on_dlg (put_lbl_layer_info (InfoOf (l_id layer))) w in
      _save_state w
  | None =>
      let w := clear_combo_field w in
      let w := on_dlg (put_lbl_layer_info InfoUnselected) w in
      _save_state w
  end.

(** [_clear_qgis_active_layer]: both calls are tried, a failure of either
    is passed over. *)
Definition _clear_qgis_active_layer (w : World) : World :=
  call SetActiveLayerNone (call ClearTreeCurrentIndex w).

Definition unselect_layer (project : list MapLayer) (w : World) : World :=
  let w :=
    match _get_layer_by_id project (_last_layer_id (dlg w)) with
    | Some prev => call (RemoveSelection (l_id prev)) w
    | None => w
    end in
  let w :=
    on_dlg (fun d => put_combo_layer (setCurrentIndex 0 (combo_layer d)) d) w in
  let w := on_layer_changed project w in
  _clear_qgis_active_layer w.

Definition clear_all (project : list MapLayer) (w : World) : World :=
  let w := clear_edit_free w in
  let w := _set_advanced_collapsed true w in
  let w := set_combo_logic 0 w in
  let w := set_chk_use_filter false w in
  let w := set_combo_op 0 w in
  let w := clear_edit_filter w in
  let w := unselect_layer project w in
  let w := on_dlg (fun d => put_tbl_results (setRowCount 0 (tbl_results d)) d) w in
  let w := on_dlg (fun d => put_tbl_results (setColumnCount 0 (tbl_results d)) d) w in
  let w := on_dlg (put_list_files []) w in
  let w := _save_state w in
  call (PushInfo Cleared) w.

(** [refresh_layers]: the layer box is emptied and filled with a blank
    entry and the names of the vector layers, sorted by their lower-case
    names; the layer chosen before is chosen again when it is still
    there. *)
Fixpoint str_ltb (a b : str) : bool :=
  match a, b with
  | _, [] => false
  | [], _ :: _ => true
  | x :: a', y :: b' => (x <? y)%N || (char_eqb x y && str_ltb a' b')
  end.

Section Layers.
Context {U : UnicodeTables}.

(** One step of a stable sort by [x.name().lower()]. *)
Fixpoint insert_by_name (x : MapLayer) (sorted : list MapLayer) : list MapLayer :=
  match sorted with
  | [] => [x]
  | y :: rest =>
      if str_ltb (lower (l_name x)) (lower (l_name y)) then x :: sorted
      else y :: insert_by_name x rest
  end.

Definition sort_by_name (layers : list MapLayer) : list MapLayer :=
  fold_left (fun sorted x => insert_by_name x sorted) layers [].

Definition refresh_layers (project : list MapLayer) (w : World) : World :=
  let current := currentText (combo_layer (dlg w)) in
  let layers := sort_by_name (filter is_vector project) in
  let box :=
    fold_left (fun box lyr => addItem (l_name lyr) box) layers
      (addItem [] (combo_clear (combo_layer (dlg w)))) in
  let box :=
    if nonempty current then
      let idx := findText current box in
      if (0 <=? idx)%Z then setCurrentIndex idx box else box
    else box in
  on_layer_changed project (on_dlg (put_combo_layer box) w).

End Layers.

(** What [run_search] and [run_file_search] read from the widgets. *)
Definition search_input_of (d : Dlg) : SearchInput :=
  {| in_free := edit_free d;
     in_logic := currentIndex (combo_logic d);
     in_use_filter := chk_use_filter d;
     in_field := currentText (combo_field d);
     in_op := currentIndex (combo_op d);
     in_filter := edit_filter d |}.

Definition file_input_of (d : Dlg) : FileInput :=
  {| fi_folder := edit_folder d;
     fi_free := edit_free d;
     fi_use_filter := chk_use_filter d;
     fi_filter := edit_filter d;
     fi_logic := currentIndex (combo_logic d);
     fi_ext := edit_ext d |}.

(** The widgets [clear_all] leaves, written out field by field. *)
Definition cleared (d : Dlg) : Dlg :=
  {| edit_free := [];
     toggle_adv_checked := false;
     toggle_adv_arrow := RightArrow;
     advanced_group_visible := false;
     combo_logic := setCurrentIndex 0 (combo_logic d);
     chk_use_filter := false;
     combo_field := combo_clear (combo_field d);
     combo_op := setCurrentIndex 0 (combo_op d);
     edit_filter := [];
     combo_layer := setCurrentIndex 0 (combo_layer d);
     lbl_layer_info := InfoUnselected;
     tbl_results := setColumnCount 0 (setRowCount 0 (tbl_results d));
     list_files := [];
     edit_folder := edit_folder d;
     edit_ext := edit_ext d;
     _last_layer_id := _last_layer_id d |}.

(** The widgets after [clear_all]. *)
Definition after_clear_all (project : list MapLayer) (w : World) : Dlg :=
  dlg (clear_all project w).

(** The layer box as [refresh_layers] fills it: the blank entry first. *)
Definition layer_box_filled (d : Dlg) : Prop :=
  exists names, items (combo_layer d) = [] :: names.

(** The boxes of [_build_ui] whose items never change. *)
Definition fixed_boxes (d : Dlg) : Prop :=
  items (combo_logic d) = logic_items /\ items (combo_op d) = op_items.

(** The widgets as [_build_ui] leaves them. *)
Definition built_dlg : Dlg :=
  {| edit_free := [];
     toggle_adv_checked := false;
     toggle_adv_arrow := RightArrow;
     advanced_group_visible := true;
     combo_logic := {| items := logic_items; currentIndex := 0 |};
     chk_use_filter := false;
     combo_field := {| items := []; currentIndex := -1 |};
     combo_op := {| items := op_items; currentIndex := 0 |};
     edit_filter := [];
     combo_layer := {| items := []; currentIndex := -1 |};
     lbl_layer_info := InfoUnselected;
     tbl_results := {| t_header := []; t_rows := [] |};
     list_files := [];
     edit_folder := [];
     edit_ext := lit "pdf, png, jpg, jpeg, tif, tiff, xlsx, xls, docx, doc, pptx, ppt";
     _last_layer_id := None |}.

(** A string occurs in another as a run of its characters, as they are. *)
Definition occurs_in (t s : str) : Prop := exists pre post, s = pre ++ t ++ post.

(** *** The settings: [_restore_state], [_toggle_advanced] and the start
    of the dialog *)

Definition put_edit_folder (v : str) (d : Dlg) : Dlg :=
  Build_Dlg (edit_free d) (toggle_adv_checked d) (toggle_adv_arrow d)
    (advanced_group_visible d)
    (combo_logic d) (chk_use_filter d) (combo_field d) (combo_op d) (edit_filter d)
    (combo_layer d) (lbl_layer_info d) (tbl_results d) (list_files d)
    v (edit_ext d) (_last_layer_id d).

Definition put_edit_ext (v : str) (d : Dlg) : Dlg :=
  Build_Dlg (edit_free d) (toggle_adv_checked d) (toggle_adv_arrow d)
    (advanced_group_visible d)
    (combo_logic d) (chk_use_filter d) (combo_field d) (combo_op d) (edit_filter d)
    (combo_layer d) (lbl_layer_info d) (tbl_results d) (list_files d)
    (edit_folder d) v (_last_layer_id d).

(** [s.value(key, default)]: the value [_save_state] wrote last, or the
    default while the group was never written.  Every [QSettings()] of
    the process reads and writes the one store. *)
Definition stored {A : Type} (key : Saved -> A) (default : A) (w : World) : A :=
  match settings w with
  | Some s => key s
  | None => default
  end.

(** [setText] on the four line edits, each with [textChanged] connected
    to [_save_state]. *)
Definition set_edit_free (v : str) (w : World) : World :=
  signal (negb (str_eqb (edit_free (dlg w)) v)) (on_dlg (put_edit_free v) w).

Definition set_edit_filter (v : str) (w : World) : World :=
  signal (negb (str_eqb (edit_filter (dlg w)) v)) (on_dlg (put_edit_filter v) w).

Definition set_edit_folder (v : str) (w : World) : World :=
  signal (negb (str_eqb (edit_folder (dlg w)) v)) (on_dlg (put_edit_folder v) w).

Definition set_edit_ext (v : str) (w : World) : World :=
  signal (negb (str_eqb (edit_ext (dlg w)) v)) (on_dlg (put_edit_ext v) w).

(** [combo_field.setCurrentIndex(i)], with [currentIndexChanged]
    connected to [_save_state] *)
Definition set_combo_field (i : Z) (w : World) : World :=
  let after := setCurrentIndex i (combo_field (dlg w)) in
  signal (negb (currentIndex after =? currentIndex (combo_field (dlg w)))%Z)
    (on_dlg (put_combo_field after) w).

(** [combo_layer.setCurrentIndex(i)], with [currentIndexChanged]
    connected to [on_layer_changed] *)
Definition set_combo_layer (project : list MapLayer) (i : Z) (w : World) : World :=
  let after := setCurrentIndex i (combo_layer (dlg w)) in
  let changed := negb (currentIndex after =? currentIndex (combo_layer (dlg w)))%Z in
  let w := on_dlg (put_combo_layer after) w in
  if changed then on_layer_changed project w else w.

Definition _restore_state (project : list MapLayer) (w : World) : World :=
  let w := set_edit_free (stored s_free [] w) w in
  let adv_expanded := stored s_adv_expanded false w in
  let w := _set_advanced_collapsed (negb adv_expanded) w in
  let w := set_combo_logic (stored s_logic 0%Z w) w in
  let w := set_chk_use_filter (stored s_use_filter false w) w in
  let w := set_combo_op (stored s_op 0%Z w) w in
  let w := set_edit_filter (stored s_filter_text [] w) w in
  let w := set_edit_folder (stored s_folder [] w) w in
  let w := set_edit_ext (stored s_ext (edit_ext (dlg w)) w) w in
  let layer_name := stored s_layer_name [] w in
  let w :=
    if nonempty layer_name then
      let idx := findText layer_name (combo_layer (dlg w)) in
      if (0 <=? idx)%Z then set_combo_layer project idx w else w
    else w in
  let field_name := stored s_field [] w in
  if nonempty field_name then
    let idxf := findText field_name (combo_field (dlg w)) in
    if (0 <=? idxf)%Z then set_combo_field idxf w else w
  else w.

(** [_toggle_advanced], called when the button was clicked: the click
    has flipped [toggle_adv.isChecked()] before. *)
Definition _toggle_advanced (w : World) : World :=
  let expanded := toggle_adv_checked (dlg w) in
  _save_state (_set_advanced_collapsed (negb expanded) w).

Definition click_toggle_adv (w : World) : World :=
  _toggle_advanced
    (on_dlg
       (fun d =>
          put_advanced (negb (toggle_adv_checked d)) (toggle_adv_arrow d)
            (advanced_group_visible d) d)
       w).

Section Startup.
Context {U : UnicodeTables}.

(** [__init__], up to its last statement: the widgets are built, the
    signals connected, then [refresh_layers], [_restore_state], the
    advanced part collapsed and the refinement unchecked.  [store] is
    what the settings hold when the dialog is created. *)
Definition __init__ (project : list MapLayer) (store : option Saved) : World :=
  let w := {| dlg := built_dlg; settings := store; calls := [] |} in
  let w := refresh_layers project w in
  let w := _restore_state project w in
  let w := _set_advanced_collapsed true w in
  set_chk_use_filter false w.

(** The names [refresh_layers] puts into the layer box after the blank
    entry. *)
Definition vector_layer_names (project : list MapLayer) : list str :=
  map l_name (sort_by_name (filter is_vector project)).

End Startup.

(** The settings as [_save_state] writes them from the widgets of
    [_build_ui]. *)
Definition built_settings : Saved :=
  {| s_free := [];
     s_adv_expanded := false;
     s_logic := 0%Z;
     s_use_filter := false;
     s_field := [];
     s_op := 0%Z;
     s_filter_text := [];
     s_folder := [];
     s_ext := edit_ext built_dlg;
     s_layer_name := [] |}.

(** The state of the three widgets of the advanced part agrees: the
    group is visible and the arrow points down exactly when the button is
    checked. *)
Definition advanced_consistent (d : Dlg) : Prop :=
  advanced_group_visible d = toggle_adv_checked d /\
  toggle_adv_arrow d = (if toggle_adv_checked d then DownArrow else RightArrow).

(** The current index of a box is one of its items, or -1. *)
Definition index_in_range (cb : QComboBox) : Prop :=
  (-1 <= currentIndex cb < Z.of_nat (length (items cb)))%Z.

(** The current item of a box is the first with its text (so with items
    that differ from each other), unless its text is empty. *)
Definition current_is_first (cb : QComboBox) : Prop :=
  currentText cb = [] \/ findText (currentText cb) cb = currentIndex cb.

(** What [_restore_state] relies on to find the saved choices again. *)
Definition restorable (d : Dlg) : Prop :=
  index_in_range (combo_logic d) /\ index_in_range (combo_op d) /\
  current_is_first (combo_layer d) /\ current_is_first (combo_field d).

(** [_set_advanced_collapsed] called with the state the button has. *)
Definition advanced_as_checked (d : Dlg) : Dlg :=
  put_advanced (toggle_adv_checked d)
    (if toggle_adv_checked d then DownArrow else RightArrow)
    (toggle_adv_checked d) d.

(** The widgets of a dialog just opened: those of [_build_ui], the layer
    box filled with the blank entry and [names], the advanced part
    hidden. *)
Definition opened_dlg (names : list str) : Dlg :=
  put_advanced false RightArrow false
    (put_combo_layer {| items := [] :: names; currentIndex := 0 |} built_dlg).

(** *** Reading what [_escape_like] wrote *)

(** One character as [_escape_like] leaves it. *)
Definition escape_char (c : char) : str :=
  if char_eqb c backslash || char_eqb c percent || char_eqb c underscore
  then [backslash; c] else [c].

(** A pattern read with the backslash as its escape: the character after
    a backslash stands for itself. *)
Fixpoint unescape (s : str) : str :=
  match s with
  | [] => []
  | c :: t =>
      if char_eqb c backslash then
        match t with
        | [] => [c]
        | x :: t' => x :: unescape t'
        end
      else c :: unescape t
  end.

(** The wildcards of a pattern: the [%] and [_] that no backslash
    escapes. *)
Fixpoint bare_wildcards (s : str) : nat :=
  match s with
  | [] => 0
  | c :: t =>
      if char_eqb c backslash then
        match t with
        | [] => 0
        | _ :: t' => bare_wildcards t'
        end
      else
        ((if char_eqb c percent || char_eqb c underscore then 1 else 0)
         + bare_wildcards t)%nat
  end.

(** The names in which pathlib sees no suffix: no point at all, a single
    point that comes first, or a point at the end. *)
Definition without_suffix (name : str) : Prop :=
  ~ In dot name \/
  (exists rest, name = dot :: rest /\ ~ In dot rest) \/
  (exists stem, name = stem ++ [dot]).

(** The order of the layer box: [y] does not come before [x] by the
    lower-case names. *)
Definition name_le {U : UnicodeTables} (x y : MapLayer) : Prop :=
  str_ltb (lower (l_name y)) (lower (l_name x)) = false.

(** *** The dialog in use *)

(** [pick_folder], given what [getExistingDirectory] returns: the empty
    string when the user cancels. *)
Definition pick_folder (folder : str) (w : World) : World :=
  if nonempty folder then _save_state (set_edit_folder folder w) else w.

(** What happens to an open dialog: the user types into a line edit,
    picks an entry of a box, checks the refinement, clicks the toggle,
    "clear", "unselect layer", picks a folder or searches files, or the
    layers of the project change. *)
Inductive Action : Type :=
| TypeFree (v : str)
| TypeFilter (v : str)
| TypeFolder (v : str)
| TypeExt (v : str)
| PickLogic (i : Z)
| PickOp (i : Z)
| PickField (i : Z)
| PickLayer (i : Z)
| CheckUseFilter (b : bool)
| ClickToggle
| ClickClear
| ClickUnselect
| PickFolder (folder : str)
| FileSearch (fs : FileSystem)
| LayersChanged (project : list MapLayer).

Section Handlers.
Context {U : UnicodeTables}.

(** [run_file_search] on the dialog: a search that is refused leaves the
    file list, [list_files.clear()] comes before the walk, and only a
    search that lists its hits saves the settings. *)
Definition file_search (fs : FileSystem) (w : World) : World :=
  match run_file_search fs (file_input_of (dlg w)) with
  | Refused _ => w
  | Failed _ => on_dlg (put_list_files []) w
  | Listed shown _ => _save_state (on_dlg (put_list_files shown) w)
  end.

(** The slot each action reaches, on the layers of the project and the
    dialog. *)
Definition handle (st : list MapLayer * World) (a : Action) : list MapLayer * World :=
  let (project, w) := st in
  match a with
  | TypeFree v => (project, set_edit_free v w)
  | TypeFilter v => (project, set_edit_filter v w)
  | TypeFolder v => (project, set_edit_folder v w)
  | TypeExt v => (project, set_edit_ext v w)
  | PickLogic i => (project, set_combo_logic i w)
  | PickOp i => (project, set_combo_op i w)
  | PickField i => (project, set_combo_field i w)
  | PickLayer i => (project, set_combo_layer project i w)
  | CheckUseFilter b => (project, set_chk_use_filter b w)
  | ClickToggle => (project, click_toggle_adv w)
  | ClickClear => (project, clear_all project w)
  | ClickUnselect => (project, unselect_layer project w)
  | PickFolder folder => (project, pick_folder folder w)
  | FileSearch fs => (project, file_search fs w)
  | LayersChanged project' => (project', refresh_layers project' w)
  end.

(** The dialog created on [project] and used through [actions]. *)
Definition used (project : list MapLayer) (store : option Saved)
    (actions : list Action) : list MapLayer * World :=
  fold_left handle actions (project, __init__ project store).

End Handlers.

(** The part of the widgets [steady] speaks of: the items of the three
    boxes and the advanced part. *)
Definition frame_of (d : Dlg)
  : list str * list str * list str * (bool * ArrowType * bool) :=
  (items (combo_layer d), items (combo_logic d), items (combo_op d),
   (toggle_adv_checked d, toggle_adv_arrow d, advanced_group_visible d)).

(** What stays true of an open dialog. *)
Definition steady (w : World) : Prop :=
  layer_box_filled (dlg w) /\ fixed_boxes (dlg w) /\
  advanced_consistent (dlg w) /\
  settings w = Some (snapshot (dlg w)).

End Toolbar.

(** ** Sample data *)

Definition field_addr : Field :=
  {| f_name := lit "addr"; f_type := QV_String; f_typeName := lit "String" |}.

Definition field_id : Field :=
  {| f_name := lit "id"; f_type := QV_Int; f_typeName := lit "Integer" |}.

Definition layer_addr_id : MapLayer :=
  {| l_id := lit "L1"; l_name := lit "town"; l_type := Some VectorLayer;
     l_fields := [field_addr; field_id] |}.

Definition layer_id_only : MapLayer :=
  {| l_id := lit "L2"; l_name := lit "codes"; l_type := Some VectorLayer;
     l_fields := [field_id] |}.

(** A host whose parser accepts every expression and whose layers hold
    no feature. *)
Definition quiet_host : Host :=
  {| parserError := fun _ => None; getFeatures := fun _ _ => Features [] |}.

(** The first dialog with the refinement "A" switched on and no free
    word. *)
Definition refine_only_A : Dialog.Widgets :=
  {| Dialog.freeword_edit := [];
     Dialog.refine_enable := true;
     Dialog.refine_edit := lit "A";
     Dialog.match_combo := Dialog.match_combo Dialog.built_widgets;
     Dialog.join_combo := Dialog.join_combo Dialog.built_widgets |}.

(** The toolbar with a refinement on the field "id" and no free word. *)
Definition refine_id (op : Z) (text : str) : Toolbar.SearchInput :=
  {| Toolbar.in_free := [];
     Toolbar.in_logic := 0;
     Toolbar.in_use_filter := true;
     Toolbar.in_field := lit "id";
     Toolbar.in_op := op;
     Toolbar.in_filter := text |}.

(** The toolbar with a refinement text but no field chosen, and no free
    word. *)
Definition refine_no_field (text : str) : Toolbar.SearchInput :=
  {| Toolbar.in_free := [];
     Toolbar.in_logic := 0;
     Toolbar.in_use_filter := true;
     Toolbar.in_field := [];
     Toolbar.in_op := 0;
     Toolbar.in_filter := text |}.

(** The folder of scenario E: parklist.pdf, park.txt and central.pdf. *)
Definition file_entry (name : string) : Toolbar.Entry :=
  {| Toolbar.e_name := lit name;
     Toolbar.e_path := lit "/data/" ++ lit name;
     Toolbar.e_is_file := true |}.

Definition park_folder : list Toolbar.Entry :=
  [file_entry "parklist.pdf"; file_entry "park.txt"; file_entry "central.pdf"].

(** The toolbar dialog in the middle of work: a layer chosen, both
    conditions filled in, results of both searches on display. *)
Definition busy_dlg : Toolbar.Dlg :=
  {| Toolbar.edit_free := lit "central";
     Toolbar.toggle_adv_checked := true;
     Toolbar.toggle_adv_arrow := Toolbar.DownArrow;
     Toolbar.advanced_group_visible := true;
     Toolbar.combo_logic := {| items := Toolbar.logic_items; currentIndex := 1 |};
     Toolbar.chk_use_filter := true;
     Toolbar.combo_field := {| items := [lit "addr"; lit "id"]; currentIndex := 1 |};
     Toolbar.combo_op := {| items := Toolbar.op_items; currentIndex := 3 |};
     Toolbar.edit_filter := lit "12";
     Toolbar.combo_layer := {| items := [[]; lit "town"]; currentIndex := 1 |};
     Toolbar.lbl_layer_info := Toolbar.InfoOf (lit "L1");
     Toolbar.tbl_results :=
       {| Toolbar.t_header := [lit "FID"; lit "addr"; lit "id"];
          Toolbar.t_rows := [[lit "7"; lit "central park"; lit "12"]] |};
     Toolbar.list_files := [lit "/data/parklist.pdf"];
     Toolbar.edit_folder := lit "/data";
     Toolbar.edit_ext := lit "pdf, png";
     Toolbar._last_layer_id := Some (lit "L1") |}.

Definition busy_world : Toolbar.World :=
  {| Toolbar.dlg := busy_dlg; Toolbar.settings := None; Toolbar.calls := [] |}.

(** A file system with the folder /data, holding the folder of scenario
    E. *)
Definition park_fs : Toolbar.FileSystem :=
  {| Toolbar.isdir := fun p => str_eqb p (lit "/data");
     Toolbar.rglob := fun _ => Toolbar.Walked park_folder |}.

Definition park_search : Toolbar.FileInput :=
  {| Toolbar.fi_folder := lit "/data";
     Toolbar.fi_free := lit "park";
     Toolbar.fi_use_filter := false;
     Toolbar.fi_filter := [];
     Toolbar.fi_logic := 0;
     Toolbar.fi_ext := lit "pdf" |}.



(** ["addr"], the quoted field name *)
Definition addr_q : str := [dquote] ++ lit "addr" ++ [dquote].

(* ================================================================== *)
(** * Part II: properties                                               *)
(* ================================================================== *)

(** ** The matcher decides the language of a pattern *)





(** ** The language of the number pattern *)






Section NumberFacts.
Context {U : UnicodeTables}.






End NumberFacts.

(** ** Strings: replacing, counting, reading a quoted literal back *)

Lemma char_eqb_eq (a b : char) : char_eqb a b = true <-> a = b.
Proof. apply N.eqb_eq. Qed.

Lemma char_eqb_refl (a : char) : char_eqb a a = true.
Proof. apply N.eqb_refl. Qed.

Lemma str_eqb_eq (a b : str) : str_eqb a b = true <-> a = b.
Proof.
  revert b. induction a as [|x a IH]; intros [|y b]; simpl; split;
    try discriminate; auto.
  - intro H. apply andb_true_iff in H as [H1 H2].
    apply char_eqb_eq in H1. apply IH in H2. congruence.
  - intro H. inversion H; subst. rewrite char_eqb_refl. apply IH. reflexivity.
Qed.

Lemma str_eqb_refl (a : str) : str_eqb a a = true.
Proof. apply str_eqb_eq. reflexivity. Qed.

Lemma nonempty_true {A : Type} (l : list A) : nonempty l = true <-> l <> [].
Proof. destruct l; simpl; split; congruence. Qed.

Lemma truthy_Some (a : str) : a <> [] -> truthy (Some a) = true.
Proof. destruct a; simpl; congruence. Qed.

Lemma replace_absent (old : char) (new s : str) :
  ~ In old s -> replace old new s = s.
Proof.
  unfold replace. induction s as [|c s IH]; simpl; intro H; auto.
  destruct (char_eqb c old) eqn:E.
  - apply char_eqb_eq in E. tauto.
  - simpl. rewrite IH; tauto.
Qed.

Lemma occurrences_app (c : char) (s t : str) :
  occurrences c (s ++ t) = occurrences c s + occurrences c t.
Proof. unfold occurrences. rewrite filter_app, length_app. reflexivity. Qed.

Lemma char_eqb_sym (a b : char) : char_eqb a b = char_eqb b a.
Proof. apply N.eqb_sym. Qed.

Lemma occurrences_cons (c x : char) (s : str) :
  occurrences c (x :: s) = (if char_eqb c x then 1 else 0) + occurrences c s.
Proof. unfold occurrences. cbn [filter]. destruct (char_eqb c x); reflexivity. Qed.

(** Doubling: every quote of [s] is two quotes of the result, and nothing
    else changes. *)
Lemma doubling_counts (s : str) :
  occurrences quote (replace quote [quote; quote] s) = 2 * occurrences quote s.
Proof.
  induction s as [|c s IH]; auto.
  change (replace quote [quote; quote] (c :: s))
    with ((if char_eqb c quote then [quote; quote] else [c])
          ++ replace quote [quote; quote] s).
  rewrite occurrences_app, occurrences_cons, IH, (char_eqb_sym quote c).
  destruct (char_eqb c quote) eqn:E.
  - apply char_eqb_eq in E. subst c. rewrite !occurrences_cons, char_eqb_refl.
    unfold occurrences at 1. cbn. lia.
  - rewrite occurrences_cons, (char_eqb_sym quote c), E.
    unfold occurrences at 1. cbn. lia.
Qed.

Lemma doubling_others (s : str) :
  filter (fun c => negb (char_eqb c quote)) (replace quote [quote; quote] s)
  = filter (fun c => negb (char_eqb c quote)) s.
Proof.
  induction s as [|c s IH]; auto.
  change (replace quote [quote; quote] (c :: s))
    with ((if char_eqb c quote then [quote; quote] else [c])
          ++ replace quote [quote; quote] s).
  rewrite filter_app, IH. cbn [filter].
  destruct (char_eqb c quote) eqn:E; cbn [filter].
  - rewrite char_eqb_refl. reflexivity.
  - rewrite E. reflexivity.
Qed.

(** Reading the doubled text back gives the text, whatever follows the
    closing quote, as long as it is no further quote. *)
Lemma read_literal_doubled (s rest : str) :
  startswith [quote] rest = false ->
  read_literal (replace quote [quote; quote] s ++ quote :: rest) = Some (s, rest).
Proof.
  intro Hrest. induction s as [|c s IH].
  - cbn [replace flat_map app read_literal]. rewrite char_eqb_refl.
    destruct rest as [|r rest']; auto.
    cbn [startswith] in Hrest. rewrite andb_true_r in Hrest.
    rewrite (char_eqb_sym r quote), Hrest. reflexivity.
  - change (replace quote [quote; quote] (c :: s))
      with ((if char_eqb c quote then [quote; quote] else [c])
            ++ replace quote [quote; quote] s).
    destruct (char_eqb c quote) eqn:E.
    + apply char_eqb_eq in E. subst c.
      cbn [app read_literal]. rewrite !char_eqb_refl, IH. reflexivity.
    + cbn [app read_literal]. rewrite E, IH. reflexivity.
Qed.

Lemma replace_keeps_other (old c : char) (new s : str) :
  occurrences c new = 0 -> char_eqb c old = false ->
  occurrences c (replace old new s) = occurrences c s.
Proof.
  intros Hnew Hc. induction s as [|x s IH]; auto.
  change (replace old new (x :: s))
    with ((if char_eqb x old then new else [x]) ++ replace old new s).
  rewrite occurrences_app, IH, occurrences_cons.
  destruct (char_eqb x old) eqn:E.
  - apply char_eqb_eq in E. subst x. rewrite Hc, Hnew. reflexivity.
  - rewrite occurrences_cons. change (occurrences c []) with 0. lia.
Qed.

(** The escaping of the toolbar never touches a quote. *)
Lemma toolbar_escape_keeps_quotes (s : str) :
  occurrences quote (Toolbar._escape_like s) = occurrences quote s.
Proof.
  unfold Toolbar._escape_like.
  rewrite !replace_keeps_other; reflexivity.
Qed.

(** ** Escaping in the clauses *)

Section EscapingFacts.
Context {U : UnicodeTables}.

(** C1, at the term O'Brien (the toolbar departs from the claim).  The
    free-word clause and the typed contains clause of the toolbar carry
    the quote of the term once, where the claim has it doubled: read as a
    literal, the pattern ends after "%O".  The escaping of the toolbar
    leaves the quotes of every term as they are.  The equality clause of
    the same function and the contains clause of the other dialog double
    the quote. *)
Theorem toolbar_like_clauses_leave_quote_single :
  Toolbar.expr_free layer_addr_id (lit "O'Brien")
    = Next (Some (lit "(lower(" ++ addr_q ++ lit ") LIKE lower('%O'Brien%'))")) /\
  Toolbar.typed_comparison addr_q 3 (lit "O'Brien")
    = Next (lit "(lower(" ++ addr_q ++ lit ") LIKE lower('%O'Brien%'))") /\
  read_literal (lit "%O'Brien%'))") = Some (lit "%O", lit "Brien%'))") /\
  (forall term, occurrences quote (Toolbar._escape_like term) = occurrences quote term) /\
  Toolbar.typed_comparison addr_q 0 (lit "O'Brien")
    = Next (lit "(" ++ addr_q ++ lit " = 'O''Brien')") /\
  Dialog._build_or_contains_expr [lit "addr"] (lit "O'Brien")
    = Some (lit "(lower(" ++ addr_q ++ lit ") LIKE lower('%O''Brien%'))") /\
  read_literal (lit "%O''Brien%'))") = Some (lit "%O'Brien%", lit "))").
Proof.
  split; [reflexivity | split; [reflexivity | split; [reflexivity | split]]].
  - apply toolbar_escape_keeps_quotes.
  - repeat split; reflexivity.
Qed.

End EscapingFacts.

(** ** Combining two clauses *)

(** C3 (amended).  Two present expressions are joined by the operator of
    the policy.  The first dialog wraps the pair in one pair of
    parentheses, [(a AND b)]; the toolbar wraps each operand instead,
    [(a) AND (b)].  In both, the policy decides the operator and nothing
    else. *)
Theorem combine_two_present (a b : str) :
  a <> [] -> b <> [] ->
  (Dialog._combine_expr (Some a) (Some b) Dialog.label_and
     = Some (lit "(" ++ a ++ lit " AND " ++ b ++ lit ")") /\
   Dialog._combine_expr (Some a) (Some b) Dialog.label_or
     = Some (lit "(" ++ a ++ lit " OR " ++ b ++ lit ")")) /\
  (Toolbar.final_expr (Some a) (Some b) true
     = Some (lit "(" ++ a ++ lit ") AND (" ++ b ++ lit ")") /\
   Toolbar.final_expr (Some a) (Some b) false
     = Some (lit "(" ++ a ++ lit ") OR (" ++ b ++ lit ")")) /\
  (exists pre post,
     forall join_label,
       Dialog._combine_expr (Some a) (Some b) join_label
       = Some (pre ++ (if str_eqb join_label Dialog.label_and
                       then lit "AND" else lit "OR") ++ post)) /\
  (exists pre post,
     forall logic_and : bool,
       Toolbar.final_expr (Some a) (Some b) logic_and
       = Some (pre ++ (if logic_and then lit "AND" else lit "OR") ++ post)).
Proof.
  intros Ha Hb.
  unfold Dialog._combine_expr, Toolbar.final_expr.
  rewrite !(truthy_Some Ha), !(truthy_Some Hb). cbn [andb format_value].
  split; [split; reflexivity | split; [split; reflexivity | split]].
  - exists (lit "(" ++ a ++ lit " "), (lit " " ++ b ++ lit ")").
    intro l. rewrite <- !app_assoc. reflexivity.
  - exists (lit "(" ++ a ++ lit ") "), (lit " (" ++ b ++ lit ")").
    intros []; rewrite <- !app_assoc; reflexivity.
Qed.

Lemma combine_two_present_witness :
  (Dialog._combine_expr (Some (lit "(x)")) (Some (lit "(y)")) Dialog.label_and
     = Some (lit "((x) AND (y))") /\
   Dialog._combine_expr (Some (lit "(x)")) (Some (lit "(y)")) Dialog.label_or
     = Some (lit "((x) OR (y))")) /\
  (Toolbar.final_expr (Some (lit "(x)")) (Some (lit "(y)")) true
     = Some (lit "((x)) AND ((y))") /\
   Toolbar.final_expr (Some (lit "(x)")) (Some (lit "(y)")) false
     = Some (lit "((x)) OR ((y))")).
Proof.
  pose proof (@combine_two_present (lit "(x)") (lit "(y)")) as H.
  destruct H as (HD & HT & _); [discriminate | discriminate |].
  split; [exact HD | exact HT].
Defined.

(** C3 as stated fails in the toolbar: the joined text has no enclosing
    pair of parentheses. *)
Lemma toolbar_join_has_no_enclosing_pair :
  Toolbar.final_expr (Some (lit "(x)")) (Some (lit "(y)")) true
    = Some (lit "((x)) AND ((y))") /\
  Toolbar.final_expr (Some (lit "(x)")) (Some (lit "(y)")) true
    <> Some (lit "((x) AND (y))").
Proof. split; [reflexivity | discriminate]. Qed.

Section CombineFacts.
Context {U : UnicodeTables}.

(** C7.  Combining is the identity on one present expression and gives
    absent for two absent ones, under both policies and in both dialogs;
    and when the combined expression is absent the search stops with a
    warning, before any query. *)
Theorem combine_absent_is_neutral (join_label : str) (logic_and : bool) :
  (Dialog._combine_expr None None join_label = None /\
   (forall a : str, a <> [] -> Dialog._combine_expr (Some a) None join_label = Some a) /\
   (forall b : str, Dialog._combine_expr None (Some b) join_label = Some b)) /\
  (Toolbar.final_expr None None logic_and = None /\
   (forall a : str, a <> [] -> Toolbar.final_expr (Some a) None logic_and = Some a) /\
   (forall b : str, Toolbar.final_expr None (Some b) logic_and = Some b)) /\
  (forall h layer w,
     truthy (Dialog.expr_text layer w) = false ->
     executes_query (Dialog.run_search h (Some layer) w) = false) /\
  (forall h layer i e_free e_filter,
     Toolbar.expr_free layer (strip (Toolbar.in_free i)) = Next e_free ->
     Toolbar.expr_filter (Toolbar.in_use_filter i) (strip (Toolbar.in_filter i))
       (strip (Toolbar.in_field i)) (Toolbar.in_op i) = Next e_filter ->
     truthy (Toolbar.final_expr e_free e_filter (Toolbar.in_logic i =? 0)%Z) = false ->
     executes_query (Toolbar.run_search h (Some layer) i) = false).
Proof.
  split; [|split; [|split]].
  - split; [reflexivity | split].
    + intros a Ha. unfold Dialog._combine_expr, py_or.
      rewrite (truthy_Some Ha). reflexivity.
    + intro b. reflexivity.
  - split; [reflexivity | split].
    + intros a Ha. unfold Toolbar.final_expr, py_or.
      rewrite (truthy_Some Ha). reflexivity.
    + intro b. reflexivity.
  - intros h layer w H. unfold Dialog.run_search.
    destruct (l_type layer) as [[| |]|]; try reflexivity.
    rewrite H. cbn [negb].
    repeat match goal with |- context [if ?c then _ else _] => destruct c end;
      reflexivity.
  - intros h layer i e_free e_filter Hfree Hfilter Habsent.
    unfold Toolbar.run_search.
    destruct (negb (nonempty (strip (Toolbar.in_free i))) && _); [reflexivity|].
    rewrite Hfree. cbn [and_then]. rewrite Hfilter. cbn [and_then].
    rewrite Habsent. reflexivity.
Qed.

End CombineFacts.

Lemma combine_absent_is_neutral_witness :
  Dialog._combine_expr (Some (lit "(x)")) None Dialog.label_or = Some (lit "(x)") /\
  Toolbar.final_expr (Some (lit "(x)")) None false = Some (lit "(x)") /\
  executes_query (Dialog.run_search quiet_host (Some layer_addr_id) Dialog.built_widgets)
    = false /\
  executes_query
    (Toolbar.run_search (U := ascii_tables) quiet_host (Some layer_addr_id)
       (refine_no_field (lit "abc")))
    = false.
Proof.
  destruct (@combine_absent_is_neutral ascii_tables Dialog.label_or false)
    as ((_ & HD & _) & (_ & HT & _) & Hrun & Hrun').
  split; [apply HD; discriminate | split; [apply HT; discriminate | split]].
  - apply Hrun. reflexivity.
  - apply (Hrun' quiet_host layer_addr_id (refine_no_field (lit "abc")) None None);
      reflexivity.
Defined.

(** ** The typed comparison of the toolbar *)

Section TypedComparisonFacts.
Context {U : UnicodeTables}.

(** C6.  With the comparator "equals" the clause is [("field" = term)],
    the term unquoted, when the term is numeric; otherwise it is
    [("field" = 'text')] where [text] is the term with every quote
    doubled, so that the literal reads back as the term. *)
Theorem equals_is_numeric_or_quoted (field filt : str) :
  field <> [] -> filt <> [] ->
  Toolbar.expr_filter true filt field 0 =
    Next (Some
      (if _is_number filt then
         lit "(" ++ [dquote] ++ field ++ [dquote] ++ lit " = " ++ filt ++ lit ")"
       else
         lit "(" ++ [dquote] ++ field ++ [dquote] ++ lit " = '"
         ++ replace quote [quote; quote] filt ++ lit "')")) /\
  occurrences quote (replace quote [quote; quote] filt) = 2 * occurrences quote filt /\
  read_literal (replace quote [quote; quote] filt ++ lit "')") = Some (filt, lit ")").
Proof.
  intros Hfield Hfilt. split; [|split].
  - unfold Toolbar.expr_filter, Toolbar.typed_comparison.
    rewrite (proj2 (nonempty_true _) Hfield), (proj2 (nonempty_true _) Hfilt).
    cbn [andb Z.eqb]. destruct (_is_number filt); rewrite <- ?app_assoc; reflexivity.
  - apply doubling_counts.
  - apply (read_literal_doubled filt (lit ")")). reflexivity.
Qed.

Lemma typed_comparison_rejects (field_q filt : str) :
  _is_number filt = false ->
  Toolbar.typed_comparison field_q 1 filt = Return [PushWarning Toolbar.GreaterNeedsNumber] /\
  Toolbar.typed_comparison field_q 2 filt = Return [PushWarning Toolbar.LessNeedsNumber].
Proof.
  intro H. unfold Toolbar.typed_comparison. rewrite H. split; reflexivity.
Qed.

(** C5.  With the comparator "greater than" or "less than" and a term
    that is not numeric, the comparison yields no clause but the warning
    that a number is required; a search whose refinement is such a
    comparison ends with one warning and executes no query, and the
    warning is that one whenever the search got as far as the
    refinement. *)
Theorem comparison_needs_number (filt : str) :
  _is_number filt = false ->
  (forall field_q,
     Toolbar.typed_comparison field_q 1 filt
       = Return [PushWarning Toolbar.GreaterNeedsNumber] /\
     Toolbar.typed_comparison field_q 2 filt
       = Return [PushWarning Toolbar.LessNeedsNumber]) /\
  (forall h selected i,
     Toolbar.in_use_filter i = true ->
     strip (Toolbar.in_filter i) = filt -> filt <> [] ->
     strip (Toolbar.in_field i) <> [] ->
     Toolbar.in_op i = 1%Z \/ Toolbar.in_op i = 2%Z ->
     (exists m, Toolbar.run_search h selected i = [PushWarning m]) /\
     executes_query (Toolbar.run_search h selected i) = false /\
     (forall layer e_free,
        selected = Some layer ->
        Toolbar.expr_free layer (strip (Toolbar.in_free i)) = Next e_free ->
        Toolbar.run_search h selected i =
          [PushWarning (if (Toolbar.in_op i =? 1)%Z then Toolbar.GreaterNeedsNumber
                        else Toolbar.LessNeedsNumber)])).
Proof.
  intro Hnum. split; [intro; apply typed_comparison_rejects; auto|].
  intros h selected i Huse Hfilt Hne Hfield Hop.
  assert (Hblock : Toolbar.expr_filter true filt (strip (Toolbar.in_field i))
                     (Toolbar.in_op i)
                   = Return [PushWarning (if (Toolbar.in_op i =? 1)%Z
                                          then Toolbar.GreaterNeedsNumber
                                          else Toolbar.LessNeedsNumber)]).
  { unfold Toolbar.expr_filter.
    rewrite (proj2 (nonempty_true _) Hfield), (proj2 (nonempty_true _) Hne).
    cbn [andb].
    destruct (typed_comparison_rejects ([dquote] ++ strip (Toolbar.in_field i) ++ [dquote])
                filt Hnum) as [H1 H2].
    destruct Hop as [-> | ->]; [rewrite H1 | rewrite H2]; reflexivity. }
  assert (Hrun : forall layer,
             selected = Some layer ->
             Toolbar.run_search h selected i =
               match Toolbar.expr_free layer (strip (Toolbar.in_free i)) with
               | Return r => r
               | Next _ => [PushWarning (if (Toolbar.in_op i =? 1)%Z
                                         then Toolbar.GreaterNeedsNumber
                                         else Toolbar.LessNeedsNumber)]
               end).
  { intros layer ->. unfold Toolbar.run_search.
    rewrite Huse, Hfilt, (proj2 (nonempty_true _) Hne).
    cbn [andb negb]. rewrite andb_false_r.
    destruct (Toolbar.expr_free layer (strip (Toolbar.in_free i))); cbn [and_then]; auto.
    rewrite Hblock. reflexivity. }
  assert (Hone : exists m, Toolbar.run_search h selected i = [PushWarning m]).
  { destruct selected as [layer|]; [|eexists; reflexivity].
    rewrite (Hrun layer eq_refl). unfold Toolbar.expr_free.
    destruct (nonempty (strip (Toolbar.in_free i))); [|eexists; reflexivity].
    destruct (nonempty _); eexists; reflexivity. }
  split; [exact Hone | split].
  - destruct Hone as [m ->]. reflexivity.
  - intros layer e_free Hsel Hfree. rewrite (Hrun layer Hsel), Hfree. reflexivity.
Qed.

End TypedComparisonFacts.

Lemma equals_is_numeric_or_quoted_witness :
  Toolbar.expr_filter (U := ascii_tables) true (lit "O'Brien") (lit "name") 0 =
    Next (Some (lit "(" ++ [dquote] ++ lit "name" ++ [dquote] ++ lit " = 'O''Brien')")) /\
  Toolbar.expr_filter (U := ascii_tables) true (lit "-4.5") (lit "id") 0 =
    Next (Some (lit "(" ++ [dquote] ++ lit "id" ++ [dquote] ++ lit " = -4.5)")).
Proof.
  split.
  - refine (proj1 (@equals_is_numeric_or_quoted ascii_tables
                     (lit "name") (lit "O'Brien") _ _)); discriminate.
  - refine (proj1 (@equals_is_numeric_or_quoted ascii_tables
                     (lit "id") (lit "-4.5") _ _)); discriminate.
Defined.

Lemma comparison_needs_number_witness :
  Toolbar.run_search (U := ascii_tables) quiet_host (Some layer_addr_id)
    (refine_id 1 (lit "abc"))
    = [PushWarning Toolbar.GreaterNeedsNumber] /\
  executes_query
    (Toolbar.run_search (U := ascii_tables) quiet_host (Some layer_addr_id)
       (refine_id 1 (lit "abc")))
    = false.
Proof.
  destruct (@comparison_needs_number ascii_tables (lit "abc") eq_refl) as [_ H].
  destruct (H quiet_host (Some layer_addr_id) (refine_id 1 (lit "abc")))
    as (_ & Hq & Hmsg); try reflexivity; try discriminate; [left; reflexivity|].
  split; [| exact Hq].
  exact (Hmsg layer_addr_id None eq_refl eq_refl).
Defined.

(** ** The free-word clause *)

Lemma or_group_nonempty (parts : list str) (e : str) :
  Dialog.or_group parts = Some e -> e <> [].
Proof.
  unfold Dialog.or_group. destruct (nonempty parts); [|discriminate].
  intro H. inversion H. discriminate.
Qed.

(** A built clause group is never the empty string: for the builders,
    present means not [None]. *)
Lemma built_expr_nonempty (fields : list str) (text mode : str) (e : str) :
  Dialog._build_or_contains_expr fields text = Some e \/
  Dialog._build_refine_expr fields text mode = Some e ->
  e <> [].
Proof.
  unfold Dialog._build_or_contains_expr, Dialog._build_refine_expr.
  destruct (negb (nonempty (Dialog._escape_like text)));
    intros [H|H]; try discriminate; eapply or_group_nonempty; eauto.
Qed.

Lemma map_filter_nil {A B : Type} (f : A -> B) (l : list A) :
  nonempty (map f l) = nonempty l.
Proof. destruct l; reflexivity. Qed.

Section FreeWordFacts.
Context {U : UnicodeTables}.

(** The loop of the toolbar visits the fields in order and keeps one
    clause for each string field. *)
Lemma free_parts_from (fields : list Field) (free_esc : str) (acc : list str) :
  fold_left
    (fun parts f =>
       if Toolbar.is_string_field f
       then parts ++ [Toolbar.like_clause free_esc (f_name f)]
       else parts)
    fields acc
  = acc ++ map (fun f => Toolbar.like_clause free_esc (f_name f))
             (filter Toolbar.is_string_field fields).
Proof.
  revert acc. induction fields as [|f fields IH]; intro acc; cbn [fold_left filter].
  - cbn [map]. rewrite app_nil_r. reflexivity.
  - rewrite IH. destruct (Toolbar.is_string_field f); cbn [map].
    + rewrite <- app_assoc. reflexivity.
    + reflexivity.
Qed.

Lemma free_parts_map_filter (fields : list Field) (free_esc : str) :
  Toolbar.free_parts fields free_esc
  = map (fun f => Toolbar.like_clause free_esc (f_name f))
      (filter Toolbar.is_string_field fields).
Proof. unfold Toolbar.free_parts. rewrite free_parts_from. reflexivity. Qed.

(** C2 (amended).  For a term that is not empty after trimming and holds
    no quote, the free-word clause is one parenthesized group of one
    clause [lower("field") LIKE lower('%E%')] per string field, in the
    order of the fields and joined by OR, and no clause for any other
    field.  [E] is the term as the dialog escapes it: the first dialog
    leaves such a term as it is; the toolbar puts a backslash before each
    backslash, [%] and [_], and leaves a term without these as it is.
    Without a string field the builder of the first dialog returns
    absent, and the toolbar reports that there is no string field.  A
    term that is empty after trimming gives absent in both. *)
Theorem free_word_clause_per_string_field (layer : MapLayer) (raw : str) :
  strip raw <> [] -> ~ In quote (strip raw) ->
  Dialog.free_expr (Dialog.str_fields layer) (strip raw) =
    match filter (fun f => is_QV_String (f_type f)) (l_fields layer) with
    | [] => None
    | fs =>
        Some (lit "(" ++
              join (lit " OR ")
                (map (fun f => Dialog.contains_clause (strip raw) (f_name f)) fs)
              ++ lit ")")
    end /\
  Toolbar.expr_free layer (strip raw) =
    match filter Toolbar.is_string_field (l_fields layer) with
    | [] => Return [PushWarning Toolbar.NoStringFields]
    | fs =>
        Next (Some (lit "(" ++
                    join (lit " OR ")
                      (map (fun f => Toolbar.like_clause
                                       (Toolbar._escape_like (strip raw)) (f_name f)) fs)
                    ++ lit ")"))
    end /\
  (~ In backslash (strip raw) -> ~ In percent (strip raw) ->
   ~ In underscore (strip raw) ->
   Toolbar._escape_like (strip raw) = strip raw) /\
  (forall text name,
     Toolbar.like_clause text name = Dialog.contains_clause text name /\
     Dialog.contains_clause text name =
       lit "lower(" ++ [dquote] ++ name ++ [dquote] ++ lit ") LIKE lower('%"
       ++ text ++ lit "%')") /\
  (forall blank, strip blank = [] ->
     Dialog.free_expr (Dialog.str_fields layer) (strip blank) = None /\
     Toolbar.expr_free layer (strip blank) = Next None).
Proof.
  intros Hne Hq. split; [|split; [|split; [|split]]].
  - unfold Dialog.free_expr, Dialog._build_or_contains_expr, Dialog._escape_like.
    rewrite (@replace_absent _ _ _ Hq), (proj2 (nonempty_true _) Hne).
    cbn [negb]. unfold Dialog.str_fields, Dialog.or_group.
    rewrite map_map, map_filter_nil.
    destruct (filter _ (l_fields layer)); reflexivity.
  - unfold Toolbar.expr_free. rewrite (proj2 (nonempty_true _) Hne).
    rewrite free_parts_map_filter, map_filter_nil.
    destruct (filter _ (l_fields layer)); reflexivity.
  - intros Hb Hp Hu. unfold Toolbar._escape_like.
    rewrite (@replace_absent _ _ _ Hb), (@replace_absent _ _ _ Hp), (@replace_absent _ _ _ Hu).
    reflexivity.
  - intros text name. split; reflexivity.
  - intros blank ->. split; reflexivity.
Qed.

End FreeWordFacts.

Lemma free_word_clause_per_string_field_witness :
  Dialog.free_expr (Dialog.str_fields layer_addr_id) (strip (lit "  central "))
    = Some (lit "(lower(" ++ addr_q ++ lit ") LIKE lower('%central%'))") /\
  Toolbar.expr_free (U := ascii_tables) layer_addr_id (strip (lit "  central "))
    = Next (Some (lit "(lower(" ++ addr_q ++ lit ") LIKE lower('%central%'))")).
Proof.
  assert (Hq : ~ In quote (strip (lit "  central "))).
  { cbv. intuition discriminate. }
  destruct (@free_word_clause_per_string_field ascii_tables layer_addr_id
              (lit "  central ")) as (HD & HT & _); [discriminate | exact Hq |].
  split; [exact HD | exact HT].
Defined.

(** C2 as stated fails in the toolbar: the pattern of the clause is not
    the term between two [%] when the term holds an underscore. *)
Lemma toolbar_pattern_escapes_underscore :
  Toolbar.expr_free (U := ascii_tables) layer_addr_id (lit "a_b")
    = Next (Some (lit "(lower(" ++ addr_q ++ lit ") LIKE lower('%a\_b%'))")) /\
  Toolbar.expr_free (U := ascii_tables) layer_addr_id (lit "a_b")
    <> Next (Some (lit "(lower(" ++ addr_q ++ lit ") LIKE lower('%a_b%'))")).
Proof. split; [reflexivity | discriminate]. Qed.

(** ** The search without string fields *)

Lemma dialog_execute_not_warning (h : Host) (layer : MapLayer) (e : str)
    (m : Dialog.Message) :
  Dialog.execute h layer e <> [PushWarning m].
Proof.
  unfold Dialog.execute.
  destruct (parserError h e); [discriminate|].
  destruct (getFeatures h layer e) as [ids|d]; [|discriminate].
  destruct (negb (nonempty ids)); discriminate.
Qed.

Lemma toolbar_execute_not_warning (h : Host) (layer : MapLayer) (e : str)
    (m : Toolbar.Message) :
  Toolbar.execute h layer e <> [PushWarning m].
Proof.
  unfold Toolbar.execute.
  destruct (parserError h e); [discriminate|].
  destruct (getFeatures h layer e) as [ids|d]; [|discriminate].
  destruct (negb (nonempty ids)); discriminate.
Qed.

Section NoStringFieldFacts.
Context {U : UnicodeTables}.

Lemma expr_filter_not_no_string_fields (use_filter : bool) (filt field : str)
    (op_idx : Z) :
  Toolbar.expr_filter use_filter filt field op_idx
    <> Return [PushWarning Toolbar.NoStringFields].
Proof.
  unfold Toolbar.expr_filter, Toolbar.typed_comparison.
  destruct (use_filter && nonempty filt && nonempty field); [|discriminate].
  destruct (op_idx =? 0)%Z; [destruct (_is_number filt); discriminate|].
  destruct (op_idx =? 1)%Z; [destruct (_is_number filt); discriminate|].
  destruct (op_idx =? 2)%Z; [destruct (_is_number filt); discriminate|].
  discriminate.
Qed.

(** C8 (amended).  The toolbar reports that there is no string field
    exactly when a layer is selected, the free word is present and the
    layer has no string field; a search by refinement alone never ends
    that way.  The first dialog, whose refinement runs over the string
    fields as well, reports it exactly when the active layer is a vector
    layer, some criterion is present (the free word, or the text of an
    enabled refinement) and the layer has no string field. *)
Theorem no_string_fields_reported (h : Host) :
  (forall selected i,
     Toolbar.run_search h selected i = [PushWarning Toolbar.NoStringFields] <->
     exists layer,
       selected = Some layer /\
       strip (Toolbar.in_free i) <> [] /\
       filter Toolbar.is_string_field (l_fields layer) = []) /\
  (forall active w,
     Dialog.run_search h active w = [PushWarning Dialog.NoStringFields] <->
     exists layer,
       active = Some layer /\
       l_type layer = Some VectorLayer /\
       (strip (Dialog.freeword_edit w) <> [] \/
        (Dialog.refine_enable w = true /\ strip (Dialog.refine_edit w) <> [])) /\
       filter (fun f => is_QV_String (f_type f)) (l_fields layer) = []).
Proof.
  split.
  - intros selected i. unfold Toolbar.run_search. split.
    + destruct selected as [layer|]; [|discriminate].
      destruct (nonempty (strip (Toolbar.in_free i))) eqn:Efree.
      * cbn [negb andb]. unfold Toolbar.expr_free at 1. rewrite Efree.
        rewrite free_parts_map_filter, map_filter_nil.
        destruct (filter Toolbar.is_string_field (l_fields layer)) eqn:Ef.
        -- intros _. exists layer. repeat split; auto.
           apply nonempty_true; auto.
        -- cbn [nonempty and_then].
           destruct (Toolbar.expr_filter _ _ _ _) as [r|e] eqn:Eflt; cbn [and_then].
           ++ intros ->. exfalso. eapply expr_filter_not_no_string_fields; eauto.
           ++ destruct (negb (truthy _)); [discriminate|].
              intro H. exfalso. eapply toolbar_execute_not_warning; eauto.
      * cbn [negb andb]. destruct (negb _); [discriminate|].
        unfold Toolbar.expr_free at 1. rewrite Efree. cbn [and_then].
        destruct (Toolbar.expr_filter _ _ _ _) as [r|e] eqn:Eflt; cbn [and_then].
        -- intros ->. exfalso. eapply expr_filter_not_no_string_fields; eauto.
        -- destruct (negb (truthy _)); [discriminate|].
           intro H. exfalso. eapply toolbar_execute_not_warning; eauto.
    + intros (layer & -> & Hfree & Hnone).
      apply nonempty_true in Hfree. rewrite Hfree. cbn [negb andb].
      unfold Toolbar.expr_free. rewrite Hfree, free_parts_map_filter, Hnone.
      reflexivity.
  - intros active w. unfold Dialog.run_search, Dialog.str_fields. split.
    + destruct active as [layer|]; [|discriminate].
      rewrite map_filter_nil.
      destruct (l_type layer) as [[| |]|] eqn:Et; try discriminate.
      destruct (nonempty (strip (Dialog.freeword_edit w))) eqn:Efree;
        destruct (Dialog.refine_enable w) eqn:Eon; cbn [negb andb].
      * destruct (filter _ (l_fields layer)) eqn:Ef; cbn [nonempty negb].
        -- intros _. exists layer. repeat split; auto.
           left. apply nonempty_true; auto.
        -- destruct (negb (truthy _)); [discriminate|].
           intro H. exfalso. eapply dialog_execute_not_warning; eauto.
      * destruct (filter _ (l_fields layer)) eqn:Ef; cbn [nonempty negb].
        -- intros _. exists layer. repeat split; auto.
           left. apply nonempty_true; auto.
        -- destruct (negb (truthy _)); [discriminate|].
           intro H. exfalso. eapply dialog_execute_not_warning; eauto.
      * destruct (nonempty (strip (Dialog.refine_edit w))) eqn:Eref;
          cbn [negb]; [|discriminate].
        destruct (filter _ (l_fields layer)) eqn:Ef; cbn [nonempty negb].
        -- intros _. exists layer. repeat split; auto.
           right. split; auto. apply nonempty_true; auto.
        -- destruct (negb (truthy _)); [discriminate|].
           intro H. exfalso. eapply dialog_execute_not_warning; eauto.
      * discriminate.
    + intros (layer & -> & Ht & Hcrit & Hnone).
      rewrite map_filter_nil, Ht, Hnone.
      destruct Hcrit as [Hfree | [Hon Href]].
      * apply nonempty_true in Hfree. rewrite Hfree. reflexivity.
      * apply nonempty_true in Href. rewrite Hon, Href.
        cbn [andb negb]. rewrite andb_false_r. reflexivity.
Qed.

End NoStringFieldFacts.

(** C8 as stated fails in the first dialog: with no free word and the
    refinement "A" alone, a layer without string fields is reported. *)
Lemma dialog_refinement_only_reports_no_string_fields :
  strip (Dialog.freeword_edit refine_only_A) = [] /\
  Dialog.run_search quiet_host (Some layer_id_only) refine_only_A
    = [PushWarning Dialog.NoStringFields].
Proof. split; reflexivity. Qed.

(** ** The file search *)

Lemma startswith_prefix (t s : str) :
  startswith t s = true <-> exists post, s = t ++ post.
Proof.
  revert s. induction t as [|x t IH]; intros s; cbn [startswith].
  - split; [intros _; exists s; reflexivity | reflexivity].
  - destruct s as [|y s].
    + split; [discriminate | intros (post & H); discriminate].
    + rewrite andb_true_iff, char_eqb_eq, IH. split.
      * intros (-> & post & ->). exists post. reflexivity.
      * intros (post & H). inversion H; subst.
        split; [reflexivity | exists post; reflexivity].
Qed.

(** [t in s] holds exactly when [t] occurs in [s], character for
    character: no folding of case, no escape. *)
Lemma contains_occurs (t s : str) :
  contains t s = true <-> Toolbar.occurs_in t s.
Proof.
  unfold Toolbar.occurs_in. induction s as [|c s IH]; cbn [contains].
  - rewrite orb_false_r, startswith_prefix. split.
    + intros (post & H). exists [], post. exact H.
    + intros (pre & post & H). symmetry in H.
      apply app_eq_nil in H as (-> & H). apply app_eq_nil in H as (-> & ->).
      exists []. reflexivity.
  - rewrite orb_true_iff, startswith_prefix, IH. split.
    + intros [(post & H) | (pre & post & H)].
      * exists [], post. exact H.
      * exists (c :: pre), post. rewrite H. reflexivity.
    + intros (pre & post & H). destruct pre as [|x pre].
      * left. exists post. exact H.
      * right. inversion H; subst. exists pre, post. reflexivity.
Qed.

Lemma str_in_In (s : str) (l : list str) :
  Toolbar.str_in s l = true <-> In s l.
Proof.
  unfold Toolbar.str_in. rewrite existsb_exists. split.
  - intros (x & Hin & Heq). apply str_eqb_eq in Heq. subst. exact Hin.
  - intro Hin. exists s. split; [exact Hin | apply str_eqb_refl].
Qed.

Section FileSearchFacts.
Context {U : UnicodeTables}.

Lemma hits_from (exts tokens : list str) (logic_and : bool)
    (entries found : list Toolbar.Entry) :
  fold_left
    (fun found p =>
       if Toolbar.is_hit exts tokens logic_and p then found ++ [p] else found)
    entries found
  = found ++ filter (Toolbar.is_hit exts tokens logic_and) entries.
Proof.
  revert found. induction entries as [|p entries IH]; intro found;
    cbn [fold_left filter].
  - rewrite app_nil_r. reflexivity.
  - rewrite IH. destruct (Toolbar.is_hit exts tokens logic_and p).
    + rewrite <- app_assoc. reflexivity.
    + reflexivity.
Qed.

(** The loop keeps the entries it accepts, in the order of the walk. *)
Lemma hits_filter (exts tokens : list str) (logic_and : bool)
    (entries : list Toolbar.Entry) :
  Toolbar.hits exts tokens logic_and entries
  = filter (Toolbar.is_hit exts tokens logic_and) entries.
Proof. unfold Toolbar.hits. rewrite hits_from. reflexivity. Qed.

Lemma tokens_test (tokens : list str) (logic_and : bool) (name : str) :
  (if (length tokens =? 1)%nat then contains (nth 0 tokens []) name
   else if logic_and then forallb (fun t => contains t name) tokens
   else existsb (fun t => contains t name) tokens) = true <->
  (if logic_and then forall t, In t tokens -> Toolbar.occurs_in t name
   else exists t, In t tokens /\ Toolbar.occurs_in t name).
Proof.
  assert (Hall : forallb (fun t => contains t name) tokens = true <->
                 forall t, In t tokens -> Toolbar.occurs_in t name).
  { rewrite forallb_forall. split; intros H t Ht; apply contains_occurs; auto. }
  assert (Hany : existsb (fun t => contains t name) tokens = true <->
                 exists t, In t tokens /\ Toolbar.occurs_in t name).
  { rewrite existsb_exists. split; intros (t & Ht & H); exists t; split; auto;
      apply contains_occurs; auto. }
  destruct tokens as [|t0 [|t1 rest]].
  - cbn [length Nat.eqb]. destruct logic_and; [apply Hall | apply Hany].
  - cbn [length Nat.eqb nth]. destruct logic_and.
    + rewrite <- Hall. cbn [forallb]. rewrite andb_true_r. reflexivity.
    + rewrite <- Hany. cbn [existsb]. rewrite orb_false_r. reflexivity.
  - cbn [length Nat.eqb]. destruct logic_and; [apply Hall | apply Hany].
Qed.

(** C9.  An entry of the walk is a hit exactly when it is a regular file,
    its extension is in the allow-list unless the list is empty, and its
    name holds every token (AND) or some token (OR) as it is written; with
    one token the name must hold that token, whatever the policy.  In the
    folder of scenario E, the token "park" and the allow-list "pdf" find
    parklist.pdf and nothing else, and "Park" finds nothing. *)
Theorem file_hit_rule (exts tokens : list str) (logic_and : bool)
    (entries : list Toolbar.Entry) (p : Toolbar.Entry) :
  (In p (Toolbar.hits exts tokens logic_and entries) <->
   In p entries /\
   Toolbar.e_is_file p = true /\
   (exts <> [] -> In (Toolbar.extension p) exts) /\
   (if logic_and
    then forall t, In t tokens -> Toolbar.occurs_in t (Toolbar.e_name p)
    else exists t, In t tokens /\ Toolbar.occurs_in t (Toolbar.e_name p))) /\
  (forall t,
     In p (Toolbar.hits exts [t] logic_and entries) <->
     In p entries /\
     Toolbar.e_is_file p = true /\
     (exts <> [] -> In (Toolbar.extension p) exts) /\
     Toolbar.occurs_in t (Toolbar.e_name p)) /\
  Toolbar.hits [lit "pdf"] [lit "park"] logic_and park_folder
    = [file_entry "parklist.pdf"] /\
  Toolbar.hits [lit "pdf"] [lit "Park"] logic_and park_folder = [].
Proof.
  assert (Hrule : forall toks,
    In p (Toolbar.hits exts toks logic_and entries) <->
    In p entries /\
    Toolbar.e_is_file p = true /\
    (exts <> [] -> In (Toolbar.extension p) exts) /\
    (if logic_and
     then forall t, In t toks -> Toolbar.occurs_in t (Toolbar.e_name p)
     else exists t, In t toks /\ Toolbar.occurs_in t (Toolbar.e_name p))).
  { intro toks. rewrite hits_filter, filter_In. unfold Toolbar.is_hit.
    destruct (Toolbar.e_is_file p); cbn [negb].
    - destruct exts as [|e exts'] eqn:Eexts; cbn [nonempty andb].
      + rewrite tokens_test. intuition congruence.
      + rewrite <- Eexts.
        destruct (Toolbar.str_in (Toolbar.extension p) exts) eqn:Ein; cbn [negb].
        * apply str_in_In in Ein. rewrite tokens_test. intuition.
        * split; [intros [_ H]; discriminate|].
          intros (_ & _ & Hext & _). exfalso.
          assert (Hne : exts <> []) by (rewrite Eexts; discriminate).
          apply Hext, str_in_In in Hne. congruence.
    - split; [intros [_ H]; discriminate | intros (_ & H & _); discriminate]. }
  split; [apply Hrule | split; [|split]].
  - intro t. rewrite Hrule. destruct logic_and.
    + split; intros (H1 & H2 & H3 & H4); repeat split; auto.
      * apply H4. left. reflexivity.
      * intros t' [<- | []]. exact H4.
    + split; intros (H1 & H2 & H3 & H4); repeat split; auto.
      * destruct H4 as (t' & [<- | []] & H4). exact H4.
      * exists t. split; [left; reflexivity | exact H4].
  - destruct logic_and; reflexivity.
  - destruct logic_and; reflexivity.
Qed.

End FileSearchFacts.

(** ** Clearing the conditions *)

Lemma dlg_signal (c : bool) (w : Toolbar.World) :
  Toolbar.dlg (Toolbar.signal c w) = Toolbar.dlg w.
Proof. destruct c; reflexivity. Qed.

Lemma calls_signal (c : bool) (w : Toolbar.World) :
  Toolbar.calls (Toolbar.signal c w) = Toolbar.calls w.
Proof. destruct c; reflexivity. Qed.

Lemma dlg_save_state (w : Toolbar.World) :
  Toolbar.dlg (Toolbar._save_state w) = Toolbar.dlg w.
Proof. reflexivity. Qed.

Lemma dlg_call (e : Event Toolbar.Message) (w : Toolbar.World) :
  Toolbar.dlg (Toolbar.call e w) = Toolbar.dlg w.
Proof. reflexivity. Qed.

Lemma dlg_on_dlg (f : Toolbar.Dlg -> Toolbar.Dlg) (w : Toolbar.World) :
  Toolbar.dlg (Toolbar.on_dlg f w) = f (Toolbar.dlg w).
Proof. reflexivity. Qed.

Lemma calls_on_dlg (f : Toolbar.Dlg -> Toolbar.Dlg) (w : Toolbar.World) :
  Toolbar.calls (Toolbar.on_dlg f w) = Toolbar.calls w.
Proof. reflexivity. Qed.

Lemma calls_save_state (w : Toolbar.World) :
  Toolbar.calls (Toolbar._save_state w) = Toolbar.calls w.
Proof. reflexivity. Qed.

Lemma calls_call (e : Event Toolbar.Message) (w : Toolbar.World) :
  Toolbar.calls (Toolbar.call e w) = Toolbar.calls w ++ [e].
Proof. reflexivity. Qed.

Lemma settings_call (e : Event Toolbar.Message) (w : Toolbar.World) :
  Toolbar.settings (Toolbar.call e w) = Toolbar.settings w.
Proof. reflexivity. Qed.

Lemma settings_save_state (w : Toolbar.World) :
  Toolbar.settings (Toolbar._save_state w) = Some (Toolbar.snapshot (Toolbar.dlg w)).
Proof. reflexivity. Qed.

Create Rewrite HintDb world.
#[local] Hint Rewrite dlg_signal calls_signal dlg_save_state dlg_call dlg_on_dlg
  calls_on_dlg calls_save_state calls_call settings_call settings_save_state : world.

Ltac world := unfold Toolbar.clear_edit_free, Toolbar.clear_edit_filter,
  Toolbar.set_combo_logic, Toolbar.set_combo_op, Toolbar.set_chk_use_filter,
  Toolbar.clear_combo_field, Toolbar._set_advanced_collapsed,
  Toolbar._clear_qgis_active_layer; autorewrite with world.

(** No layer is selected while the layer box shows its blank entry. *)
Lemma blank_entry_selects_nothing (project : list MapLayer) (d : Toolbar.Dlg) :
  currentText (Toolbar.combo_layer d) = [] ->
  Toolbar._get_selected_layer project d = None.
Proof. intro H. unfold Toolbar._get_selected_layer. rewrite H. reflexivity. Qed.

(** What [on_layer_changed] does when nothing is selected. *)
Lemma on_layer_changed_blank (project : list MapLayer) (w : Toolbar.World) :
  currentText (Toolbar.combo_layer (Toolbar.dlg w)) = [] ->
  Toolbar.dlg (Toolbar.on_layer_changed project w)
    = Toolbar.put_lbl_layer_info Toolbar.InfoUnselected
        (Toolbar.put_combo_field
           (combo_clear (Toolbar.combo_field (Toolbar.dlg w))) (Toolbar.dlg w)) /\
  Toolbar.calls (Toolbar.on_layer_changed project w) = Toolbar.calls w.
Proof.
  intro H. unfold Toolbar.on_layer_changed.
  rewrite (blank_entry_selects_nothing project _ H). world. split; reflexivity.
Qed.

Lemma first_entry_blank (names : list str) (i : Z) :
  currentText (setCurrentIndex 0 {| items := [] :: names; currentIndex := i |}) = [] /\
  currentIndex (setCurrentIndex 0 {| items := [] :: names; currentIndex := i |}) = 0%Z.
Proof.
  unfold setCurrentIndex, currentText. cbn [items currentIndex length].
  replace ((0 <=? 0)%Z && (0 <? Z.of_nat (S (length names)))%Z) with true.
  - split; reflexivity.
  - symmetry. apply andb_true_iff. split; [reflexivity | apply Z.ltb_lt; lia].
Qed.

(** What [unselect_layer] does to the widgets when the layer box is
    filled: the blank entry is chosen, the field box is emptied. *)
Lemma unselect_layer_widgets (project : list MapLayer) (w : Toolbar.World) :
  Toolbar.layer_box_filled (Toolbar.dlg w) ->
  Toolbar.dlg (Toolbar.unselect_layer project w)
    = Toolbar.put_lbl_layer_info Toolbar.InfoUnselected
        (Toolbar.put_combo_field
           (combo_clear (Toolbar.combo_field (Toolbar.dlg w)))
           (Toolbar.put_combo_layer
              (setCurrentIndex 0 (Toolbar.combo_layer (Toolbar.dlg w)))
              (Toolbar.dlg w))) /\
  Toolbar.calls (Toolbar.unselect_layer project w)
    = Toolbar.calls w
      ++ match Toolbar._get_layer_by_id project
                 (Toolbar._last_layer_id (Toolbar.dlg w)) with
         | Some prev => [RemoveSelection (l_id prev)]
         | None => []
         end
      ++ [ClearTreeCurrentIndex; SetActiveLayerNone].
Proof.
  intros (names & Hitems).
  unfold Toolbar.unselect_layer, Toolbar._clear_qgis_active_layer.
  rewrite !dlg_call, !calls_call.
  match goal with
  | |- context [Toolbar.on_layer_changed project (Toolbar.on_dlg ?f ?x)] =>
      remember x as w1 eqn:E1; remember (Toolbar.on_dlg f w1) as w2 eqn:E2
  end.
  assert (Hd : Toolbar.dlg w1 = Toolbar.dlg w).
  { subst w1. destruct (Toolbar._get_layer_by_id project _); reflexivity. }
  assert (Hc : Toolbar.calls w1 = Toolbar.calls w
                ++ match Toolbar._get_layer_by_id project
                           (Toolbar._last_layer_id (Toolbar.dlg w)) with
                   | Some prev => [RemoveSelection (l_id prev)]
                   | None => []
                   end).
  { subst w1. destruct (Toolbar._get_layer_by_id project _);
      [reflexivity | rewrite app_nil_r; reflexivity]. }
  assert (Hblank : currentText (Toolbar.combo_layer (Toolbar.dlg w2)) = []).
  { rewrite E2, dlg_on_dlg, Hd.
    destruct (Toolbar.dlg w) as
      [free chk arrow vis logic use field op filter layer info tbl files folder ext last].
    destruct layer as [its idx]. cbn in Hitems. subst its.
    apply (first_entry_blank names idx). }
  destruct (on_layer_changed_blank project w2 Hblank) as [Hd3 Hc3].
  rewrite Hd3, Hc3, E2, dlg_on_dlg, calls_on_dlg, Hd, Hc, <- !app_assoc.
  split; reflexivity.
Qed.

Lemma items_setCurrentIndex (i : Z) (cb : QComboBox) :
  items (setCurrentIndex i cb) = items cb.
Proof. reflexivity. Qed.

Lemma items_addItems {A : Type} (name : A -> str) (l : list A) (cb : QComboBox) :
  items (fold_left (fun box x => addItem (name x) box) l cb)
  = items cb ++ map name l.
Proof.
  revert cb. induction l as [|x l IH]; intro cb; cbn [fold_left map].
  - rewrite app_nil_r. reflexivity.
  - rewrite IH. cbn [addItem items]. rewrite <- app_assoc. reflexivity.
Qed.

Lemma on_layer_changed_keeps_layer_box (project : list MapLayer) (w : Toolbar.World) :
  Toolbar.combo_layer (Toolbar.dlg (Toolbar.on_layer_changed project w))
  = Toolbar.combo_layer (Toolbar.dlg w).
Proof.
  unfold Toolbar.on_layer_changed.
  destruct (Toolbar._get_selected_layer project (Toolbar.dlg w)); world; reflexivity.
Qed.

(** [refresh_layers] leaves the layer box with its blank entry first,
    followed by the names of the vector layers. *)
Lemma refresh_layers_fills_layer_box {U : UnicodeTables}
    (project : list MapLayer) (w : Toolbar.World) :
  items (Toolbar.combo_layer (Toolbar.dlg (Toolbar.refresh_layers project w)))
  = [] :: map l_name (Toolbar.sort_by_name (filter is_vector project)).
Proof.
  unfold Toolbar.refresh_layers.
  rewrite on_layer_changed_keeps_layer_box, dlg_on_dlg.
  set (box := fold_left _ _ _).
  assert (Hbox : items box
                 = [] :: map l_name (Toolbar.sort_by_name (filter is_vector project))).
  { subst box. rewrite items_addItems. reflexivity. }
  destruct (Toolbar.dlg w); cbn [Toolbar.put_combo_layer Toolbar.combo_layer].
  destruct (nonempty _); [destruct (0 <=? _)%Z|]; rewrite ?items_setCurrentIndex;
    exact Hbox.
Qed.

Lemma on_layer_changed_keeps_fixed_boxes (project : list MapLayer) (w : Toolbar.World) :
  Toolbar.combo_logic (Toolbar.dlg (Toolbar.on_layer_changed project w))
  = Toolbar.combo_logic (Toolbar.dlg w) /\
  Toolbar.combo_op (Toolbar.dlg (Toolbar.on_layer_changed project w))
  = Toolbar.combo_op (Toolbar.dlg w).
Proof.
  unfold Toolbar.on_layer_changed.
  destruct (Toolbar._get_selected_layer project (Toolbar.dlg w)); world;
    split; reflexivity.
Qed.

Lemma refresh_layers_keeps_fixed_boxes {U : UnicodeTables}
    (project : list MapLayer) (w : Toolbar.World) :
  Toolbar.combo_logic (Toolbar.dlg (Toolbar.refresh_layers project w))
  = Toolbar.combo_logic (Toolbar.dlg w) /\
  Toolbar.combo_op (Toolbar.dlg (Toolbar.refresh_layers project w))
  = Toolbar.combo_op (Toolbar.dlg w).
Proof.
  unfold Toolbar.refresh_layers.
  match goal with
  | |- context [Toolbar.on_layer_changed project ?x] =>
      destruct (on_layer_changed_keeps_fixed_boxes project x) as [-> ->]
  end.
  split; reflexivity.
Qed.

(** The dialog as it opens, built and filled from the project, has its
    boxes in the state [clear_all] relies on. *)
Lemma opened_dialog_ready {U : UnicodeTables} (project : list MapLayer)
    (saved : option Toolbar.Saved) :
  Toolbar.layer_box_filled
    (Toolbar.dlg
       (Toolbar.refresh_layers project
          {| Toolbar.dlg := Toolbar.built_dlg; Toolbar.settings := saved;
             Toolbar.calls := [] |})) /\
  Toolbar.fixed_boxes
    (Toolbar.dlg
       (Toolbar.refresh_layers project
          {| Toolbar.dlg := Toolbar.built_dlg; Toolbar.settings := saved;
             Toolbar.calls := [] |})).
Proof.
  split.
  - eexists. apply refresh_layers_fills_layer_box.
  - unfold Toolbar.fixed_boxes.
    match goal with
    | |- context [Toolbar.refresh_layers project ?x] =>
        destruct (refresh_layers_keeps_fixed_boxes project x) as [-> ->]
    end.
    split; reflexivity.
Qed.

(** The widgets after the first six steps of [clear_all]. *)
Lemma conditions_cleared (w : Toolbar.World) :
  Toolbar.dlg
    (Toolbar.clear_edit_filter
       (Toolbar.set_combo_op 0
          (Toolbar.set_chk_use_filter false
             (Toolbar.set_combo_logic 0
                (Toolbar._set_advanced_collapsed true
                   (Toolbar.clear_edit_free w))))))
  = Toolbar.put_edit_filter []
      (Toolbar.put_combo_op (setCurrentIndex 0 (Toolbar.combo_op (Toolbar.dlg w)))
         (Toolbar.put_chk_use_filter false
            (Toolbar.put_combo_logic
               (setCurrentIndex 0 (Toolbar.combo_logic (Toolbar.dlg w)))
               (Toolbar.put_advanced false Toolbar.RightArrow false
                  (Toolbar.put_edit_free [] (Toolbar.dlg w)))))) /\
  Toolbar.calls
    (Toolbar.clear_edit_filter
       (Toolbar.set_combo_op 0
          (Toolbar.set_chk_use_filter false
             (Toolbar.set_combo_logic 0
                (Toolbar._set_advanced_collapsed true
                   (Toolbar.clear_edit_free w))))))
  = Toolbar.calls w.
Proof. world. split; reflexivity. Qed.

(** The widgets and the calls after [clear_all], step by step. *)
Lemma clear_all_steps (project : list MapLayer) (w : Toolbar.World) :
  Toolbar.layer_box_filled (Toolbar.dlg w) ->
  Toolbar.after_clear_all project w = Toolbar.cleared (Toolbar.dlg w) /\
  Toolbar.calls (Toolbar.clear_all project w)
  = Toolbar.calls w
    ++ match Toolbar._get_layer_by_id project
               (Toolbar._last_layer_id (Toolbar.dlg w)) with
       | Some prev => [RemoveSelection (l_id prev)]
       | None => []
       end
    ++ [ClearTreeCurrentIndex; SetActiveLayerNone; PushInfo Toolbar.Cleared].
Proof.
  intro Hfilled. unfold Toolbar.after_clear_all, Toolbar.clear_all.
  destruct (conditions_cleared w) as [Hd6 Hc6].
  set (w6 := Toolbar.clear_edit_filter _) in *.
  assert (Hfilled6 : Toolbar.layer_box_filled (Toolbar.dlg w6)).
  { rewrite Hd6. exact Hfilled. }
  destruct (unselect_layer_widgets project w6 Hfilled6) as [Hd7 Hc7].
  autorewrite with world. rewrite Hd7, Hc7, Hc6, Hd6.
  destruct (Toolbar.dlg w) as
    [free chk arrow vis logic use field op filter layer info tbl files folder ext last].
  split; [reflexivity|].
  cbn [Toolbar._last_layer_id Toolbar.put_edit_filter Toolbar.put_combo_op
       Toolbar.put_chk_use_filter Toolbar.put_combo_logic Toolbar.put_advanced
       Toolbar.put_edit_free].
  rewrite <- !app_assoc. reflexivity.
Qed.

(** C10.  [clear_all] empties the free word and the refinement text,
    unchecks the refinement, puts the operator and the join back on their
    first entry, empties the result table and the file list and puts the
    layer box on its blank entry, so that no layer is selected (the
    feature selection of the last layer and the active layer of the host
    are released as well); the folder field and the extension field keep
    their text, and so do the stored settings. *)
Theorem clear_all_keeps_folder_and_extensions
    (project : list MapLayer) (w : Toolbar.World) :
  Toolbar.layer_box_filled (Toolbar.dlg w) ->
  Toolbar.fixed_boxes (Toolbar.dlg w) ->
  (Toolbar.edit_free (Toolbar.after_clear_all project w) = [] /\
   Toolbar.edit_filter (Toolbar.after_clear_all project w) = [] /\
   Toolbar.chk_use_filter (Toolbar.after_clear_all project w) = false /\
   currentIndex (Toolbar.combo_op (Toolbar.after_clear_all project w)) = 0%Z /\
   currentIndex (Toolbar.combo_logic (Toolbar.after_clear_all project w)) = 0%Z) /\
  (Toolbar.tbl_results (Toolbar.after_clear_all project w)
     = {| Toolbar.t_header := []; Toolbar.t_rows := [] |} /\
   Toolbar.list_files (Toolbar.after_clear_all project w) = []) /\
  (currentIndex (Toolbar.combo_layer (Toolbar.after_clear_all project w)) = 0%Z /\
   currentText (Toolbar.combo_layer (Toolbar.after_clear_all project w)) = [] /\
   Toolbar._get_selected_layer project (Toolbar.after_clear_all project w) = None /\
   Toolbar.calls (Toolbar.clear_all project w)
     = Toolbar.calls w
       ++ match Toolbar._get_layer_by_id project
                  (Toolbar._last_layer_id (Toolbar.dlg w)) with
          | Some prev => [RemoveSelection (l_id prev)]
          | None => []
          end
       ++ [ClearTreeCurrentIndex; SetActiveLayerNone; PushInfo Toolbar.Cleared]) /\
  (Toolbar.edit_folder (Toolbar.after_clear_all project w)
     = Toolbar.edit_folder (Toolbar.dlg w) /\
   Toolbar.edit_ext (Toolbar.after_clear_all project w)
     = Toolbar.edit_ext (Toolbar.dlg w) /\
   Toolbar.settings (Toolbar.clear_all project w)
     = Some (Toolbar.snapshot (Toolbar.after_clear_all project w))).
Proof.
  intros Hfilled [Hlogic Hop].
  assert (Hsaved : Toolbar.settings (Toolbar.clear_all project w)
                   = Some (Toolbar.snapshot (Toolbar.after_clear_all project w)))
    by reflexivity.
  destruct (clear_all_steps project w Hfilled) as [Hd Hc].
  rewrite Hsaved, Hc, Hd.
  destruct Hfilled as (names & Hitems).
  destruct (Toolbar.dlg w) as
    [free chk arrow vis logic use field op filter layer info tbl files folder ext last].
  cbn in Hitems, Hlogic, Hop. destruct layer as [its idx]. cbn in Hitems. subst its.
  destruct logic as [lits lidx]. destruct op as [oits oidx].
  cbn in Hlogic, Hop. subst lits oits.
  repeat split; reflexivity.
Qed.

(** After [clear_all] the boxes are as before: the blank entry is still
    the first of the layer box, the operator and join items are kept. *)
Lemma clear_all_keeps_boxes (project : list MapLayer) (w : Toolbar.World) :
  Toolbar.layer_box_filled (Toolbar.dlg w) ->
  Toolbar.fixed_boxes (Toolbar.dlg w) ->
  Toolbar.layer_box_filled (Toolbar.after_clear_all project w) /\
  Toolbar.fixed_boxes (Toolbar.after_clear_all project w).
Proof.
  intros Hfilled Hfixed.
  destruct (clear_all_steps project w Hfilled) as [-> _].
  destruct Hfilled as (names & Hitems). destruct Hfixed as [Hlogic Hop].
  destruct (Toolbar.dlg w) as
    [free chk arrow vis logic use field op filter layer info tbl files folder ext last].
  cbn in Hitems, Hlogic, Hop.
  split; [exists names; exact Hitems | split; assumption].
Qed.

Lemma clear_all_keeps_folder_and_extensions_witness :
  Toolbar.edit_free (Toolbar.after_clear_all [layer_addr_id] busy_world) = [] /\
  Toolbar._get_selected_layer [layer_addr_id]
    (Toolbar.after_clear_all [layer_addr_id] busy_world) = None /\
  Toolbar.edit_folder (Toolbar.after_clear_all [layer_addr_id] busy_world)
    = lit "/data" /\
  Toolbar.edit_ext (Toolbar.after_clear_all [layer_addr_id] busy_world)
    = lit "pdf, png".
Proof.
  destruct (@clear_all_keeps_folder_and_extensions [layer_addr_id] busy_world)
    as ((Hfree & _) & _ & (_ & _ & Hsel & _) & Hfolder & Hext & _).
  - exists [lit "town"]. reflexivity.
  - split; reflexivity.
  - repeat split; assumption.
Defined.

(** ** Further properties of the builders *)

Lemma read_literal_prefix (pre s : str) (txt rest : str) :
  ~ In quote pre ->
  read_literal s = Some (txt, rest) ->
  read_literal (pre ++ s) = Some (pre ++ txt, rest).
Proof.
  intros Hpre Hs. induction pre as [|c pre IH]; [exact Hs|].
  cbn [app read_literal].
  destruct (char_eqb c quote) eqn:E.
  - apply char_eqb_eq in E. subst c. exfalso. apply Hpre. left. reflexivity.
  - rewrite IH; [reflexivity|]. intro H. apply Hpre. right. exact H.
Qed.

Lemma read_literal_doubled_then (s tail txt rest : str) :
  read_literal tail = Some (txt, rest) ->
  read_literal (replace quote [quote; quote] s ++ tail) = Some (s ++ txt, rest).
Proof.
  intro Htail. induction s as [|c s IH]; [exact Htail|].
  change (replace quote [quote; quote] (c :: s))
    with ((if char_eqb c quote then [quote; quote] else [c])
          ++ replace quote [quote; quote] s).
  destruct (char_eqb c quote) eqn:E.
  - apply char_eqb_eq in E. subst c.
    cbn [app read_literal]. rewrite !char_eqb_refl, IH. reflexivity.
  - cbn [app read_literal]. rewrite E, IH. reflexivity.
Qed.

(** The first dialog doubles each quote of the term once in all three
    kinds of clause, and the literal of each clause reads back as the
    term between its wildcards. *)
Theorem dialog_clauses_read_back (term name : str) :
  occurrences quote (Dialog._escape_like term) = 2 * occurrences quote term /\
  (Dialog.contains_clause (Dialog._escape_like term) name
     = lit "lower(" ++ [dquote] ++ name ++ [dquote] ++ lit ") LIKE lower('"
       ++ (lit "%" ++ Dialog._escape_like term ++ lit "%')") /\
   read_literal (lit "%" ++ Dialog._escape_like term ++ lit "%')")
     = Some (lit "%" ++ term ++ lit "%", lit ")")) /\
  (Dialog.exact_clause (Dialog._escape_like term) name
     = lit "lower(" ++ [dquote] ++ name ++ [dquote] ++ lit ") = lower('"
       ++ (Dialog._escape_like term ++ lit "')") /\
   read_literal (Dialog._escape_like term ++ lit "')") = Some (term, lit ")")) /\
  (Dialog.prefix_clause (Dialog._escape_like term) name
     = lit "lower(" ++ [dquote] ++ name ++ [dquote] ++ lit ") LIKE lower('"
       ++ (Dialog._escape_like term ++ lit "%')") /\
   read_literal (Dialog._escape_like term ++ lit "%')")
     = Some (term ++ lit "%", lit ")")).
Proof.
  unfold Dialog._escape_like.
  split; [apply doubling_counts | split; [|split]]; split.
  - reflexivity.
  - apply (@read_literal_prefix (lit "%")).
    + cbv. intuition discriminate.
    + apply read_literal_doubled_then. reflexivity.
  - reflexivity.
  - apply (read_literal_doubled term (lit ")")). reflexivity.
  - reflexivity.
  - apply read_literal_doubled_then. reflexivity.
Qed.

(** Scenario B.  Without a free word, the expression of the first dialog
    is the refinement clause alone, whatever the join. *)
Theorem dialog_refinement_alone (layer : MapLayer) (w : Dialog.Widgets) :
  strip (Dialog.freeword_edit w) = [] ->
  Dialog.expr_text layer w
  = Dialog.refine_expr (Dialog.str_fields layer) (Dialog.refine_enable w)
      (if Dialog.refine_enable w then strip (Dialog.refine_edit w) else [])
      (currentText (Dialog.match_combo w)).
Proof.
  intro H. unfold Dialog.expr_text. rewrite H. reflexivity.
Qed.

Lemma dialog_refinement_alone_witness :
  Dialog.expr_text layer_addr_id
    {| Dialog.freeword_edit := lit "  ";
       Dialog.refine_enable := true;
       Dialog.refine_edit := lit "A";
       Dialog.match_combo := {| items := Dialog.match_items; currentIndex := 1 |};
       Dialog.join_combo := {| items := Dialog.join_items; currentIndex := 0 |} |}
  = Some (lit "(lower(" ++ addr_q ++ lit ") = lower('A'))").
Proof.
  rewrite dialog_refinement_alone; reflexivity.
Defined.

Section FurtherFacts.
Context {U : UnicodeTables}.


(** The list shown by the file search holds the paths of the first 500
    hits at most, in the order of the walk, and the count announced is
    the number of all hits. *)
Theorem file_search_shows_500_counts_all (fs : Toolbar.FileSystem)
    (i : Toolbar.FileInput) (shown : list str) (count : nat) :
  Toolbar.run_file_search fs i = Toolbar.Listed shown count ->
  exists entries found,
    Toolbar.rglob fs (strip (Toolbar.fi_folder i)) = Toolbar.Walked entries /\
    found = filter
              (Toolbar.is_hit (Toolbar._parse_exts (Toolbar.fi_ext i))
                 (Toolbar.tokens_of (strip (Toolbar.fi_free i))
                    (if Toolbar.fi_use_filter i
                     then strip (Toolbar.fi_filter i) else []))
                 (Toolbar.fi_logic i =? 0)%Z)
              entries /\
    shown = map Toolbar.e_path (firstn 500 found) /\
    count = length found /\
    length shown = Nat.min 500 count.
Proof.
  cbv beta zeta delta [Toolbar.run_file_search].
  destruct (negb (nonempty _)); [discriminate|].
  destruct (negb (Toolbar.isdir fs _)); [discriminate|].
  destruct (negb (nonempty _) && _); [discriminate|].
  destruct (Toolbar.rglob fs _) as [entries|d]; [|discriminate].
  rewrite hits_filter. intro H.
  match type of H with
  | Toolbar.Listed ?s ?c = _ =>
      assert (Hs : shown = s /\ count = c) by (split; congruence)
  end.
  destruct Hs as [-> ->]. eexists; eexists.
  split; [reflexivity | split; [reflexivity | split; [reflexivity | split]]].
  - reflexivity.
  - rewrite length_map. apply length_firstn.
Qed.

End FurtherFacts.


Lemma file_search_shows_500_counts_all_witness :
  Toolbar.run_file_search (U := ascii_tables) park_fs park_search
    = Toolbar.Listed [lit "/data/parklist.pdf"] 1 /\
  exists entries found,
    Toolbar.rglob park_fs (strip (Toolbar.fi_folder park_search))
      = Toolbar.Walked entries /\
    found = filter
              (Toolbar.is_hit (U := ascii_tables)
                 (Toolbar._parse_exts (U := ascii_tables) (Toolbar.fi_ext park_search))
                 (Toolbar.tokens_of (strip (Toolbar.fi_free park_search))
                    (if Toolbar.fi_use_filter park_search
                     then strip (Toolbar.fi_filter park_search) else []))
                 (Toolbar.fi_logic park_search =? 0)%Z)
              entries /\
    [lit "/data/parklist.pdf"] = map Toolbar.e_path (firstn 500 found) /\
    1 = length found /\
    length [lit "/data/parklist.pdf"] = Nat.min 500 1.
Proof.
  split; [reflexivity|].
  apply (@file_search_shows_500_counts_all ascii_tables park_fs park_search).
  reflexivity.
Defined.

(** The digit class of the pattern follows the Unicode database: a term
    in full-width digits is numeric whenever the database lists them as
    decimal digits, and the equality clause then holds it unquoted. *)
Theorem unicode_digits_are_numeric (U : UnicodeTables) (c : char) (field_q : str) :
  is_ascii c = false -> unicode_decimal c = true ->
  _is_number [c] = true /\
  Toolbar.typed_comparison field_q 0 [c]
    = Next (lit "(" ++ field_q ++ lit " = " ++ [c] ++ lit ")").
Proof.
  intros Ha Hd.
  assert (H : _is_number [c] = true).
  { unfold _is_number. cbn. unfold is_sign, is_digit, char_eqb, plus_sign, minus_sign.
    rewrite Ha, Hd.
    assert (Hp : (c =? 43)%N = false).
    { apply N.eqb_neq. intros ->. discriminate. }
    assert (Hm : (c =? 45)%N = false).
    { apply N.eqb_neq. intros ->. discriminate. }
    rewrite Hp, Hm. reflexivity. }
  split; [exact H|].
  unfold Toolbar.typed_comparison. rewrite H. reflexivity.
Qed.

Lemma unicode_digits_are_numeric_witness :
  _is_number (U := fullwidth_tables) [65297%N] = true /\
  Toolbar.typed_comparison (U := fullwidth_tables) addr_q 0 [65297%N]
    = Next (lit "(" ++ addr_q ++ lit " = " ++ [65297%N] ++ lit ")").
Proof.
  apply (@unicode_digits_are_numeric fullwidth_tables 65297%N addr_q); reflexivity.
Defined.

(** After [clear_all] a search stops at once with the warning that no
    layer is selected. *)
Theorem search_after_clear_all_has_no_layer {U : UnicodeTables} (h : Host)
    (project : list MapLayer) (w : Toolbar.World) :
  Toolbar.layer_box_filled (Toolbar.dlg w) ->
  Toolbar.run_search h
    (Toolbar._get_selected_layer project (Toolbar.after_clear_all project w))
    (Toolbar.search_input_of (Toolbar.after_clear_all project w))
  = [PushWarning Toolbar.NoLayer].
Proof.
  intros Hfilled.
  assert (Hsel : Toolbar._get_selected_layer project
                   (Toolbar.after_clear_all project w) = None).
  { destruct (clear_all_steps project w Hfilled) as [-> _].
    apply blank_entry_selects_nothing.
    destruct Hfilled as (names & Hitems).
    destruct (Toolbar.dlg w) as
      [free chk arrow vis logic use field op filter layer info tbl files folder ext last].
    destruct layer as [its idx]. cbn in Hitems. subst its.
    apply (first_entry_blank names idx). }
  rewrite Hsel. reflexivity.
Qed.

Lemma search_after_clear_all_has_no_layer_witness :
  Toolbar.run_search (U := ascii_tables) quiet_host
    (Toolbar._get_selected_layer [layer_addr_id]
       (Toolbar.after_clear_all [layer_addr_id] busy_world))
    (Toolbar.search_input_of (Toolbar.after_clear_all [layer_addr_id] busy_world))
  = [PushWarning Toolbar.NoLayer].
Proof.
  apply (@search_after_clear_all_has_no_layer ascii_tables quiet_host
           [layer_addr_id] busy_world).
  exists [lit "town"]. reflexivity.
Defined.

Section LayerBoxFacts.
Context {U : UnicodeTables}.

Lemma In_insert_by_name (x y : MapLayer) (sorted : list MapLayer) :
  In x (Toolbar.insert_by_name y sorted) <-> x = y \/ In x sorted.
Proof.
  induction sorted as [|z sorted IH]; cbn [Toolbar.insert_by_name].
  - cbn. intuition.
  - destruct (Toolbar.str_ltb _ _); cbn [In].
    + intuition.
    + rewrite IH. intuition.
Qed.

Lemma In_sort_from (x : MapLayer) (layers sorted : list MapLayer) :
  In x (fold_left (fun sorted y => Toolbar.insert_by_name y sorted) layers sorted)
  <-> In x layers \/ In x sorted.
Proof.
  revert sorted. induction layers as [|y layers IH]; intro sorted; cbn [fold_left].
  - cbn. intuition.
  - rewrite IH, In_insert_by_name. cbn [In]. intuition.
Qed.

(** Sorting neither loses nor adds a layer. *)
Lemma In_sort_by_name (x : MapLayer) (layers : list MapLayer) :
  In x (Toolbar.sort_by_name layers) <-> In x layers.
Proof.
  unfold Toolbar.sort_by_name. rewrite In_sort_from. cbn. intuition.
Qed.

(** After [refresh_layers] the layer box holds the blank entry and then
    the names of the vector layers of the project, in sorted order: every
    vector layer is listed, and nothing else is. *)
Theorem refresh_layers_lists_vector_layers (project : list MapLayer)
    (w : Toolbar.World) :
  items (Toolbar.combo_layer (Toolbar.dlg (Toolbar.refresh_layers project w)))
    = [] :: map l_name (Toolbar.sort_by_name (filter is_vector project)) /\
  (forall name,
     In name (map l_name (Toolbar.sort_by_name (filter is_vector project))) <->
     exists lyr, In lyr project /\ is_vector lyr = true /\ l_name lyr = name).
Proof.
  split; [apply refresh_layers_fills_layer_box|].
  intro name. rewrite in_map_iff. split.
  - intros (lyr & Hname & Hin). apply In_sort_by_name, filter_In in Hin.
    exists lyr. intuition.
  - intros (lyr & Hin & Hv & Hname). exists lyr. split; [exact Hname|].
    apply In_sort_by_name, filter_In. auto.
Qed.

End LayerBoxFacts.

(** ** The settings of the toolbar dialog *)

Lemma stored_Some {A : Type} (key : Toolbar.Saved -> A) (default : A)
    (w : Toolbar.World) (s : Toolbar.Saved) :
  Toolbar.settings w = Some s -> Toolbar.stored key default w = key s.
Proof. intro H. unfold Toolbar.stored. rewrite H. reflexivity. Qed.

Lemma set_edit_free_same (w : Toolbar.World) :
  Toolbar.set_edit_free (Toolbar.edit_free (Toolbar.dlg w)) w = w.
Proof.
  unfold Toolbar.set_edit_free. rewrite str_eqb_refl.
  destruct w as [d s c]; destruct d; reflexivity.
Qed.

Lemma set_edit_filter_same (w : Toolbar.World) :
  Toolbar.set_edit_filter (Toolbar.edit_filter (Toolbar.dlg w)) w = w.
Proof.
  unfold Toolbar.set_edit_filter. rewrite str_eqb_refl.
  destruct w as [d s c]; destruct d; reflexivity.
Qed.

Lemma set_edit_folder_same (w : Toolbar.World) :
  Toolbar.set_edit_folder (Toolbar.edit_folder (Toolbar.dlg w)) w = w.
Proof.
  unfold Toolbar.set_edit_folder. rewrite str_eqb_refl.
  destruct w as [d s c]; destruct d; reflexivity.
Qed.

Lemma set_edit_ext_same (w : Toolbar.World) :
  Toolbar.set_edit_ext (Toolbar.edit_ext (Toolbar.dlg w)) w = w.
Proof.
  unfold Toolbar.set_edit_ext. rewrite str_eqb_refl.
  destruct w as [d s c]; destruct d; reflexivity.
Qed.

Lemma set_chk_use_filter_same (w : Toolbar.World) :
  Toolbar.set_chk_use_filter (Toolbar.chk_use_filter (Toolbar.dlg w)) w = w.
Proof.
  unfold Toolbar.set_chk_use_filter. rewrite Bool.eqb_reflx.
  destruct w as [d s c]; destruct d; reflexivity.
Qed.

(** Setting a box to the index it has changes nothing. *)
Lemma setCurrentIndex_same (cb : QComboBox) :
  Toolbar.index_in_range cb -> setCurrentIndex (currentIndex cb) cb = cb.
Proof.
  unfold Toolbar.index_in_range, setCurrentIndex. intro H.
  destruct cb as [its idx]; cbn [items currentIndex] in *.
  f_equal.
  destruct (0 <=? idx)%Z eqn:E0; destruct (idx <? Z.of_nat (length its))%Z eqn:E1;
    cbn [andb]; try reflexivity.
  - apply Z.ltb_ge in E1. lia.
  - apply Z.leb_gt in E0. lia.
  - apply Z.leb_gt in E0. lia.
Qed.

Lemma set_combo_logic_same (w : Toolbar.World) :
  Toolbar.index_in_range (Toolbar.combo_logic (Toolbar.dlg w)) ->
  Toolbar.set_combo_logic (currentIndex (Toolbar.combo_logic (Toolbar.dlg w))) w = w.
Proof.
  intro H. unfold Toolbar.set_combo_logic. cbv zeta.
  rewrite (setCurrentIndex_same H), Z.eqb_refl.
  destruct w as [d s c]; destruct d; reflexivity.
Qed.

Lemma set_combo_op_same (w : Toolbar.World) :
  Toolbar.index_in_range (Toolbar.combo_op (Toolbar.dlg w)) ->
  Toolbar.set_combo_op (currentIndex (Toolbar.combo_op (Toolbar.dlg w))) w = w.
Proof.
  intro H. unfold Toolbar.set_combo_op. cbv zeta.
  rewrite (setCurrentIndex_same H), Z.eqb_refl.
  destruct w as [d s c]; destruct d; reflexivity.
Qed.

Lemma set_combo_field_same (w : Toolbar.World) :
  Toolbar.index_in_range (Toolbar.combo_field (Toolbar.dlg w)) ->
  Toolbar.set_combo_field (currentIndex (Toolbar.combo_field (Toolbar.dlg w))) w = w.
Proof.
  intro H. unfold Toolbar.set_combo_field. cbv zeta.
  rewrite (setCurrentIndex_same H), Z.eqb_refl.
  destruct w as [d s c]; destruct d; reflexivity.
Qed.

Lemma set_combo_layer_same (project : list MapLayer) (w : Toolbar.World) :
  Toolbar.index_in_range (Toolbar.combo_layer (Toolbar.dlg w)) ->
  Toolbar.set_combo_layer project
    (currentIndex (Toolbar.combo_layer (Toolbar.dlg w))) w = w.
Proof.
  intro H. unfold Toolbar.set_combo_layer. cbv zeta.
  rewrite (setCurrentIndex_same H), Z.eqb_refl.
  destruct w as [d s c]; destruct d; reflexivity.
Qed.

(** A box that shows a text has its index among its items. *)
Lemma shown_text_in_range (cb : QComboBox) :
  nonempty (currentText cb) = true -> Toolbar.index_in_range cb /\ (0 <= currentIndex cb)%Z.
Proof.
  unfold currentText, Toolbar.index_in_range. intro H.
  destruct (currentIndex cb <? 0)%Z eqn:E; [discriminate|].
  apply Z.ltb_ge in E.
  destruct (Z_lt_ge_dec (currentIndex cb) (Z.of_nat (length (items cb)))) as [Hlt|Hge].
  - lia.
  - rewrite nth_overflow in H by lia. discriminate.
Qed.

Lemma advanced_as_checked_snapshot (d : Toolbar.Dlg) :
  Toolbar.snapshot (Toolbar.advanced_as_checked d) = Toolbar.snapshot d.
Proof. destruct d; reflexivity. Qed.

Lemma advanced_as_checked_restorable (d : Toolbar.Dlg) :
  Toolbar.restorable d -> Toolbar.restorable (Toolbar.advanced_as_checked d).
Proof. destruct d; exact (fun H => H). Qed.

(** The first statement of a sequence is evaluated on its own. *)
Ltac head_let :=
  match goal with
  | |- (let x := ?v in @?b x) = ?r => change (b v = r); cbv beta
  end.

(** [_restore_state] while the settings hold what the widgets show: only
    the advanced part is set again, to the state of its button. *)
Lemma restore_own_snapshot (project : list MapLayer) (w : Toolbar.World) :
  Toolbar.settings w = Some (Toolbar.snapshot (Toolbar.dlg w)) ->
  Toolbar.restorable (Toolbar.dlg w) ->
  Toolbar._restore_state project w = Toolbar.on_dlg Toolbar.advanced_as_checked w.
Proof.
  intros Hs Hr. cbv beta delta [Toolbar._restore_state].
  rewrite (stored_Some Toolbar.s_free [] w Hs
             : Toolbar.stored Toolbar.s_free [] w = Toolbar.edit_free (Toolbar.dlg w)).
  rewrite set_edit_free_same. head_let.
  rewrite (stored_Some Toolbar.s_adv_expanded false w Hs
             : Toolbar.stored Toolbar.s_adv_expanded false w = Toolbar.toggle_adv_checked (Toolbar.dlg w)). head_let.
  assert (Hadv : Toolbar._set_advanced_collapsed
                   (negb (Toolbar.toggle_adv_checked (Toolbar.dlg w))) w
                 = Toolbar.on_dlg Toolbar.advanced_as_checked w).
  { unfold Toolbar._set_advanced_collapsed, Toolbar.advanced_as_checked.
    destruct w as [d s c]; destruct d as
      [free chk arrow vis logic use field op filter layer info tbl files folder ext last].
    destruct chk; reflexivity. }
  rewrite Hadv. clear Hadv.
  remember (Toolbar.on_dlg Toolbar.advanced_as_checked w) as v eqn:Ev.
  assert (Hsv : Toolbar.settings v = Some (Toolbar.snapshot (Toolbar.dlg v))).
  { subst v. rewrite dlg_on_dlg, advanced_as_checked_snapshot. exact Hs. }
  assert (Hrv : Toolbar.restorable (Toolbar.dlg v)).
  { subst v. rewrite dlg_on_dlg. apply advanced_as_checked_restorable, Hr. }
  clear Ev Hs Hr w. destruct Hrv as (Hlogic & Hop & Hlayer & Hfield).
  head_let.
  rewrite (stored_Some Toolbar.s_logic 0%Z v Hsv
             : Toolbar.stored Toolbar.s_logic 0%Z v = currentIndex (Toolbar.combo_logic (Toolbar.dlg v))).
  rewrite (set_combo_logic_same v Hlogic). head_let.
  rewrite (stored_Some Toolbar.s_use_filter false v Hsv
             : Toolbar.stored Toolbar.s_use_filter false v = Toolbar.chk_use_filter (Toolbar.dlg v)).
  rewrite set_chk_use_filter_same. head_let.
  rewrite (stored_Some Toolbar.s_op 0%Z v Hsv
             : Toolbar.stored Toolbar.s_op 0%Z v = currentIndex (Toolbar.combo_op (Toolbar.dlg v))).
  rewrite (set_combo_op_same v Hop). head_let.
  rewrite (stored_Some Toolbar.s_filter_text [] v Hsv
             : Toolbar.stored Toolbar.s_filter_text [] v = Toolbar.edit_filter (Toolbar.dlg v)).
  rewrite set_edit_filter_same. head_let.
  rewrite (stored_Some Toolbar.s_folder [] v Hsv
             : Toolbar.stored Toolbar.s_folder [] v = Toolbar.edit_folder (Toolbar.dlg v)).
  rewrite set_edit_folder_same. head_let.
  rewrite (stored_Some Toolbar.s_ext (Toolbar.edit_ext (Toolbar.dlg v)) v Hsv
             : Toolbar.stored Toolbar.s_ext (Toolbar.edit_ext (Toolbar.dlg v)) v = Toolbar.edit_ext (Toolbar.dlg v)).
  rewrite set_edit_ext_same. head_let.
  rewrite (stored_Some Toolbar.s_layer_name [] v Hsv
             : Toolbar.stored Toolbar.s_layer_name [] v = currentText (Toolbar.combo_layer (Toolbar.dlg v))). head_let.
  assert (Hl : (if nonempty (currentText (Toolbar.combo_layer (Toolbar.dlg v)))
                then
                  let idx := findText (currentText (Toolbar.combo_layer (Toolbar.dlg v)))
                               (Toolbar.combo_layer (Toolbar.dlg v)) in
                  if (0 <=? idx)%Z then Toolbar.set_combo_layer project idx v else v
                else v) = v).
  { destruct (nonempty (currentText (Toolbar.combo_layer (Toolbar.dlg v)))) eqn:En;
      [|reflexivity].
    destruct (shown_text_in_range _ En) as [Hin H0].
    destruct Hlayer as [He|Hf]; [rewrite He in En; discriminate|].
    cbv zeta. rewrite Hf.
    destruct (0 <=? _)%Z; [apply (set_combo_layer_same project v Hin) | reflexivity]. }
  rewrite Hl. clear Hl. head_let.
  rewrite (stored_Some Toolbar.s_field [] v Hsv
             : Toolbar.stored Toolbar.s_field [] v = currentText (Toolbar.combo_field (Toolbar.dlg v))).
  head_let.
  destruct (nonempty (currentText (Toolbar.combo_field (Toolbar.dlg v)))) eqn:En;
    [|reflexivity].
  destruct (shown_text_in_range _ En) as [Hin H0].
  destruct Hfield as [He|Hf]; [rewrite He in En; discriminate|].
  cbv zeta. rewrite Hf.
  destruct (0 <=? _)%Z; [apply (set_combo_field_same v Hin) | reflexivity].
Qed.

(** Items added to a box that has some leave its current index alone. *)
Lemma addItems_keep_index {A : Type} (name : A -> str) (l : list A) (cb : QComboBox) :
  items cb <> [] ->
  fold_left (fun box x => addItem (name x) box) l cb
  = {| items := items cb ++ map name l; currentIndex := currentIndex cb |}.
Proof.
  revert cb. induction l as [|x l IH]; intros cb Hne; cbn [fold_left map].
  - rewrite app_nil_r. destruct cb; reflexivity.
  - rewrite IH.
    + cbn [addItem items currentIndex]. rewrite <- app_assoc.
      destruct (items cb); [contradiction|reflexivity].
    + cbn [addItem items]. destruct (items cb); discriminate.
Qed.

(** The dialog after [refresh_layers] on the widgets of [_build_ui]:
    nothing is chosen, and the settings are written over. *)
Lemma refresh_layers_on_built {U : UnicodeTables} (project : list MapLayer)
    (store : option Toolbar.Saved) :
  Toolbar.refresh_layers project
    {| Toolbar.dlg := Toolbar.built_dlg; Toolbar.settings := store;
       Toolbar.calls := [] |}
  = {| Toolbar.dlg :=
         Toolbar.put_combo_layer
           {| items := [] :: Toolbar.vector_layer_names project; currentIndex := 0 |}
           Toolbar.built_dlg;
       Toolbar.settings := Some Toolbar.built_settings;
       Toolbar.calls := [] |}.
Proof.
  unfold Toolbar.refresh_layers, Toolbar.vector_layer_names.
  cbn [Toolbar.dlg Toolbar.built_dlg Toolbar.combo_layer].
  rewrite addItems_keep_index by discriminate.
  reflexivity.
Qed.

Lemma opened_dlg_restorable (names : list str) :
  Toolbar.restorable
    (Toolbar.put_combo_layer {| items := [] :: names; currentIndex := 0 |}
       Toolbar.built_dlg).
Proof.
  unfold Toolbar.restorable, Toolbar.index_in_range, Toolbar.current_is_first.
  cbn. repeat split; try lia; left; reflexivity.
Qed.

(** The dialog as [__init__] leaves it. *)
Lemma dialog_as_created {U : UnicodeTables} (project : list MapLayer)
    (store : option Toolbar.Saved) :
  Toolbar.__init__ project store
  = {| Toolbar.dlg := Toolbar.opened_dlg (Toolbar.vector_layer_names project);
       Toolbar.settings := Some Toolbar.built_settings;
       Toolbar.calls := [] |}.
Proof.
  unfold Toolbar.__init__. cbv zeta.
  rewrite refresh_layers_on_built.
  rewrite restore_own_snapshot;
    [| reflexivity | apply opened_dlg_restorable].
  reflexivity.
Qed.

(** X8. Whatever the settings hold when the dialog is created, it opens
    with the widgets of [_build_ui] (layer box filled, nothing chosen,
    the advanced part hidden), and the settings then hold these values:
    [refresh_layers] saves the fresh widgets before [_restore_state]
    reads the settings.  The deferred [on_layer_changed] changes nothing
    any more. *)
Theorem startup_ignores_saved_settings {U : UnicodeTables}
    (project : list MapLayer) (store : option Toolbar.Saved) :
  Toolbar.dlg (Toolbar.__init__ project store)
    = Toolbar.opened_dlg (Toolbar.vector_layer_names project) /\
  Toolbar.settings (Toolbar.__init__ project store) = Some Toolbar.built_settings /\
  Toolbar.calls (Toolbar.__init__ project store) = [] /\
  Toolbar.on_layer_changed project (Toolbar.__init__ project store)
    = Toolbar.__init__ project store.
Proof.
  rewrite dialog_as_created. repeat split; reflexivity.
Qed.

(** X9. Round trip of the settings: after [_save_state], [_restore_state]
    puts every widget where it is and writes nothing, when the boxes show
    the first item with their text and the advanced part is in the state
    of its button. *)
Theorem restore_after_save_changes_nothing (project : list MapLayer)
    (w : Toolbar.World) :
  Toolbar.restorable (Toolbar.dlg w) ->
  Toolbar.advanced_consistent (Toolbar.dlg w) ->
  Toolbar._restore_state project (Toolbar._save_state w) = Toolbar._save_state w.
Proof.
  intros Hr [Hvis Harrow].
  rewrite restore_own_snapshot; [| reflexivity | exact Hr].
  destruct w as [d s c]; destruct d as
    [free chk arrow vis logic use field op filter layer info tbl files folder ext last].
  cbn in Hvis, Harrow. subst vis arrow. reflexivity.
Qed.

Lemma restore_after_save_changes_nothing_witness :
  Toolbar._restore_state [layer_addr_id] (Toolbar._save_state busy_world)
  = Toolbar._save_state busy_world.
Proof.
  apply (restore_after_save_changes_nothing [layer_addr_id] busy_world).
  - unfold Toolbar.restorable, Toolbar.index_in_range, Toolbar.current_is_first.
    cbn. repeat split; try lia; right; reflexivity.
  - split; reflexivity.
Defined.



(** ** The escaping of the toolbar, read back *)

Lemma replace_app (old : char) (new a b : str) :
  replace old new (a ++ b) = replace old new a ++ replace old new b.
Proof. unfold replace. apply flat_map_app. Qed.

(** The three replacements in a row escape each character on its own:
    the backslashes put before [%] and [_] are not escaped again. *)
Lemma toolbar_escape_by_char (s : str) :
  Toolbar._escape_like s = flat_map Toolbar.escape_char s.
Proof.
  unfold Toolbar._escape_like.
  induction s as [|c s IH]; [reflexivity|].
  change (c :: s) with ([c] ++ s).
  rewrite !replace_app, IH. cbn [flat_map app]. f_equal.
  unfold Toolbar.escape_char, replace. cbn [flat_map app].
  destruct (char_eqb c backslash) eqn:Eb.
  - apply char_eqb_eq in Eb. subst c. reflexivity.
  - destruct (char_eqb c percent) eqn:Ep.
    + apply char_eqb_eq in Ep. subst c. reflexivity.
    + cbn [flat_map app]. rewrite Ep. cbn [flat_map app orb].
      destruct (char_eqb c underscore) eqn:Eu; [|reflexivity].
      apply char_eqb_eq in Eu. subst c. reflexivity.
Qed.

Lemma unescape_escape_char (c : char) (t : str) :
  Toolbar.unescape (Toolbar.escape_char c ++ t) = c :: Toolbar.unescape t /\
  Toolbar.bare_wildcards (Toolbar.escape_char c ++ t) = Toolbar.bare_wildcards t.
Proof.
  unfold Toolbar.escape_char.
  destruct (char_eqb c backslash) eqn:Eb; cbn [orb app].
  - split; reflexivity.
  - destruct (char_eqb c percent || char_eqb c underscore) eqn:Ew; cbn [app].
    + split; reflexivity.
    + cbn [Toolbar.unescape Toolbar.bare_wildcards]. rewrite Eb, Ew. split; reflexivity.
Qed.

(** X11. What [_escape_like] of the toolbar writes can be read back:
    its three replacements escape each character on its own, so dropping
    the escaping backslashes gives the term again, no [%] or [_] of the
    term is left as a wildcard, and two terms never share a pattern. *)
Theorem toolbar_escape_reads_back (s t : str) :
  Toolbar._escape_like s = flat_map Toolbar.escape_char s /\
  Toolbar.unescape (Toolbar._escape_like s) = s /\
  Toolbar.bare_wildcards (Toolbar._escape_like s) = 0%nat /\
  (Toolbar._escape_like s = Toolbar._escape_like t <-> s = t).
Proof.
  split; [apply toolbar_escape_by_char|].
  assert (Hback : forall u, Toolbar.unescape (Toolbar._escape_like u) = u).
  { intro u. rewrite toolbar_escape_by_char.
    induction u as [|c u IH]; [reflexivity|].
    cbn [flat_map]. destruct (unescape_escape_char c (flat_map Toolbar.escape_char u))
      as [-> _]. rewrite IH. reflexivity. }
  split; [apply Hback|]. split.
  - rewrite toolbar_escape_by_char.
    induction s as [|c s IH]; [reflexivity|].
    cbn [flat_map]. destruct (unescape_escape_char c (flat_map Toolbar.escape_char s))
      as [_ ->]. exact IH.
  - split; [|intros ->; reflexivity].
    intro H. rewrite <- (Hback s), <- (Hback t), H. reflexivity.
Qed.

(** ** The list of extensions *)

Lemma lstrip_dots_no_dot (s : str) : startswith [dot] (lstrip_dots s) = false.
Proof.
  unfold lstrip_dots. induction s as [|c s IH]; [reflexivity|].
  cbn [lstrip_by]. destruct (char_eqb dot c) eqn:E; [exact IH|].
  cbn [startswith]. rewrite E. reflexivity.
Qed.

(** The loop of [_parse_exts] that drops empty and repeated parts. *)
Lemma parse_exts_loop (parts out : list str) :
  NoDup out ->
  NoDup (fold_left
           (fun out p => if nonempty p && negb (Toolbar.str_in p out)
                         then out ++ [p] else out) parts out) /\
  (forall e,
     In e (fold_left
             (fun out p => if nonempty p && negb (Toolbar.str_in p out)
                           then out ++ [p] else out) parts out)
     <-> In e out \/ (e <> [] /\ In e parts)).
Proof.
  revert out. induction parts as [|p parts IH]; intros out Hnd; cbn [fold_left].
  - split; [exact Hnd|]. intro e. split; [auto | intros [H|[_ []]]; exact H].
  - destruct (nonempty p) eqn:Ep; cbn [andb].
    + destruct (Toolbar.str_in p out) eqn:Ein; cbn [negb].
      * destruct (IH out Hnd) as [H1 H2]. split; [exact H1|].
        intro e. rewrite H2. apply str_in_In in Ein. split.
        -- intros [H|[Hne H]]; [left; exact H | right; split; [exact Hne | right; exact H]].
        -- intros [H|[Hne [<-|H]]]; [left; exact H | left; exact Ein | right; auto].
      * assert (Hnin : ~ In p out).
        { intro H. apply str_in_In in H. rewrite H in Ein. discriminate. }
        assert (Hnd' : NoDup (out ++ [p])).
        { apply NoDup_app; [exact Hnd | constructor; [intros [] | constructor] |].
          intros x Hx [<-|[]]. exact (Hnin Hx). }
        destruct (IH (out ++ [p]) Hnd') as [H1 H2]. split; [exact H1|].
        intro e. rewrite H2, in_app_iff. cbn [In]. apply nonempty_true in Ep. split.
        -- intros [[H|[<-|[]]]|[Hne H]].
           ++ left; exact H.
           ++ right. split; [exact Ep | left; reflexivity].
           ++ right. split; [exact Hne | right; exact H].
        -- intros [H|[Hne [<-|H]]].
           ++ left; left; exact H.
           ++ left; right; left; reflexivity.
           ++ right. split; [exact Hne | exact H].
    + destruct (IH out Hnd) as [H1 H2]. split; [exact H1|].
      intro e. rewrite H2. split.
      * intros [H|[Hne H]].
        -- left; exact H.
        -- right. split; [exact Hne | right; exact H].
      * intros [H|[Hne [<-|H]]].
        -- left; exact H.
        -- destruct p; [contradiction | discriminate].
        -- right. split; [exact Hne | exact H].
Qed.

Section ExtensionFacts.
Context {U : UnicodeTables}.

(** X12. The list [_parse_exts] reads from the extensions box is in
    normal form: no entry twice, no empty entry, no entry with a leading
    point; its entries are the comma-separated parts that are not blank,
    stripped, lower-cased and without their leading points, as far as
    something is left of them. *)
Theorem parse_exts_normal_form (raw : str) :
  NoDup (Toolbar._parse_exts raw) /\
  (forall e, In e (Toolbar._parse_exts raw) ->
     e <> [] /\ startswith [dot] e = false) /\
  (forall e, In e (Toolbar._parse_exts raw) <->
     e <> [] /\
     exists p, In p (Toolbar.split_on Toolbar.comma raw) /\ strip p <> [] /\
               e = lstrip_dots (lower (strip p))).
Proof.
  unfold Toolbar._parse_exts. cbv zeta.
  match goal with
  | |- context [fold_left _ ?parts []] =>
      destruct (parse_exts_loop parts (NoDup_nil _)) as [Hnd Hin]
  end.
  assert (Hparts : forall e,
    In e (map (fun p => lstrip_dots (lower (strip p)))
            (filter (fun p => nonempty (strip p)) (Toolbar.split_on Toolbar.comma raw)))
    <-> exists p, In p (Toolbar.split_on Toolbar.comma raw) /\ strip p <> [] /\
                  e = lstrip_dots (lower (strip p))).
  { intro e. rewrite in_map_iff. split.
    - intros (p & <- & Hp). apply filter_In in Hp. destruct Hp as [Hp Hne].
      exists p. split; [exact Hp|]. split; [apply nonempty_true, Hne | reflexivity].
    - intros (p & Hp & Hne & ->). exists p. split; [reflexivity|].
      apply filter_In. split; [exact Hp | apply nonempty_true, Hne]. }
  split; [exact Hnd|]. split.
  - intros e He. apply Hin in He. destruct He as [[]|[Hne He]].
    split; [exact Hne|]. apply Hparts in He. destruct He as (p & _ & _ & ->).
    apply lstrip_dots_no_dot.
  - intro e. rewrite Hin, Hparts. split.
    + intros [[]|H]; exact H.
    + intro H. right. exact H.
Qed.

End ExtensionFacts.

(** ** The extension of a file name *)

Lemma rfind_from_absent (i found : Z) (c : char) (s : str) :
  ~ In c s -> Toolbar.rfind_from i found c s = found.
Proof.
  revert i found. induction s as [|x s IH]; intros i found Hnin; [reflexivity|].
  cbn [Toolbar.rfind_from].
  destruct (char_eqb x c) eqn:E.
  - apply char_eqb_eq in E. subst x. exfalso. apply Hnin. left. reflexivity.
  - apply IH. intro H. apply Hnin. right. exact H.
Qed.

Lemma rfind_from_last (i found : Z) (c : char) (a b : str) :
  ~ In c b ->
  Toolbar.rfind_from i found c (a ++ c :: b) = (i + Z.of_nat (length a))%Z.
Proof.
  intro Hnin. revert i found. induction a as [|x a IH]; intros i found.
  - cbn [app Toolbar.rfind_from length]. rewrite char_eqb_refl.
    rewrite (@rfind_from_absent _ _ _ _ Hnin). lia.
  - cbn [app Toolbar.rfind_from]. rewrite IH. cbn [length]. lia.
Qed.

Lemma suffix_of_stem_and_ext (stem ext : str) :
  stem <> [] -> ext <> [] -> ~ In dot ext ->
  Toolbar.suffix (stem ++ dot :: ext) = dot :: ext.
Proof.
  intros Hs He Hnin. unfold Toolbar.suffix, Toolbar.rfind. cbv zeta.
  rewrite (@rfind_from_last 0 (-1) dot stem ext Hnin).
  rewrite length_app. cbn [length].
  assert (0 < length stem)%nat by (destruct stem; [contradiction | cbn; lia]).
  assert (0 < length ext)%nat by (destruct ext; [contradiction | cbn; lia]).
  replace (0 <? 0 + Z.of_nat (length stem))%Z with true
    by (symmetry; apply Z.ltb_lt; lia).
  replace (0 + Z.of_nat (length stem)
           <? Z.of_nat (length stem + S (length ext)) - 1)%Z with true
    by (symmetry; apply Z.ltb_lt; lia).
  cbn [andb]. replace (Z.to_nat (0 + Z.of_nat (length stem))) with (length stem) by lia.
  rewrite skipn_app, skipn_all, Nat.sub_diag. reflexivity.
Qed.

Lemma suffix_absent (name : str) :
  Toolbar.without_suffix name -> Toolbar.suffix name = [].
Proof.
  unfold Toolbar.suffix, Toolbar.rfind. cbv zeta.
  intros [Hnin | [(rest & -> & Hnin) | (stem & ->)]].
  - rewrite (@rfind_from_absent _ _ _ _ Hnin). reflexivity.
  - change (dot :: rest) with ([] ++ dot :: rest).
    rewrite (@rfind_from_last 0 (-1) dot [] rest Hnin). reflexivity.
  - rewrite (@rfind_from_last 0 (-1) dot stem [] (fun H => H)).
    rewrite length_app. cbn [length].
    replace (0 + Z.of_nat (length stem) <? Z.of_nat (length stem + 1) - 1)%Z
      with false by (symmetry; apply Z.ltb_ge; lia).
    rewrite andb_false_r. reflexivity.
Qed.

Lemma ascii_lower_not_dot (c : char) : c <> dot -> char_eqb dot (ascii_lower c) = false.
Proof.
  intro H. unfold ascii_lower, char_eqb, dot in *.
  destruct ((65 <=? c)%N && (c <=? 90)%N) eqn:E.
  - apply andb_true_iff in E. destruct E as [E1 E2].
    apply N.leb_le in E1. apply N.leb_le in E2. apply N.eqb_neq. lia.
  - apply N.eqb_neq. intro Heq. apply H. symmetry. exact Heq.
Qed.

Section SuffixFacts.
Context {U : UnicodeTables}.

(** X13. The extension the file search compares: for a name made of a
    stem, a point and an ASCII extension without a point, it is the
    extension in lower case, so the comparison with the list does not
    depend on the case of the file name. *)
Theorem extension_of_ascii_name (p : Toolbar.Entry) (stem ext : str) :
  Toolbar.e_name p = stem ++ dot :: ext ->
  stem <> [] -> ext <> [] -> ~ In dot ext -> forallb is_ascii ext = true ->
  Toolbar.extension p = map ascii_lower ext.
Proof.
  intros Hname Hs He Hnin Hascii. unfold Toolbar.extension.
  rewrite Hname, (suffix_of_stem_and_ext Hs He Hnin).
  unfold lower. cbn [forallb]. rewrite Hascii. cbn [andb is_ascii dot N.ltb N.compare
    Pos.compare Pos.compare_cont map].
  change (ascii_lower dot) with dot.
  unfold lstrip_dots. cbn [lstrip_by]. rewrite char_eqb_refl.
  destruct ext as [|c ext]; [contradiction|].
  cbn [map lstrip_by]. rewrite ascii_lower_not_dot; [reflexivity|].
  intro Hc. apply Hnin. left. exact Hc.
Qed.

(** X14. While the list of extensions is not empty, no file whose name
    has no suffix (no point, only a leading point, or a point at the end)
    is found, whatever the keywords. *)
Theorem names_without_suffix_never_pass (raw : str) (tokens : list str)
    (logic_and : bool) (p : Toolbar.Entry) :
  Toolbar._parse_exts raw <> [] ->
  Toolbar.without_suffix (Toolbar.e_name p) ->
  Toolbar.is_hit (Toolbar._parse_exts raw) tokens logic_and p = false.
Proof.
  intros Hne Hno. unfold Toolbar.is_hit, Toolbar.extension.
  rewrite (suffix_absent Hno).
  destruct (Toolbar.e_is_file p); [|reflexivity]. cbn [negb].
  assert (Hin : Toolbar.str_in (lstrip_dots (lower [])) (Toolbar._parse_exts raw) = false).
  { destruct (Toolbar.str_in _ _) eqn:E; [|reflexivity].
    apply str_in_In in E. unfold Toolbar._parse_exts in E. cbv zeta in E.
    match type of E with
    | In _ (fold_left _ ?parts []) =>
        destruct (parse_exts_loop parts (NoDup_nil _)) as [_ Hin]
    end.
    apply Hin in E. destruct E as [[]|[Hnil _]]. exfalso. apply Hnil. reflexivity. }
  rewrite Hin.
  destruct (Toolbar._parse_exts raw); [contradiction|reflexivity].
Qed.

End SuffixFacts.

Lemma extension_of_ascii_name_witness :
  Toolbar.extension (U := ascii_tables) (file_entry "parklist.PDF") = lit "pdf".
Proof.
  apply (extension_of_ascii_name (U := ascii_tables) (file_entry "parklist.PDF")
           (stem := lit "parklist") (ext := lit "PDF")).
  - reflexivity.
  - discriminate.
  - discriminate.
  - cbn. intros [H|[H|[H|[]]]]; discriminate.
  - reflexivity.
Defined.

Lemma names_without_suffix_never_pass_witness :
  Toolbar.is_hit (U := ascii_tables)
    (Toolbar._parse_exts (U := ascii_tables) (lit "pdf, png")) [lit "READ"] true
    (file_entry "README") = false.
Proof.
  apply (names_without_suffix_never_pass (U := ascii_tables)).
  - vm_compute. discriminate.
  - left. cbn. intros [H|[H|[H|[H|[H|[H|[]]]]]]]; discriminate.
Defined.

(** ** The order of the layer box *)

Lemma str_ltb_trans (a b c : str) :
  Toolbar.str_ltb a b = true -> Toolbar.str_ltb b c = true ->
  Toolbar.str_ltb a c = true.
Proof.
  revert b c. induction a as [|x a IH]; intros [|y b] [|z c];
    cbn [Toolbar.str_ltb]; try discriminate; try reflexivity.
  unfold char_eqb.
  destruct (N.ltb_spec x y), (N.eqb_spec x y), (N.ltb_spec y z), (N.eqb_spec y z),
    (N.ltb_spec x z), (N.eqb_spec x z); cbn [orb andb];
    try discriminate; try reflexivity; try lia.
  apply IH.
Qed.

Lemma str_ltb_asym (a b : str) :
  Toolbar.str_ltb a b = true -> Toolbar.str_ltb b a = false.
Proof.
  revert b. induction a as [|x a IH]; intros [|y b];
    cbn [Toolbar.str_ltb]; try discriminate; try reflexivity.
  unfold char_eqb.
  destruct (N.ltb_spec x y), (N.eqb_spec x y), (N.ltb_spec y x), (N.eqb_spec y x);
    cbn [orb andb]; try discriminate; try reflexivity; try lia.
  apply IH.
Qed.

Lemma str_ltb_total (a b : str) :
  Toolbar.str_ltb a b = false -> Toolbar.str_ltb b a = false -> a = b.
Proof.
  revert b. induction a as [|x a IH]; intros [|y b];
    cbn [Toolbar.str_ltb]; try discriminate; try reflexivity.
  unfold char_eqb.
  destruct (N.ltb_spec x y), (N.eqb_spec x y), (N.ltb_spec y x), (N.eqb_spec y x);
    cbn [orb andb]; try discriminate; try lia.
  intros H1 H2. subst y. f_equal. apply IH; assumption.
Qed.

Lemma str_le_trans (a b c : str) :
  Toolbar.str_ltb b a = false -> Toolbar.str_ltb c b = false ->
  Toolbar.str_ltb c a = false.
Proof.
  intros Hab Hbc.
  destruct (Toolbar.str_ltb c a) eqn:Hca; [|reflexivity].
  destruct (Toolbar.str_ltb a b) eqn:Hlt.
  - rewrite (str_ltb_trans _ _ _ Hca Hlt) in Hbc. discriminate.
  - rewrite (str_ltb_total _ _ Hlt Hab) in Hca. rewrite Hca in Hbc. discriminate.
Qed.

Section SortFacts.
Context {U : UnicodeTables}.

Lemma insert_by_name_sorted (x : MapLayer) (sorted : list MapLayer) :
  StronglySorted Toolbar.name_le sorted ->
  StronglySorted Toolbar.name_le (Toolbar.insert_by_name x sorted).
Proof.
  induction sorted as [|y rest IH]; intro Hs; cbn [Toolbar.insert_by_name].
  - constructor; [constructor | constructor].
  - apply StronglySorted_inv in Hs. destruct Hs as [Hrest Hall].
    destruct (Toolbar.str_ltb (lower (l_name x)) (lower (l_name y))) eqn:E.
    + constructor; [constructor; assumption|].
      constructor; [exact (str_ltb_asym _ _ E)|].
      rewrite Forall_forall in Hall |- *. intros z Hz.
      exact (str_le_trans _ _ _ (str_ltb_asym _ _ E) (Hall z Hz)).
    + constructor; [apply IH, Hrest|].
      rewrite Forall_forall in Hall |- *. intros z Hz.
      apply In_insert_by_name in Hz. destruct Hz as [->|Hz]; [exact E | exact (Hall z Hz)].
Qed.

Lemma insert_by_name_perm (x : MapLayer) (sorted : list MapLayer) :
  Permutation (Toolbar.insert_by_name x sorted) (x :: sorted).
Proof.
  induction sorted as [|y rest IH]; cbn [Toolbar.insert_by_name].
  - apply Permutation_refl.
  - destruct (Toolbar.str_ltb _ _); [apply Permutation_refl|].
    eapply perm_trans; [apply perm_skip, IH | apply perm_swap].
Qed.

Lemma sort_from (layers sorted : list MapLayer) :
  StronglySorted Toolbar.name_le sorted ->
  StronglySorted Toolbar.name_le
    (fold_left (fun sorted x => Toolbar.insert_by_name x sorted) layers sorted) /\
  Permutation
    (fold_left (fun sorted x => Toolbar.insert_by_name x sorted) layers sorted)
    (sorted ++ layers).
Proof.
  revert sorted. induction layers as [|x layers IH]; intros sorted Hs; cbn [fold_left].
  - rewrite app_nil_r. split; [exact Hs | apply Permutation_refl].
  - destruct (IH _ (insert_by_name_sorted x Hs)) as [H1 H2]. split; [exact H1|].
    eapply perm_trans; [exact H2|].
    eapply perm_trans; [apply Permutation_app_tail, insert_by_name_perm|].
    cbn [app]. apply Permutation_middle.
Qed.

(** X15. The vector layers come into the layer box in the order of their
    lower-case names, compared code point by code point: every layer of
    the list stands before all that follow it in that order, and the
    sorted list holds the layers it was given, each as often as before. *)
Theorem sort_by_name_sorts (layers : list MapLayer) :
  StronglySorted Toolbar.name_le (Toolbar.sort_by_name layers) /\
  Permutation (Toolbar.sort_by_name layers) layers.
Proof.
  unfold Toolbar.sort_by_name.
  destruct (@sort_from layers [] (SSorted_nil _)) as [H1 H2].
  split; [exact H1 | exact H2].
Qed.

End SortFacts.

(** ** The field box after a layer was chosen *)

Lemma find_from_absent (i : Z) (s : str) (l : list str) :
  ~ In s l -> find_from i s l = (-1)%Z.
Proof.
  revert i. induction l as [|x l IH]; intros i Hnin; [reflexivity|].
  cbn [find_from]. destruct (str_eqb x s) eqn:E.
  - apply str_eqb_eq in E. exfalso. apply Hnin. left. exact E.
  - apply IH. intro H. apply Hnin. right. exact H.
Qed.

Lemma find_from_present (i : Z) (s : str) (l : list str) :
  In s l ->
  exists n, find_from i s l = (i + Z.of_nat n)%Z /\ (n < length l)%nat /\
            nth n l [] = s.
Proof.
  revert i. induction l as [|x l IH]; intros i Hin; [destruct Hin|].
  cbn [find_from]. destruct (str_eqb x s) eqn:E.
  - apply str_eqb_eq in E. exists 0%nat. cbn [nth length].
    split; [lia|]. split; [lia | exact E].
  - destruct Hin as [Hx|Hin].
    + subst x. rewrite str_eqb_refl in E. discriminate.
    + destruct (IH (i + 1)%Z Hin) as (n & Hn & Hlt & Hnth).
      exists (S n). cbn [nth length]. split; [lia|]. split; [lia | exact Hnth].
Qed.

(** A box emptied and filled: its first item is the current one. *)
Lemma addItems_from_empty {A : Type} (name : A -> str) (l : list A) (cb : QComboBox) :
  fold_left (fun box x => addItem (name x) box) l (combo_clear cb)
  = {| items := map name l;
       currentIndex := match l with [] => (-1)%Z | _ :: _ => 0%Z end |}.
Proof.
  destruct l as [|x l]; [reflexivity|].
  cbn [fold_left]. rewrite addItems_keep_index by discriminate. reflexivity.
Qed.

(** The field box as [on_layer_changed] fills it again. *)
Lemma refill_fields_spec (layer : MapLayer) (cb : QComboBox) :
  items (Toolbar.refill_fields layer cb) = map f_name (l_fields layer) /\
  (currentText cb <> [] -> In (currentText cb) (map f_name (l_fields layer)) ->
   currentText (Toolbar.refill_fields layer cb) = currentText cb) /\
  (currentText cb = [] \/ ~ In (currentText cb) (map f_name (l_fields layer)) ->
   currentText (Toolbar.refill_fields layer cb) = hd [] (map f_name (l_fields layer))).
Proof.
  unfold Toolbar.refill_fields. cbv zeta. rewrite addItems_from_empty.
  set (names := map f_name (l_fields layer)).
  assert (Hlen : length names = length (l_fields layer)) by apply length_map.
  set (filled := {| items := names;
                    currentIndex := match l_fields layer with
                                    | [] => (-1)%Z | _ :: _ => 0%Z end |}).
  assert (Hfirst : currentText filled = hd [] names).
  { subst filled names. destruct (l_fields layer); reflexivity. }
  destruct (nonempty (currentText cb)) eqn:Ek.
  - apply nonempty_true in Ek. unfold findText. cbn [items filled].
    split; [|split].
    + destruct (0 <=? _)%Z; reflexivity.
    + intros _ Hin. destruct (find_from_present 0 _ _ Hin) as (n & -> & Hlt & Hnth).
      replace (0 <=? 0 + Z.of_nat n)%Z with true by (symmetry; apply Z.leb_le; lia).
      unfold setCurrentIndex, currentText. clear Hfirst. subst filled.
      cbn [items currentIndex].
      replace ((0 <=? 0 + Z.of_nat n)%Z && (0 + Z.of_nat n <? Z.of_nat (length names))%Z)
        with true
        by (symmetry; apply andb_true_iff; split;
            [apply Z.leb_le; lia | apply Z.ltb_lt; lia]).
      replace (0 + Z.of_nat n <? 0)%Z with false by (symmetry; apply Z.ltb_ge; lia).
      replace (Z.to_nat (0 + Z.of_nat n)) with n by lia. exact Hnth.
    + intros [He|Hnin]; [contradiction|].
      rewrite (@find_from_absent 0 _ _ Hnin). exact Hfirst.
  - split; [reflexivity|]. split.
    + intro Hne. apply nonempty_true in Hne. rewrite Hne in Ek. discriminate.
    + intros _. exact Hfirst.
Qed.

(** X16. When a layer is chosen, [on_layer_changed] fills the field box
    with the names of all fields of the layer, in their order; the field
    shown before stays chosen when the layer has a field of that name,
    otherwise the first field is chosen.  The layer is remembered for
    [clear_all], and the settings are saved. *)
Theorem on_layer_changed_lists_fields (project : list MapLayer) (w : Toolbar.World)
    (layer : MapLayer) :
  Toolbar._get_selected_layer project (Toolbar.dlg w) = Some layer ->
  items (Toolbar.combo_field (Toolbar.dlg (Toolbar.on_layer_changed project w)))
    = map f_name (l_fields layer) /\
  (currentText (Toolbar.combo_field (Toolbar.dlg w)) <> [] ->
   In (currentText (Toolbar.combo_field (Toolbar.dlg w))) (map f_name (l_fields layer)) ->
   currentText (Toolbar.combo_field (Toolbar.dlg (Toolbar.on_layer_changed project w)))
     = currentText (Toolbar.combo_field (Toolbar.dlg w))) /\
  (currentText (Toolbar.combo_field (Toolbar.dlg w)) = [] \/
   ~ In (currentText (Toolbar.combo_field (Toolbar.dlg w))) (map f_name (l_fields layer)) ->
   currentText (Toolbar.combo_field (Toolbar.dlg (Toolbar.on_layer_changed project w)))
     = hd [] (map f_name (l_fields layer))) /\
  Toolbar._last_layer_id (Toolbar.dlg (Toolbar.on_layer_changed project w))
    = Some (l_id layer) /\
  Toolbar.lbl_layer_info (Toolbar.dlg (Toolbar.on_layer_changed project w))
    = Toolbar.InfoOf (l_id layer) /\
  Toolbar.settings (Toolbar.on_layer_changed project w)
    = Some (Toolbar.snapshot (Toolbar.dlg (Toolbar.on_layer_changed project w))).
Proof.
  intro Hsel. unfold Toolbar.on_layer_changed. rewrite Hsel. cbv zeta.
  rewrite settings_save_state, !dlg_save_state, !dlg_on_dlg.
  destruct (refill_fields_spec layer (Toolbar.combo_field (Toolbar.dlg w)))
    as (Hitems & Hkeep & Hfirst).
  destruct (Toolbar.dlg w) as
    [free chk arrow vis logic use field op filter lyr info tbl files folder ext last].
  cbn [Toolbar.put_last_layer_id Toolbar.put_combo_field Toolbar.put_lbl_layer_info
       Toolbar.combo_field Toolbar._last_layer_id Toolbar.lbl_layer_info] in *.
  repeat split; assumption || reflexivity.
Qed.

Lemma on_layer_changed_lists_fields_witness :
  items (Toolbar.combo_field (Toolbar.dlg (Toolbar.on_layer_changed [layer_addr_id] busy_world)))
    = [lit "addr"; lit "id"] /\
  currentText
    (Toolbar.combo_field (Toolbar.dlg (Toolbar.on_layer_changed [layer_addr_id] busy_world)))
    = lit "id".
Proof.
  destruct (on_layer_changed_lists_fields [layer_addr_id] busy_world (layer := layer_addr_id))
    as (Hitems & Hkeep & _).
  - reflexivity.
  - split; [exact Hitems|]. apply Hkeep.
    + discriminate.
    + right. left. reflexivity.
Defined.

(** ** The shape of a search run *)

Ltac single_message := split; [reflexivity | left; split; reflexivity].

Lemma toolbar_execute_shape (h : Host) (layer : MapLayer) (e : str) :
  one_message (Toolbar.execute h layer e) /\ query_first h (Toolbar.execute h layer e).
Proof.
  unfold Toolbar.execute.
  destruct (parserError h e) eqn:Hp; [single_message|].
  destruct (getFeatures h layer e) as [ids|d].
  - destruct (negb (nonempty ids)); (split; [reflexivity|]); right;
      eexists; eexists; (split; [reflexivity|]); (split; [exact Hp | reflexivity]).
  - split; [reflexivity|]. right.
    eexists; eexists; (split; [reflexivity|]); (split; [exact Hp | reflexivity]).
Qed.

Lemma dialog_execute_shape (h : Host) (layer : MapLayer) (e : str) :
  query_first h (Dialog.execute h layer e) /\
  (one_message (Dialog.execute h layer e) \/
   exists d, getFeatures h layer e = Raises d /\
             Dialog.execute h layer e = [GetFeatures e; Uncaught d]).
Proof.
  unfold Dialog.execute.
  destruct (parserError h e) eqn:Hp.
  - split; [left; split; reflexivity | left; reflexivity].
  - destruct (getFeatures h layer e) as [ids|d].
    + destruct (negb (nonempty ids)); (split; [|left; reflexivity]); right;
        eexists; eexists; (split; [reflexivity|]); (split; [exact Hp | reflexivity]).
    + split.
      * right. eexists; eexists; (split; [reflexivity|]); (split; [exact Hp | reflexivity]).
      * right. exists d. split; reflexivity.
Qed.

Section RunShape.
Context {U : UnicodeTables}.

Lemma typed_comparison_returns (field_q filt : str) (op_idx : Z)
    (r : list (Event Toolbar.Message)) :
  Toolbar.typed_comparison field_q op_idx filt = Return r ->
  r = [PushWarning Toolbar.GreaterNeedsNumber] \/
  r = [PushWarning Toolbar.LessNeedsNumber].
Proof.
  unfold Toolbar.typed_comparison.
  destruct (op_idx =? 0)%Z; [destruct (_is_number filt); discriminate|].
  destruct (op_idx =? 1)%Z.
  { destruct (negb (_is_number filt)); [|discriminate]. intro H. left. congruence. }
  destruct (op_idx =? 2)%Z.
  { destruct (negb (_is_number filt)); [|discriminate]. intro H. right. congruence. }
  discriminate.
Qed.

(** X17. Every run of the toolbar's [run_search] puts exactly one entry
    on the message bar.  It either leaves the layer alone (no query, no
    change of the selection) or begins with its single query, made with
    an expression the parser accepted. *)
Theorem toolbar_run_search_shape (h : Host) (selected : option MapLayer)
    (i : Toolbar.SearchInput) :
  one_message (Toolbar.run_search h selected i) /\
  query_first h (Toolbar.run_search h selected i).
Proof.
  unfold Toolbar.run_search. destruct selected as [layer|]; [|single_message].
  cbv zeta. destruct (_ && _); [single_message|].
  unfold Toolbar.expr_free.
  destruct (nonempty (strip (Toolbar.in_free i))); cbv zeta.
  - destruct (nonempty (Toolbar.free_parts _ _)); cbn [and_then]; [|single_message].
    unfold Toolbar.expr_filter.
    destruct (_ && _ && _); cbv zeta; cbn [and_then].
    + destruct (Toolbar.typed_comparison _ _ _) as [r|c] eqn:Et; cbn [and_then].
      * destruct (typed_comparison_returns _ _ _ Et) as [-> | ->]; single_message.
      * destruct (negb _); [single_message | apply toolbar_execute_shape].
    + destruct (negb _); [single_message | apply toolbar_execute_shape].
  - cbn [and_then]. unfold Toolbar.expr_filter.
    destruct (_ && _ && _); cbv zeta; cbn [and_then].
    + destruct (Toolbar.typed_comparison _ _ _) as [r|c] eqn:Et; cbn [and_then].
      * destruct (typed_comparison_returns _ _ _ Et) as [-> | ->]; single_message.
      * destruct (negb _); [single_message | apply toolbar_execute_shape].
    + destruct (negb _); [single_message | apply toolbar_execute_shape].
Qed.

End RunShape.

(** X18. A run of [run_search] of AddressSearchDialog.py either leaves
    the layer alone or begins with its single query, made with an
    expression the parser accepted.  It puts exactly one entry on the
    message bar, except when [getFeatures] raises: the exception then
    leaves the handler after the query, with no message. *)
Theorem dialog_run_search_shape (h : Host) (active : option MapLayer)
    (w : Dialog.Widgets) :
  query_first h (Dialog.run_search h active w) /\
  (one_message (Dialog.run_search h active w) \/
   exists layer e d,
     active = Some layer /\ getFeatures h layer e = Raises d /\
     Dialog.run_search h active w = [GetFeatures e; Uncaught d]).
Proof.
  unfold Dialog.run_search.
  destruct active as [layer|];
    [|split; [left; split; reflexivity | left; reflexivity]].
  destruct (l_type layer) as [[| |]|];
    try (split; [left; split; reflexivity | left; reflexivity]).
  cbv zeta.
  destruct (_ && _); [split; [left; split; reflexivity | left; reflexivity]|].
  destruct (negb (nonempty _)); [split; [left; split; reflexivity | left; reflexivity]|].
  destruct (negb (truthy _)); [split; [left; split; reflexivity | left; reflexivity]|].
  destruct (dialog_execute_shape h layer (format_value (Dialog.expr_text layer w)))
    as [Hq [Hone | (d & Hr & He)]].
  - split; [exact Hq | left; exact Hone].
  - split; [exact Hq|]. right. exists layer, (format_value (Dialog.expr_text layer w)), d.
    split; [reflexivity|]. split; [exact Hr | exact He].
Qed.

(** ** [clear_all] of AddressSearchDialog.py *)




(** ** [clear_all] of the toolbar, repeated *)

Lemma cleared_twice (d : Toolbar.Dlg) :
  Toolbar.cleared (Toolbar.cleared d) = Toolbar.cleared d.
Proof.
  destruct d as
    [free chk arrow vis logic use field op filter layer info tbl files folder ext last].
  unfold Toolbar.cleared.
  cbn [Toolbar.combo_logic Toolbar.combo_field Toolbar.combo_op Toolbar.combo_layer
       Toolbar.tbl_results Toolbar.edit_folder Toolbar.edit_ext Toolbar._last_layer_id].
  assert (Hidx : forall cb, setCurrentIndex 0 (setCurrentIndex 0 cb) = setCurrentIndex 0 cb)
    by reflexivity.
  rewrite !Hidx. reflexivity.
Qed.

Lemma settings_clear_all (project : list MapLayer) (w : Toolbar.World) :
  Toolbar.settings (Toolbar.clear_all project w)
  = Some (Toolbar.snapshot (Toolbar.dlg (Toolbar.clear_all project w))).
Proof.
  cbv beta zeta delta [Toolbar.clear_all].
  rewrite settings_call, settings_save_state, dlg_call, dlg_save_state. reflexivity.
Qed.

(** X20. [clear_all] a second time changes no widget and no setting, but
    calls the host again: the layer chosen last is never forgotten, so
    its selection is removed once more although the layer box shows no
    layer. *)
Theorem clear_all_twice (project : list MapLayer) (w : Toolbar.World) :
  Toolbar.layer_box_filled (Toolbar.dlg w) ->
  Toolbar.dlg (Toolbar.clear_all project (Toolbar.clear_all project w))
    = Toolbar.dlg (Toolbar.clear_all project w) /\
  Toolbar.settings (Toolbar.clear_all project (Toolbar.clear_all project w))
    = Toolbar.settings (Toolbar.clear_all project w) /\
  Toolbar.calls (Toolbar.clear_all project (Toolbar.clear_all project w))
    = Toolbar.calls (Toolbar.clear_all project w)
      ++ match Toolbar._get_layer_by_id project
                 (Toolbar._last_layer_id (Toolbar.dlg w)) with
         | Some prev => [RemoveSelection (l_id prev)]
         | None => []
         end
      ++ [ClearTreeCurrentIndex; SetActiveLayerNone; PushInfo Toolbar.Cleared].
Proof.
  intro Hfilled.
  destruct (clear_all_steps project w Hfilled) as [Hd Hc].
  unfold Toolbar.after_clear_all in Hd.
  assert (Hfilled' : Toolbar.layer_box_filled (Toolbar.dlg (Toolbar.clear_all project w))).
  { rewrite Hd. destruct Hfilled as (names & Hitems). exists names.
    destruct (Toolbar.dlg w); exact Hitems. }
  destruct (clear_all_steps project (Toolbar.clear_all project w) Hfilled') as [Hd2 Hc2].
  unfold Toolbar.after_clear_all in Hd2.
  assert (Hdd : Toolbar.dlg (Toolbar.clear_all project (Toolbar.clear_all project w))
                = Toolbar.dlg (Toolbar.clear_all project w)).
  { rewrite Hd2, Hd. apply cleared_twice. }
  split; [exact Hdd|]. split.
  - rewrite (settings_clear_all project (Toolbar.clear_all project w)),
      (settings_clear_all project w), Hdd. reflexivity.
  - rewrite Hc2. f_equal. rewrite Hd. destruct (Toolbar.dlg w); reflexivity.
Qed.

Lemma clear_all_twice_witness :
  Toolbar.dlg (Toolbar.clear_all [layer_addr_id] (Toolbar.clear_all [layer_addr_id] busy_world))
    = Toolbar.dlg (Toolbar.clear_all [layer_addr_id] busy_world) /\
  Toolbar.calls (Toolbar.clear_all [layer_addr_id] (Toolbar.clear_all [layer_addr_id] busy_world))
    = [RemoveSelection (lit "L1"); ClearTreeCurrentIndex; SetActiveLayerNone;
       PushInfo Toolbar.Cleared;
       RemoveSelection (lit "L1"); ClearTreeCurrentIndex; SetActiveLayerNone;
       PushInfo Toolbar.Cleared].
Proof.
  destruct (@clear_all_twice [layer_addr_id] busy_world) as (Hd & _ & Hc).
  - exists [lit "town"]. reflexivity.
  - split; [exact Hd | exact Hc].
Defined.

(** ** The layer the box selects *)

Lemma lstrip_by_idem (drop : char -> bool) (s : str) :
  lstrip_by drop (lstrip_by drop s) = lstrip_by drop s.
Proof.
  induction s as [|c s IH]; [reflexivity|].
  cbn [lstrip_by]. destruct (drop c) eqn:E; [exact IH|].
  cbn [lstrip_by]. rewrite E. reflexivity.
Qed.

Lemma lstrip_by_length (drop : char -> bool) (s : str) :
  (length (lstrip_by drop s) <= length s)%nat.
Proof.
  induction s as [|c s IH]; [apply Nat.le_refl|].
  cbn [lstrip_by]. destruct (drop c); cbn [length]; lia.
Qed.

Lemma lstrip_by_fixed_head (drop : char -> bool) (c : char) (t : str) :
  lstrip_by drop (c :: t) = c :: t -> drop c = false.
Proof.
  cbn [lstrip_by]. destruct (drop c); [|reflexivity].
  intro H. pose proof (lstrip_by_length drop t) as Hlen.
  rewrite H in Hlen. cbn [length] in Hlen. lia.
Qed.

Lemma lstrip_by_snoc (drop : char -> bool) (a : str) (c : char) :
  drop c = false -> lstrip_by drop (a ++ [c]) = lstrip_by drop a ++ [c].
Proof.
  intro Hc. induction a as [|x a IH]; cbn [app lstrip_by].
  - rewrite Hc. reflexivity.
  - destruct (drop x); [exact IH | reflexivity].
Qed.

Lemma rstrip_by_idem (drop : char -> bool) (s : str) :
  rstrip_by drop (rstrip_by drop s) = rstrip_by drop s.
Proof. unfold rstrip_by. rewrite rev_involutive, lstrip_by_idem. reflexivity. Qed.

Lemma rstrip_keeps_left (drop : char -> bool) (t : str) :
  lstrip_by drop t = t -> lstrip_by drop (rstrip_by drop t) = rstrip_by drop t.
Proof.
  destruct t as [|c t]; [reflexivity|]. intro H.
  pose proof (@lstrip_by_fixed_head drop c t H) as Hc.
  unfold rstrip_by. cbn [rev]. rewrite (@lstrip_by_snoc drop _ c Hc).
  rewrite rev_app_distr. cbn [rev app lstrip_by]. rewrite Hc. reflexivity.
Qed.

(** [strip] of a stripped string changes nothing. *)
Lemma strip_idem (s : str) : strip (strip s) = strip s.
Proof.
  unfold strip.
  rewrite (@rstrip_keeps_left isspace (lstrip_by isspace s) (lstrip_by_idem _ _)).
  apply rstrip_by_idem.
Qed.

(** X21. The layer [_get_selected_layer] returns is a vector layer of
    the project whose name is the stripped text of the layer box; so its
    name is not empty and stripping it changes nothing: a layer whose
    name begins or ends with white space is never the selected one. *)
Theorem selected_layer_has_trimmed_name (project : list MapLayer) (d : Toolbar.Dlg)
    (layer : MapLayer) :
  Toolbar._get_selected_layer project d = Some layer ->
  In layer project /\ is_vector layer = true /\
  l_name layer = strip (currentText (Toolbar.combo_layer d)) /\
  l_name layer <> [] /\ strip (l_name layer) = l_name layer.
Proof.
  unfold Toolbar._get_selected_layer. cbv zeta.
  destruct (nonempty (strip (currentText (Toolbar.combo_layer d)))) eqn:En;
    cbn [negb]; [|discriminate].
  intro H. apply find_some in H. destruct H as [Hin Hp].
  apply andb_true_iff in Hp. destruct Hp as [Hv Hname].
  apply str_eqb_eq in Hname. apply nonempty_true in En.
  split; [exact Hin|]. split; [exact Hv|]. split; [exact Hname|].
  rewrite Hname. split; [exact En | apply strip_idem].
Qed.

Lemma selected_layer_has_trimmed_name_witness :
  In layer_addr_id [layer_addr_id] /\ is_vector layer_addr_id = true /\
  l_name layer_addr_id = strip (currentText (Toolbar.combo_layer busy_dlg)) /\
  l_name layer_addr_id <> [] /\ strip (l_name layer_addr_id) = l_name layer_addr_id.
Proof.
  apply (selected_layer_has_trimmed_name [layer_addr_id] busy_dlg). reflexivity.
Defined.

Section KeptChoice.
Context {U : UnicodeTables}.

(** X22. When the layers of the project change, [refresh_layers] keeps
    the layer of the box chosen as long as a vector layer of that name is
    left; otherwise the box falls back to its blank entry, the field box
    is emptied and no layer is selected any more. *)
Theorem refresh_layers_keeps_choice (project : list MapLayer) (w : Toolbar.World) :
  (currentText (Toolbar.combo_layer (Toolbar.dlg w)) <> [] ->
   In (currentText (Toolbar.combo_layer (Toolbar.dlg w)))
      (Toolbar.vector_layer_names project) ->
   currentText (Toolbar.combo_layer (Toolbar.dlg (Toolbar.refresh_layers project w)))
     = currentText (Toolbar.combo_layer (Toolbar.dlg w))) /\
  (currentText (Toolbar.combo_layer (Toolbar.dlg w)) = [] \/
   ~ In (currentText (Toolbar.combo_layer (Toolbar.dlg w)))
        (Toolbar.vector_layer_names project) ->
   currentIndex (Toolbar.combo_layer (Toolbar.dlg (Toolbar.refresh_layers project w)))
     = 0%Z /\
   Toolbar._get_selected_layer project (Toolbar.dlg (Toolbar.refresh_layers project w))
     = None /\
   items (Toolbar.combo_field (Toolbar.dlg (Toolbar.refresh_layers project w))) = []).
Proof.
  unfold Toolbar.refresh_layers, Toolbar.vector_layer_names. cbv zeta.
  set (current := currentText (Toolbar.combo_layer (Toolbar.dlg w))).
  set (names := map l_name (Toolbar.sort_by_name (filter is_vector project))).
  rewrite addItems_keep_index by discriminate.
  cbn [addItem combo_clear items currentIndex app]. fold names.
  match goal with
  | |- context [setCurrentIndex _ ?b] => set (box := b)
  end.
  split.
  - intros Hne Hin. rewrite on_layer_changed_keeps_layer_box, dlg_on_dlg.
    apply nonempty_true in Hne. rewrite Hne.
    destruct (Toolbar.dlg w); cbn [Toolbar.put_combo_layer Toolbar.combo_layer].
    subst box. unfold findText. cbn [items find_from].
    destruct (str_eqb [] current) eqn:E0.
    { apply str_eqb_eq in E0. rewrite <- E0 in Hne. discriminate. }
    destruct (find_from_present (0 + 1) _ _ Hin) as (n & -> & Hlt & Hnth).
    replace (0 <=? 0 + 1 + Z.of_nat n)%Z with true by (symmetry; apply Z.leb_le; lia).
    unfold setCurrentIndex, currentText. cbn [items currentIndex length].
    replace ((0 <=? 0 + 1 + Z.of_nat n)%Z
             && (0 + 1 + Z.of_nat n <? Z.of_nat (S (length names)))%Z)
      with true
      by (symmetry; apply andb_true_iff; split;
          [apply Z.leb_le; lia | apply Z.ltb_lt; lia]).
    replace (0 + 1 + Z.of_nat n <? 0)%Z with false by (symmetry; apply Z.ltb_ge; lia).
    replace (Z.to_nat (0 + 1 + Z.of_nat n)) with (S n) by lia. exact Hnth.
  - intro Hno.
    assert (Hbox : (if nonempty current
                    then if (0 <=? findText current box)%Z
                         then setCurrentIndex (findText current box) box else box
                    else box) = box).
    { destruct (nonempty current) eqn:En; [|reflexivity].
      destruct Hno as [He|Hnin]; [rewrite He in En; discriminate|].
      subst box. unfold findText. cbn [items find_from].
      destruct (str_eqb [] current) eqn:E0.
      { apply str_eqb_eq in E0. rewrite <- E0 in En. discriminate. }
      rewrite (@find_from_absent (0 + 1) _ _ Hnin). reflexivity. }
    rewrite Hbox.
    match goal with
    | |- context [Toolbar.on_layer_changed project ?x] =>
        assert (Hblank : currentText (Toolbar.combo_layer (Toolbar.dlg x)) = [])
          by (rewrite dlg_on_dlg; destruct (Toolbar.dlg w); reflexivity);
        pose proof (on_layer_changed_keeps_layer_box project x) as Hkeep;
        destruct (on_layer_changed_blank project x Hblank) as [Hd _]
    end.
    split; [|split].
    + rewrite Hkeep, dlg_on_dlg. destruct (Toolbar.dlg w); reflexivity.
    + apply blank_entry_selects_nothing. rewrite Hkeep. exact Hblank.
    + rewrite Hd. destruct (Toolbar.dlg w); reflexivity.
Qed.

End KeptChoice.

(** ** What stays true of an open dialog *)

Lemma steady_by_frame (w w' : Toolbar.World) :
  Toolbar.steady w ->
  Toolbar.frame_of (Toolbar.dlg w') = Toolbar.frame_of (Toolbar.dlg w) ->
  Toolbar.settings w' = Some (Toolbar.snapshot (Toolbar.dlg w')) ->
  Toolbar.steady w'.
Proof.
  intros ((names & Hitems) & [Hlogic Hop] & [Hvis Harrow] & _) Hframe Hsaved.
  unfold Toolbar.frame_of in Hframe. injection Hframe as H1 H2 H3 H4 H5 H6.
  unfold Toolbar.steady, Toolbar.layer_box_filled, Toolbar.fixed_boxes,
    Toolbar.advanced_consistent.
  rewrite H1, H2, H3, H4, H5, H6.
  split; [exists names; exact Hitems|]. split; [split; assumption|].
  split; [split; assumption | exact Hsaved].
Qed.

(** A signal connected to [_save_state], after a step on the widgets
    that changes nothing when the signal does not fire. *)
Lemma steady_signal (changed : bool) (f : Toolbar.Dlg -> Toolbar.Dlg)
    (w : Toolbar.World) :
  Toolbar.steady w ->
  Toolbar.frame_of (f (Toolbar.dlg w)) = Toolbar.frame_of (Toolbar.dlg w) ->
  (changed = false -> f (Toolbar.dlg w) = Toolbar.dlg w) ->
  Toolbar.steady (Toolbar.signal changed (Toolbar.on_dlg f w)).
Proof.
  intros Hs Hframe Hsame.
  apply (@steady_by_frame w _ Hs).
  - rewrite dlg_signal, dlg_on_dlg. exact Hframe.
  - destruct changed; [reflexivity|].
    cbn [Toolbar.signal]. rewrite dlg_on_dlg, (Hsame eq_refl).
    destruct Hs as (_ & _ & _ & Hsaved). exact Hsaved.
Qed.

Lemma same_index_same_box (i : Z) (cb : QComboBox) :
  negb (currentIndex (setCurrentIndex i cb) =? currentIndex cb)%Z = false ->
  setCurrentIndex i cb = cb.
Proof.
  intro H. apply negb_false_iff, Z.eqb_eq in H.
  destruct cb as [its idx]. unfold setCurrentIndex in *. cbn [items currentIndex] in *.
  rewrite H. reflexivity.
Qed.

Lemma steady_on_layer_changed (project : list MapLayer) (w w0 : Toolbar.World) :
  Toolbar.steady w0 ->
  Toolbar.frame_of (Toolbar.dlg w) = Toolbar.frame_of (Toolbar.dlg w0) ->
  Toolbar.steady (Toolbar.on_layer_changed project w).
Proof.
  intros Hs Hframe. apply (@steady_by_frame w0 _ Hs).
  - rewrite <- Hframe. unfold Toolbar.on_layer_changed.
    destruct (Toolbar._get_selected_layer project (Toolbar.dlg w)); world;
      destruct (Toolbar.dlg w); reflexivity.
  - unfold Toolbar.on_layer_changed.
    destruct (Toolbar._get_selected_layer project (Toolbar.dlg w)); reflexivity.
Qed.

Lemma frame_on_layer_changed (project : list MapLayer) (w : Toolbar.World) :
  Toolbar.frame_of (Toolbar.dlg (Toolbar.on_layer_changed project w))
  = Toolbar.frame_of (Toolbar.dlg w).
Proof.
  unfold Toolbar.on_layer_changed.
  destruct (Toolbar._get_selected_layer project (Toolbar.dlg w)); world;
    destruct (Toolbar.dlg w); reflexivity.
Qed.

Lemma steady_call (e : Event Toolbar.Message) (w : Toolbar.World) :
  Toolbar.steady w -> Toolbar.steady (Toolbar.call e w).
Proof. exact (fun H => H). Qed.

Lemma steady_texts (v : str) (w : Toolbar.World) :
  Toolbar.steady w ->
  Toolbar.steady (Toolbar.set_edit_free v w) /\
  Toolbar.steady (Toolbar.set_edit_filter v w) /\
  Toolbar.steady (Toolbar.set_edit_folder v w) /\
  Toolbar.steady (Toolbar.set_edit_ext v w).
Proof.
  intro Hs.
  repeat split;
    (apply (@steady_signal _ _ w Hs);
     [ destruct (Toolbar.dlg w); reflexivity
     | intro H; apply negb_false_iff, str_eqb_eq in H;
       destruct (Toolbar.dlg w); cbn in H; subst v; reflexivity ]).
Qed.

Lemma steady_picks (i : Z) (b : bool) (w : Toolbar.World) :
  Toolbar.steady w ->
  Toolbar.steady (Toolbar.set_combo_logic i w) /\
  Toolbar.steady (Toolbar.set_combo_op i w) /\
  Toolbar.steady (Toolbar.set_combo_field i w) /\
  Toolbar.steady (Toolbar.set_chk_use_filter b w).
Proof.
  intro Hs.
  split; [|split; [|split]].
  1-3: (apply (@steady_signal _ _ w Hs);
        [ destruct (Toolbar.dlg w); reflexivity
        | intro H; apply same_index_same_box in H;
          destruct (Toolbar.dlg w); cbn in H |- *; rewrite H; reflexivity ]).
  apply (@steady_signal _ _ w Hs).
  - destruct (Toolbar.dlg w); reflexivity.
  - intro H. apply negb_false_iff, Bool.eqb_prop in H.
    destruct (Toolbar.dlg w); cbn in H; subst b; reflexivity.
Qed.

Lemma steady_set_combo_layer (project : list MapLayer) (i : Z) (w : Toolbar.World) :
  Toolbar.steady w -> Toolbar.steady (Toolbar.set_combo_layer project i w).
Proof.
  intro Hs. unfold Toolbar.set_combo_layer. cbv zeta.
  destruct (negb _) eqn:E.
  - apply (@steady_on_layer_changed project _ w Hs).
    rewrite dlg_on_dlg. destruct (Toolbar.dlg w); reflexivity.
  - apply (@steady_signal false _ w Hs).
    + destruct (Toolbar.dlg w); reflexivity.
    + intros _. apply same_index_same_box in E.
      destruct (Toolbar.dlg w); cbn in E |- *; rewrite E; reflexivity.
Qed.

Lemma steady_click_toggle_adv (w : Toolbar.World) :
  Toolbar.steady w -> Toolbar.steady (Toolbar.click_toggle_adv w).
Proof.
  intros ((names & Hitems) & [Hlogic Hop] & _ & _).
  unfold Toolbar.steady, Toolbar.layer_box_filled, Toolbar.fixed_boxes,
    Toolbar.advanced_consistent.
  destruct w as [d s c]; destruct d as
    [free chk arrow vis logic use field op filter layer info tbl files folder ext last].
  cbn in Hitems, Hlogic, Hop |- *.
  split; [exists names; exact Hitems|]. split; [split; assumption|].
  destruct chk; repeat split; reflexivity.
Qed.

Lemma steady_unselect_layer (project : list MapLayer) (w : Toolbar.World) :
  Toolbar.steady w -> Toolbar.steady (Toolbar.unselect_layer project w).
Proof.
  intro Hs. unfold Toolbar.unselect_layer, Toolbar._clear_qgis_active_layer. cbv zeta.
  do 2 apply steady_call.
  apply (@steady_on_layer_changed project _ w Hs).
  rewrite dlg_on_dlg.
  destruct (Toolbar._get_layer_by_id project _); rewrite ?dlg_call;
    destruct (Toolbar.dlg w); reflexivity.
Qed.

Lemma steady_clear_all (project : list MapLayer) (w : Toolbar.World) :
  Toolbar.steady w -> Toolbar.steady (Toolbar.clear_all project w).
Proof.
  intros (Hfilled & [Hlogic Hop] & _ & _).
  unfold Toolbar.steady. rewrite settings_clear_all.
  destruct (clear_all_steps project w Hfilled) as [Hd _].
  unfold Toolbar.after_clear_all in Hd. rewrite Hd.
  destruct Hfilled as (names & Hitems).
  unfold Toolbar.layer_box_filled, Toolbar.fixed_boxes, Toolbar.advanced_consistent.
  destruct (Toolbar.dlg w) as
    [free chk arrow vis logic use field op filter layer info tbl files folder ext last].
  cbn in Hitems, Hlogic, Hop |- *.
  split; [exists names; exact Hitems|]. split; [split; assumption|].
  repeat split; reflexivity.
Qed.

Section SteadyFacts.
Context {U : UnicodeTables}.

Lemma steady_refresh_layers (project : list MapLayer) (w : Toolbar.World) :
  Toolbar.steady w -> Toolbar.steady (Toolbar.refresh_layers project w).
Proof.
  intros (_ & [Hlogic Hop] & [Hvis Harrow] & _).
  unfold Toolbar.steady. split; [|split; [|split]].
  - eexists. apply refresh_layers_fills_layer_box.
  - unfold Toolbar.fixed_boxes.
    destruct (refresh_layers_keeps_fixed_boxes project w) as [-> ->].
    split; assumption.
  - unfold Toolbar.refresh_layers. cbv zeta.
    match goal with
    | |- context [Toolbar.on_layer_changed project ?x] =>
        pose proof (frame_on_layer_changed project x) as Hf
    end.
    unfold Toolbar.frame_of in Hf. injection Hf as _ _ _ H4 H5 H6.
    unfold Toolbar.advanced_consistent. rewrite H4, H5, H6, ?dlg_on_dlg.
    destruct (Toolbar.dlg w); split; assumption.
  - unfold Toolbar.refresh_layers, Toolbar.on_layer_changed. cbv zeta.
    destruct (Toolbar._get_selected_layer project _); reflexivity.
Qed.

Lemma steady_handle (st : list MapLayer * Toolbar.World) (a : Toolbar.Action) :
  Toolbar.steady (snd st) -> Toolbar.steady (snd (Toolbar.handle st a)).
Proof.
  destruct st as [project w]. cbn [snd]. intro Hs.
  destruct a as [v|v|v|v|i|i|i|i|b| | | |folder|fs|project'];
    cbn [Toolbar.handle snd].
  - apply (steady_texts v Hs).
  - apply (steady_texts v Hs).
  - apply (steady_texts v Hs).
  - apply (steady_texts v Hs).
  - apply (steady_picks i false Hs).
  - apply (steady_picks i false Hs).
  - apply (steady_picks i false Hs).
  - apply steady_set_combo_layer, Hs.
  - apply (steady_picks 0 b Hs).
  - apply steady_click_toggle_adv, Hs.
  - apply steady_clear_all, Hs.
  - apply steady_unselect_layer, Hs.
  - unfold Toolbar.pick_folder. destruct (nonempty folder); [|exact Hs].
    apply (@steady_by_frame (Toolbar.set_edit_folder folder w));
      [apply (steady_texts folder Hs) | reflexivity | reflexivity].
  - unfold Toolbar.file_search.
    destruct (Toolbar.run_file_search fs _) as [m|detail|shown count].
    + exact Hs.
    + apply (@steady_by_frame w _ Hs).
      * rewrite dlg_on_dlg. destruct (Toolbar.dlg w); reflexivity.
      * destruct Hs as (_ & _ & _ & Hsaved).
        destruct w as [d st c]. cbn in Hsaved |- *. rewrite Hsaved.
        destruct d; reflexivity.
    + apply (@steady_by_frame w _ Hs);
        [rewrite dlg_save_state, dlg_on_dlg; destruct (Toolbar.dlg w); reflexivity
        | reflexivity].
  - apply steady_refresh_layers, Hs.
Qed.

(** X23. What stays true of an open dialog, whatever the settings held
    when it was created and whatever is done with it (typing, picking,
    checking, the toggle, "clear", "unselect layer", picking a folder,
    searching files, layers added to or removed from the project): the
    layer box begins with its blank entry,
    the join and operator boxes hold their items, the advanced part is
    shown exactly while its button is checked, and the settings hold the
    values the widgets show. *)
Theorem open_dialog_stays_steady (project : list MapLayer)
    (store : option Toolbar.Saved) (actions : list Toolbar.Action) :
  Toolbar.steady (snd (Toolbar.used project store actions)).
Proof.
  unfold Toolbar.used.
  assert (Hstart : Toolbar.steady (snd (project, Toolbar.__init__ project store))).
  { cbn [snd]. rewrite dialog_as_created.
    split; [eexists; reflexivity|]. repeat split; reflexivity. }
  revert Hstart. generalize (project, Toolbar.__init__ project store).
  induction actions as [|a actions IH]; intros st Hs; cbn [fold_left].
  - exact Hs.
  - apply IH, steady_handle, Hs.
Qed.

End SteadyFacts.
